(** * Room / game-session engine of the realtime board-game backend

    A shallow embedding of the socket.io game server (the file that defines
    [processMove]): the per-game move handlers, [processMove], the room registry
    ([createRoom], [joinRoom], [selectGame], [disconnect]) and the turn
    timer ([startTurnTimer], [skipTurn]).

    Conventions.
    - JS numbers that index boards are integers and are modelled in [Z];
      a move is a record of the fields the handlers destructure.
    - Reading an array outside its range gives [undefined]; reading a
      property of [undefined] raises a [TypeError].  Both are kept apart
      from [null].
    - The handlers mutate the game-state object in place.  A handler is a
      function from the state before the call to the state after it, and
      the state "after" is also what is stored in [gameStates] when the
      move is rejected or when the handler throws.
    - [initializeGameState] stores the room's own [players] array in the game
      state; [sharedPlayers] in the server state records for which rooms the
      two are still one array, so that a later [push] by [joinRoom] shows in
      the game state as it does in the source.
    - [Math.random] is an input of the functions that call it. *)

From Stdlib Require Import ZArith String Ascii List Bool Lia.
From stdpp Require Import base option list strings gmap pretty sorting.

Local Open Scope string_scope.
Local Open Scope Z_scope.

(** ** JavaScript arrays and strings *)

(** [a[i]]: [None] is [undefined]. *)
Definition at_ {A : Type} (a : list A) (i : Z) : option A :=
  if 0 <=? i then a !! Z.to_nat i else None.

(** [a[i] = v].  Every write of the source is preceded by a read of the same
    slot that found a value there, so no write grows an array. *)
Definition put {A : Type} (a : list A) (i : Z) (v : A) : list A :=
  if 0 <=? i then <[Z.to_nat i := v]> a else a.

(** The three results of [g[r][c]]. *)
Inductive Read (A : Type) : Type :=
| Value (a : A)
| Undefined
| TypeError.
Arguments Value {A} a.
Arguments Undefined {A}.
Arguments TypeError {A}.

Definition at2 {A : Type} (g : list (list A)) (r c : Z) : Read A :=
  match at_ g r with
  | None => TypeError
  | Some line =>
      match at_ line c with
      | None => Undefined
      | Some a => Value a
      end
  end.

Definition put2 {A : Type} (g : list (list A)) (r c : Z) (v : A) : list (list A) :=
  match at_ g r with
  | None => g
  | Some line => put g r (put line c v)
  end.

(** A board cell holds [null] ([None]) or a string. *)
Definition Cell := option string.

(** [!v] is false exactly on a non-empty string. *)
Definition truthy (v : Cell) : bool :=
  match v with
  | Some s => negb (String.eqb s "")
  | None => false
  end.

Definition cellIs (v : Cell) (symbol : string) : bool :=
  match v with
  | Some s => String.eqb s symbol
  | None => false
  end.

Definition isNull (v : Cell) : bool :=
  match v with
  | None => true
  | Some _ => false
  end.

Definition upperChar (c : ascii) : ascii :=
  let n := N_of_ascii c in
  if ((97 <=? n) && (n <=? 122))%N then ascii_of_N (n - 32) else c.

Definition lowerChar (c : ascii) : ascii :=
  let n := N_of_ascii c in
  if ((65 <=? n) && (n <=? 90))%N then ascii_of_N (n + 32) else c.

Fixpoint toUpperCase (s : string) : string :=
  match s with
  | EmptyString => EmptyString
  | String c s' => String (upperChar c) (toUpperCase s')
  end.

Fixpoint toLowerCase (s : string) : string :=
  match s with
  | EmptyString => EmptyString
  | String c s' => String (lowerChar c) (toLowerCase s')
  end.

(** [s.includes(sub)] *)
Definition includes (s sub : string) : bool :=
  match String.index 0 sub s with
  | Some _ => true
  | None => false
  end.

(** ** Data model *)

Record Player := {
  p_id : string;      (* id *)
  p_name : string;    (* name *)
  p_ready : bool      (* ready *)
}.

Record Room := {
  code : string;
  host : string;
  room_players : list Player;      (* players *)
  gameSelected : option string
}.

(** dotsandboxes *)
Record DotsBoard := {
  gridSize : Z;
  horizontalLines : list (list bool);
  verticalLines : list (list bool);
  boxes : list (list Cell);
  score1 : Z;                      (* scores.player1 *)
  score2 : Z;                      (* scores.player2 *)
  completedBoxes : Z;
  totalBoxes : Z
}.

(** ludo *)
Record LudoPlayer := {
  pieces : list Z;
  home : Z
}.

Record LudoBoard := {
  ludo1 : LudoPlayer;              (* players.player1 *)
  ludo2 : LudoPlayer;              (* players.player2 *)
  diceValue : Z;
  diceRolled : bool;
  ludoWinner : option string       (* winner, never written *)
}.

(** memorymatch *)
Record Card := {
  value : Z;
  flipped : bool;
  matched : bool
}.

Record MemoryBoard := {
  cards : list Card;
  flippedCards : list Z;
  mm_scores : gmap string Z        (* scores, keyed by "player<n>" *)
}.

(** minesweeper *)
Record Mine := {
  isMine : bool;
  isRevealed : bool;
  neighborCount : Z;
  revealedBy : option string
}.

Record MinesBoard := {
  ms_board : list (list Mine);     (* board *)
  ms_scores : gmap string Z        (* scores *)
}.

(** battleship *)
Record Ship := {
  positions : list (Z * Z);        (* {row, col} *)
  sunk : bool
}.

Record PlayerBoard := {
  ships : list Ship;
  shots : list Cell
}.

(** [gameState.board], one shape per initialiser of [initializeGameState]. *)
Inductive Board :=
| NoBoard                                        (* null *)
| TicTacToeBoard (cells : list Cell)
| Connect4Board (g : list (list Cell))
| CheckersBoard (g : list (list Cell))
| GomokuBoard (g : list (list Cell))
| MiniChessBoard (g : list (list Cell))
| DotsAndBoxesBoard (b : DotsBoard)
| LudoBoardOf (b : LudoBoard)
| MemoryMatchBoard (b : MemoryBoard)
| MinesweeperBoard (b : MinesBoard)
| BattleshipBoard (b : gmap string PlayerBoard). (* keyed by player id *)

Record GameState := {
  currentPlayer : string;
  gameType : string;
  board : Board;
  winner : option string;
  gameOver : bool;
  players : list Player;
  timer : option nat;              (* handle returned by setTimeout, or null *)
  timerStarted : bool;
  firstMoveMade : bool;
  phase : option string;           (* battleship only *)
  draw : bool;                     (* absent until set to true *)
  timeLeft : option Z              (* absent until a timer is started *)
}.

(** The fields read from [move] by the ten handlers. *)
Record Move := {
  mv_index : Z;
  mv_column : Z;
  mv_row : Z;
  mv_col : Z;
  mv_type : string;
  mv_action : string;
  mv_pieceIndex : Z;
  mv_fromRow : Z;
  mv_fromCol : Z;
  mv_toRow : Z;
  mv_toCol : Z;
  mv_cardIndex : Z;
  mv_ships : list Ship
}.

(** The properties a handler adds to [{gameState, valid}]. *)
Inductive Extra :=
| x_winner (w : option string)
| x_draw (d : bool)
| x_winningLine (l : list (Z * Z))
| x_completedBoxes (l : list (Z * Z))
| x_boxesCompleted (b : bool)
| x_hitMine
| x_matched
| x_noMatch
| x_captured (c : option (Z * Z * Cell))
| x_phase (p : option string)
| x_hit (h : bool)
| x_sunk (s : option Ship)
| x_turnSkipped.

Record Result := {
  res_gameState : GameState;       (* gameState *)
  valid : bool;
  extra : list Extra
}.

(** What a call of a move handler does: it returns, or it raises a
    [TypeError] ([Threw], with the state object as mutated so far).
    [Unmodelled] marks a call of a handler on a board that was not built by
    the initialiser of that handler's game; the embedding gives no meaning
    to it. *)
Inductive Outcome :=
| Returned (r : Result)
| Threw (gs : GameState)
| Unmodelled.

(** A handler's outcome and the timeout handles it passed to [clearTimeout]. *)
Definition Handled : Type := Outcome * list nat.

(** *** Field updates *)

Definition set_currentPlayer (gs : GameState) (v : string) : GameState :=
  {| currentPlayer := v; gameType := gameType gs; board := board gs;
     winner := winner gs; gameOver := gameOver gs; players := players gs;
     timer := timer gs; timerStarted := timerStarted gs;
     firstMoveMade := firstMoveMade gs; phase := phase gs; draw := draw gs;
     timeLeft := timeLeft gs |}.

Definition set_board (gs : GameState) (v : Board) : GameState :=
  {| currentPlayer := currentPlayer gs; gameType := gameType gs; board := v;
     winner := winner gs; gameOver := gameOver gs; players := players gs;
     timer := timer gs; timerStarted := timerStarted gs;
     firstMoveMade := firstMoveMade gs; phase := phase gs; draw := draw gs;
     timeLeft := timeLeft gs |}.

Definition set_winner (gs : GameState) (v : option string) : GameState :=
  {| currentPlayer := currentPlayer gs; gameType := gameType gs; board := board gs;
     winner := v; gameOver := gameOver gs; players := players gs;
     timer := timer gs; timerStarted := timerStarted gs;
     firstMoveMade := firstMoveMade gs; phase := phase gs; draw := draw gs;
     timeLeft := timeLeft gs |}.

Definition set_gameOver (gs : GameState) (v : bool) : GameState :=
  {| currentPlayer := currentPlayer gs; gameType := gameType gs; board := board gs;
     winner := winner gs; gameOver := v; players := players gs;
     timer := timer gs; timerStarted := timerStarted gs;
     firstMoveMade := firstMoveMade gs; phase := phase gs; draw := draw gs;
     timeLeft := timeLeft gs |}.

Definition set_players (gs : GameState) (v : list Player) : GameState :=
  {| currentPlayer := currentPlayer gs; gameType := gameType gs; board := board gs;
     winner := winner gs; gameOver := gameOver gs; players := v;
     timer := timer gs; timerStarted := timerStarted gs;
     firstMoveMade := firstMoveMade gs; phase := phase gs; draw := draw gs;
     timeLeft := timeLeft gs |}.

Definition set_timer (gs : GameState) (v : option nat) : GameState :=
  {| currentPlayer := currentPlayer gs; gameType := gameType gs; board := board gs;
     winner := winner gs; gameOver := gameOver gs; players := players gs;
     timer := v; timerStarted := timerStarted gs;
     firstMoveMade := firstMoveMade gs; phase := phase gs; draw := draw gs;
     timeLeft := timeLeft gs |}.

Definition set_timerStarted (gs : GameState) (v : bool) : GameState :=
  {| currentPlayer := currentPlayer gs; gameType := gameType gs; board := board gs;
     winner := winner gs; gameOver := gameOver gs; players := players gs;
     timer := timer gs; timerStarted := v;
     firstMoveMade := firstMoveMade gs; phase := phase gs; draw := draw gs;
     timeLeft := timeLeft gs |}.

Definition set_firstMoveMade (gs : GameState) (v : bool) : GameState :=
  {| currentPlayer := currentPlayer gs; gameType := gameType gs; board := board gs;
     winner := winner gs; gameOver := gameOver gs; players := players gs;
     timer := timer gs; timerStarted := timerStarted gs;
     firstMoveMade := v; phase := phase gs; draw := draw gs;
     timeLeft := timeLeft gs |}.

Definition set_phase (gs : GameState) (v : option string) : GameState :=
  {| currentPlayer := currentPlayer gs; gameType := gameType gs; board := board gs;
     winner := winner gs; gameOver := gameOver gs; players := players gs;
     timer := timer gs; timerStarted := timerStarted gs;
     firstMoveMade := firstMoveMade gs; phase := v; draw := draw gs;
     timeLeft := timeLeft gs |}.

Definition set_draw (gs : GameState) (v : bool) : GameState :=
  {| currentPlayer := currentPlayer gs; gameType := gameType gs; board := board gs;
     winner := winner gs; gameOver := gameOver gs; players := players gs;
     timer := timer gs; timerStarted := timerStarted gs;
     firstMoveMade := firstMoveMade gs; phase := phase gs; draw := v;
     timeLeft := timeLeft gs |}.

Definition set_timeLeft (gs : GameState) (v : option Z) : GameState :=
  {| currentPlayer := currentPlayer gs; gameType := gameType gs; board := board gs;
     winner := winner gs; gameOver := gameOver gs; players := players gs;
     timer := timer gs; timerStarted := timerStarted gs;
     firstMoveMade := firstMoveMade gs; phase := phase gs; draw := draw gs;
     timeLeft := v |}.

(** ** Helpers shared by the handlers *)

(** [{ gameState, valid: false }] *)
Definition reject (gs : GameState) : Result :=
  {| res_gameState := gs; valid := false; extra := [] |}.

(** [{ gameState, valid: true, ...extra }] *)
Definition accept (gs : GameState) (ex : list Extra) : Result :=
  {| res_gameState := gs; valid := true; extra := ex |}.

Fixpoint findIndexFrom (ps : list Player) (playerId : string) (i : Z) : Z :=
  match ps with
  | [] => -1
  | p :: ps' =>
      if String.eqb (p_id p) playerId then i else findIndexFrom ps' playerId (i + 1)
  end.

(** [players.findIndex(p => p.id === playerId)] *)
Definition findIndex (ps : list Player) (playerId : string) : Z :=
  findIndexFrom ps playerId 0.

(** [players[1 - players.findIndex(p => p.id === playerId)].id];
    [None] when that element is [undefined] (a [TypeError] in the source). *)
Definition otherPlayer (ps : list Player) (playerId : string) : option string :=
  p_id <$> at_ ps (1 - findIndex ps playerId).

(** The "Clear existing timer" block. *)
Definition clearExistingTimer (gs : GameState) : GameState * list nat :=
  match timer gs with
  | Some h => (set_timer gs None, [h])
  | None => (gs, [])
  end.

(** The "Switch turns" block followed by [return { gameState, valid: true, ...ex }]. *)
Definition switchTurns (gs : GameState) (playerId : string) (ex : list Extra) : Outcome :=
  match otherPlayer (players gs) playerId with
  | Some o => Returned (accept (set_currentPlayer gs o) ex)
  | None => Threw gs
  end.

(** ** tictactoe *)

Definition winPatterns : list (list Z) :=
  [ [0;1;2]; [3;4;5]; [6;7;8];
    [0;3;6]; [1;4;7]; [2;5;8];
    [0;4;8]; [2;4;6] ].

(** [board[i] === symbol] on an array read *)
Definition slotIs (v : option Cell) (symbol : string) : bool :=
  match v with
  | Some c => cellIs c symbol
  | None => false
  end.

(** [board[i] !== null] on an array read: [undefined] is not [null]. *)
Definition slotNotNull (v : option Cell) : bool :=
  match v with
  | Some None => false
  | _ => true
  end.

Definition processTicTacToeMove (gs : GameState) (move : Move) (playerId : string) : Handled :=
  if negb (String.eqb (currentPlayer gs) playerId) then (Returned (reject gs), [])
  else
    match board gs with
    | TicTacToeBoard cells =>
        if slotNotNull (at_ cells (mv_index move)) || gameOver gs
        then (Returned (reject gs), [])
        else
          let '(gs1, cl) := clearExistingTimer gs in
          let playerIndex := findIndex (players gs1) playerId in
          let symbol := if playerIndex =? 0 then "X" else "O" in
          let cells' := put cells (mv_index move) (Some symbol) in
          let gs2 := set_firstMoveMade (set_board gs1 (TicTacToeBoard cells')) true in
          if existsb (forallb (fun i => slotIs (at_ cells' i) symbol)) winPatterns
          then (Returned (accept (set_gameOver (set_winner gs2 (Some playerId)) true)
                                 [x_winner (Some playerId)]), cl)
          else if forallb (fun c => negb (isNull c)) cells'
          then (Returned (accept (set_gameOver gs2 true) [x_draw true]), cl)
          else (switchTurns gs2 playerId [], cl)
    | _ => (Unmodelled, [])
    end.

(** ** connect4 and gomoku: runs of equal symbols *)

(** One of the two inner [for (let i = 1; i < n; i++)] loops of
    [checkConnect4Winner], [checkGomokuWinner] and [findWinningLine]: the
    number of cells counted from step [i] on, [fuel] iterations being left.
    [None] is a [TypeError] ([board[newRow]] undefined). *)
Fixpoint run (g : list (list Cell)) (nrows ncols : Z) (symbol : string)
    (row col dr dc : Z) (i : Z) (fuel : nat) : option Z :=
  match fuel with
  | O => Some 0
  | S fuel' =>
      let newRow := row + dr * i in
      let newCol := col + dc * i in
      if (0 <=? newRow) && (newRow <? nrows) && (0 <=? newCol) && (newCol <? ncols)
      then
        match at2 g newRow newCol with
        | TypeError => None
        | Value c =>
            if cellIs c symbol
            then Z.succ <$> run g nrows ncols symbol row col dr dc (i + 1) fuel'
            else Some 0
        | Undefined => Some 0
        end
      else Some 0
  end.

Definition directions : list (Z * Z) := [ (0, 1); (1, 0); (1, 1); (1, -1) ].

(** The outer [for (const [dr, dc] of directions)] loop: [need] in a row. *)
Fixpoint checkWinner (g : list (list Cell)) (nrows ncols : Z) (need : nat)
    (row col : Z) (symbol : string) (dirs : list (Z * Z)) : option bool :=
  match dirs with
  | [] => Some false
  | (dr, dc) :: dirs' =>
      match run g nrows ncols symbol row col dr dc 1 (need - 1) with
      | None => None
      | Some fwd =>
          match run g nrows ncols symbol row col (- dr) (- dc) 1 (need - 1) with
          | None => None
          | Some bwd =>
              if Z.of_nat need <=? 1 + fwd + bwd then Some true
              else checkWinner g nrows ncols need row col symbol dirs'
          end
      end
  end.

Definition checkConnect4Winner (g : list (list Cell)) (row col : Z) (symbol : string) : option bool :=
  checkWinner g 6 7 4 row col symbol directions.

Definition checkGomokuWinner (g : list (list Cell)) (row col : Z) (symbol : string) : option bool :=
  checkWinner g 15 15 5 row col symbol directions.

(** [for (let r = 5; r >= 0; r--) if (board[r][col] === null) { row = r; break; }]
    over the rows [rs]; [None] is a [TypeError], [Some (-1)] a full column. *)
Fixpoint lowestEmptyRow (g : list (list Cell)) (col : Z) (rs : list Z) : option Z :=
  match rs with
  | [] => Some (-1)
  | r :: rs' =>
      match at2 g r col with
      | TypeError => None
      | Value None => Some r
      | _ => lowestEmptyRow g col rs'
      end
  end.

Definition processConnect4Move (gs : GameState) (move : Move) (playerId : string) : Handled :=
  if negb (String.eqb (currentPlayer gs) playerId) then (Returned (reject gs), [])
  else
    match board gs with
    | Connect4Board g =>
        let col := mv_column move in
        let playerIndex := findIndex (players gs) playerId in
        let symbol := if playerIndex =? 0 then "R" else "Y" in
        match lowestEmptyRow g col [5;4;3;2;1;0] with
        | None => (Threw gs, [])
        | Some row =>
            if row =? -1 then (Returned (reject gs), [])
            else
              let g' := put2 g row col (Some symbol) in
              let gs1 := set_board gs (Connect4Board g') in
              match checkConnect4Winner g' row col symbol with
              | None => (Threw gs1, [])
              | Some true =>
                  (Returned (accept (set_gameOver (set_winner gs1 (Some playerId)) true)
                                    [x_winner (Some playerId)]), [])
              | Some false => (switchTurns gs1 playerId [], [])
              end
        end
    | _ => (Unmodelled, [])
    end.

(** ** gomoku *)

(** [findWinningLine]: the placed cell, the cells found forwards pushed
    behind it and those found backwards unshifted in front; the first five. *)
Fixpoint findWinningLine (g : list (list Cell)) (row col : Z) (symbol : string)
    (dirs : list (Z * Z)) : option (list (Z * Z)) :=
  match dirs with
  | [] => Some []
  | (dr, dc) :: dirs' =>
      match run g 15 15 symbol row col dr dc 1 4 with
      | None => None
      | Some fwd =>
          match run g 15 15 symbol row col (- dr) (- dc) 1 4 with
          | None => None
          | Some bwd =>
              let ahead := (fun i => (row + dr * i, col + dc * i)) <$> seqZ 1 fwd in
              let behind := (fun i => (row - dr * i, col - dc * i)) <$> reverse (seqZ 1 bwd) in
              let line := (behind ++ (row, col) :: ahead)%list in
              if 5 <=? Z.of_nat (length line) then Some (take 5 line)
              else findWinningLine g row col symbol dirs'
          end
      end
  end.

Definition processGomokuMove (gs : GameState) (move : Move) (playerId : string) : Handled :=
  if negb (String.eqb (currentPlayer gs) playerId) || gameOver gs
  then (Returned (reject gs), [])
  else
    match board gs with
    | GomokuBoard g =>
        let '(gs1, cl) := clearExistingTimer gs in
        let row := mv_index move / 15 in            (* Math.floor(move.index / 15) *)
        let col := Z.rem (mv_index move) 15 in      (* move.index % 15 *)
        match at2 g row col with
        | TypeError => (Threw gs1, cl)
        | Value None =>
            let playerIndex := findIndex (players gs1) playerId in
            let symbol := if playerIndex =? 0 then "●" else "○" in
            let g' := put2 g row col (Some symbol) in
            let gs2 := set_firstMoveMade (set_board gs1 (GomokuBoard g')) true in
            match checkGomokuWinner g' row col symbol with
            | None => (Threw gs2, cl)
            | Some true =>
                let gs3 := set_gameOver (set_winner gs2 (Some playerId)) true in
                match findWinningLine g' row col symbol directions with
                | None => (Threw gs3, cl)
                | Some line =>
                    (Returned (accept gs3 [x_winner (Some playerId); x_winningLine line]), cl)
                end
            | Some false =>
                if forallb (forallb (fun c => negb (isNull c))) g'
                then (Returned (accept (set_gameOver gs2 true) [x_draw true]), cl)
                else (switchTurns gs2 playerId [], cl)
            end
        | _ => (Returned (reject gs1), cl)
        end
    | _ => (Unmodelled, [])
    end.

(** ** dotsandboxes *)

(** [row >= 0 && row < lines.length && col >= 0 && col < lines[row].length
     && !lines[row][col]] *)
Definition canPlace (lines : list (list bool)) (row col : Z) : bool :=
  (0 <=? row) && (row <? Z.of_nat (length lines)) &&
  match at_ lines row with
  | Some line =>
      (0 <=? col) && (col <? Z.of_nat (length line)) &&
      match at_ line col with
      | Some b => negb b
      | None => true
      end
  | None => false
  end.

(** An edge read by [checkCompletedBoxes]: [undefined] counts as absent,
    [None] is a [TypeError]. *)
Definition edge (lines : list (list bool)) (r c : Z) : option bool :=
  match at2 lines r c with
  | TypeError => None
  | Undefined => Some false
  | Value b => Some b
  end.

Definition boxCoords : list (Z * Z) :=
  [ (0,0); (0,1); (0,2); (1,0); (1,1); (1,2); (2,0); (2,1); (2,2) ].

(** The double loop of [checkCompletedBoxes] over the boxes [coords] still to
    visit; [bx] is [gameState.board.boxes] as claimed so far.  The second
    component is [None] when a [TypeError] interrupts the loop. *)
Fixpoint checkCompletedBoxes (b : DotsBoard) (playerSymbol : string)
    (bx : list (list Cell)) (coords : list (Z * Z))
    : list (list Cell) * option (list (Z * Z)) :=
  match coords with
  | [] => (bx, Some [])
  | (row, col) :: rest =>
      match at2 bx row col with
      | TypeError => (bx, None)
      | Value None =>
          match edge (horizontalLines b) row col, edge (horizontalLines b) (row + 1) col,
                edge (verticalLines b) row col, edge (verticalLines b) row (col + 1) with
          | Some topLine, Some bottomLine, Some leftLine, Some rightLine =>
              if topLine && bottomLine && leftLine && rightLine
              then
                let '(bx', done) :=
                  checkCompletedBoxes b playerSymbol (put2 bx row col (Some playerSymbol)) rest in
                (bx', cons (row, col) <$> done)
              else checkCompletedBoxes b playerSymbol bx rest
          | _, _, _, _ => (bx, None)
          end
      | _ => checkCompletedBoxes b playerSymbol bx rest
      end
  end.

Definition set_horizontalLines (b : DotsBoard) (v : list (list bool)) : DotsBoard :=
  {| gridSize := gridSize b; horizontalLines := v; verticalLines := verticalLines b;
     boxes := boxes b; score1 := score1 b; score2 := score2 b;
     completedBoxes := completedBoxes b; totalBoxes := totalBoxes b |}.

Definition set_verticalLines (b : DotsBoard) (v : list (list bool)) : DotsBoard :=
  {| gridSize := gridSize b; horizontalLines := horizontalLines b; verticalLines := v;
     boxes := boxes b; score1 := score1 b; score2 := score2 b;
     completedBoxes := completedBoxes b; totalBoxes := totalBoxes b |}.

Definition set_boxes (b : DotsBoard) (v : list (list Cell)) : DotsBoard :=
  {| gridSize := gridSize b; horizontalLines := horizontalLines b;
     verticalLines := verticalLines b;
     boxes := v; score1 := score1 b; score2 := score2 b;
     completedBoxes := completedBoxes b; totalBoxes := totalBoxes b |}.

(** [scores[playerKey] += n; completedBoxes += n] with
    [playerKey = playerIndex === 0 ? 'player1' : 'player2'] *)
Definition creditBoxes (b : DotsBoard) (playerIndex n : Z) : DotsBoard :=
  {| gridSize := gridSize b; horizontalLines := horizontalLines b;
     verticalLines := verticalLines b; boxes := boxes b;
     score1 := if playerIndex =? 0 then score1 b + n else score1 b;
     score2 := if playerIndex =? 0 then score2 b else score2 b + n;
     completedBoxes := completedBoxes b + n; totalBoxes := totalBoxes b |}.

(** The "Check if game is over" block and the final [return]. *)
Definition finishDots (gs : GameState) (b : DotsBoard) (done : list (Z * Z)) : Outcome :=
  let ret (gs' : GameState) :=
    Returned (accept gs' [x_completedBoxes done; x_boxesCompleted (0 <? Z.of_nat (length done));
                          x_winner (winner gs'); x_draw (draw gs')]) in
  if totalBoxes b <=? completedBoxes b then
    let gs1 := set_gameOver gs true in
    if score2 b <? score1 b then
      match at_ (players gs1) 0 with
      | Some p => ret (set_winner gs1 (Some (p_id p)))
      | None => Threw gs1
      end
    else if score1 b <? score2 b then
      match at_ (players gs1) 1 with
      | Some p => ret (set_winner gs1 (Some (p_id p)))
      | None => Threw gs1
      end
    else ret (set_draw gs1 true)
  else ret gs.

Definition processDotsAndBoxesMove (gs : GameState) (move : Move) (playerId : string) : Handled :=
  if negb (String.eqb (currentPlayer gs) playerId) || gameOver gs
  then (Returned (reject gs), [])
  else
    match board gs with
    | DotsAndBoxesBoard b =>
        let '(gs1, cl) := clearExistingTimer gs in
        let row := mv_row move in
        let col := mv_col move in
        let placed : option DotsBoard :=
          if String.eqb (mv_type move) "horizontal" then
            if canPlace (horizontalLines b) row col
            then Some (set_horizontalLines b (put2 (horizontalLines b) row col true))
            else None
          else if String.eqb (mv_type move) "vertical" then
            if canPlace (verticalLines b) row col
            then Some (set_verticalLines b (put2 (verticalLines b) row col true))
            else None
          else None in
        match placed with
        | None => (Returned (reject gs1), cl)
        | Some b1 =>
            let gs2 := set_firstMoveMade (set_board gs1 (DotsAndBoxesBoard b1)) true in
            let playerIndex := findIndex (players gs2) playerId in
            let playerSymbol := if playerIndex =? 0 then "P1" else "P2" in
            match checkCompletedBoxes b1 playerSymbol (boxes b1) boxCoords with
            | (bx, None) => (Threw (set_board gs2 (DotsAndBoxesBoard (set_boxes b1 bx))), cl)
            | (bx, Some done) =>
                let b2 := set_boxes b1 bx in
                let gs3 := set_board gs2 (DotsAndBoxesBoard b2) in
                if 0 <? Z.of_nat (length done) then
                  let b3 := creditBoxes b2 playerIndex (Z.of_nat (length done)) in
                  (finishDots (set_board gs3 (DotsAndBoxesBoard b3)) b3 done, cl)
                else
                  match otherPlayer (players gs3) playerId with
                  | Some o => (finishDots (set_currentPlayer gs3 o) b2 done, cl)
                  | None => (Threw gs3, cl)
                  end
            end
        end
    | _ => (Unmodelled, [])
    end.

(** ** ludo *)

Inductive PlayerKey := player1 | player2.

(** [playerIndex === 0 ? 'player1' : 'player2'] *)
Definition playerKeyOf (playerIndex : Z) : PlayerKey :=
  if playerIndex =? 0 then player1 else player2.

(** [board.players[playerKey]] *)
Definition ludoPlayer (b : LudoBoard) (k : PlayerKey) : LudoPlayer :=
  match k with
  | player1 => ludo1 b
  | player2 => ludo2 b
  end.

Definition set_ludoPlayer (b : LudoBoard) (k : PlayerKey) (v : LudoPlayer) : LudoBoard :=
  {| ludo1 := match k with player1 => v | player2 => ludo1 b end;
     ludo2 := match k with player1 => ludo2 b | player2 => v end;
     diceValue := diceValue b; diceRolled := diceRolled b; ludoWinner := ludoWinner b |}.

Definition set_dice (b : LudoBoard) (v : Z) (rolled : bool) : LudoBoard :=
  {| ludo1 := ludo1 b; ludo2 := ludo2 b;
     diceValue := v; diceRolled := rolled; ludoWinner := ludoWinner b |}.

(** The loop returns [true] at the first piece that can start with a 6 or
    advance without passing 57. *)
Definition canPlayerMove (b : LudoBoard) (playerKey : PlayerKey) (dice : Z) : bool :=
  existsb (fun currentPosition =>
             ((currentPosition =? 0) && (dice =? 6)) ||
             ((0 <? currentPosition) && (currentPosition + dice <=? 57)))
          (pieces (ludoPlayer b playerKey)).

(** [rolled] is the value of [Math.floor(Math.random() * 6) + 1]. *)
Definition processLudoMove (gs : GameState) (move : Move) (playerId : string) (rolled : Z)
    : Handled :=
  if negb (String.eqb (currentPlayer gs) playerId) || gameOver gs
  then (Returned (reject gs), [])
  else
    match board gs with
    | LudoBoardOf b =>
        let '(gs1, cl) := clearExistingTimer gs in
        let pieceIndex := mv_pieceIndex move in
        let playerIndex := findIndex (players gs1) playerId in
        let playerKey := playerKeyOf playerIndex in
        if String.eqb (mv_action move) "rollDice" then
          let b1 := set_dice b rolled true in
          let gs2 := set_firstMoveMade (set_board gs1 (LudoBoardOf b1)) true in
          if canPlayerMove b1 playerKey (diceValue b1)
          then (Returned (accept gs2 []), cl)
          else
            let gs3 := set_board gs2 (LudoBoardOf (set_dice b1 (diceValue b1) false)) in
            (switchTurns gs3 playerId [], cl)
        else if String.eqb (mv_action move) "movePiece" && diceRolled b then
          let ps := pieces (ludoPlayer b playerKey) in
          match at_ ps pieceIndex with
          | None => (Returned (reject gs1), cl)       (* pieceIndex out of range *)
          | Some currentPosition =>
              if (currentPosition =? 0) && negb (diceValue b =? 6)
              then (Returned (reject gs1), cl)
              else
                let newPosition :=
                  if (currentPosition =? 0) && (diceValue b =? 6) then 1
                  else currentPosition + diceValue b in
                let finished := 57 <=? newPosition in
                let newPosition := if finished then 57 else newPosition in
                let home' := if finished then home (ludoPlayer b playerKey) + 1
                             else home (ludoPlayer b playerKey) in
                let b1 := set_dice (set_ludoPlayer b playerKey
                                      {| pieces := put ps pieceIndex newPosition;
                                         home := home' |})
                                   (diceValue b) false in
                let gs2 := set_board gs1 (LudoBoardOf b1) in
                if 2 <=? home' then
                  (Returned (accept (set_gameOver (set_winner gs2 (Some playerId)) true)
                                    [x_winner (Some playerId)]), cl)
                else if negb (diceValue b =? 6) then (switchTurns gs2 playerId [], cl)
                else (Returned (accept gs2 []), cl)
          end
        else (Returned (reject gs1), cl)
    | _ => (Unmodelled, [])
    end.

(** ** minichess *)

(** [piece === piece.toUpperCase()] *)
Definition isWhite (piece : string) : bool := String.eqb piece (toUpperCase piece).

(** The [while (currentRow !== toRow || currentCol !== toCol)] loop of
    [isPathClear].  It is entered on a rank or a file only, where it ends
    after at most the distance between the two squares; [fuel] is that
    bound.  [None] is a [TypeError]. *)
Fixpoint pathLoop (g : list (list Cell)) (toRow toCol stepRow stepCol : Z)
    (currentRow currentCol : Z) (fuel : nat) : option bool :=
  if (currentRow =? toRow) && (currentCol =? toCol) then Some true
  else
    match fuel with
    | O => None
    | S fuel' =>
        match at2 g currentRow currentCol with
        | TypeError => None
        | Value None =>
            pathLoop g toRow toCol stepRow stepCol
                     (currentRow + stepRow) (currentCol + stepCol) fuel'
        | _ => Some false
        end
    end.

Definition isPathClear (g : list (list Cell)) (fromRow fromCol toRow toCol : Z) : option bool :=
  let deltaRow := toRow - fromRow in
  let deltaCol := toCol - fromCol in
  let stepRow := Z.sgn deltaRow in      (* deltaRow === 0 ? 0 : deltaRow / Math.abs(deltaRow) *)
  let stepCol := Z.sgn deltaCol in
  pathLoop g toRow toCol stepRow stepCol (fromRow + stepRow) (fromCol + stepCol)
           (Z.to_nat (Z.abs deltaRow + Z.abs deltaCol)).

(** A value read from the board, as a cell: [undefined] is as falsy as [null]. *)
Definition cellOf (r : Read Cell) : Cell :=
  match r with
  | Value c => c
  | _ => None
  end.

(** [None] is a [TypeError]: no piece on the origin square, or a row of the
    board missing. *)
Definition isValidChessMove (g : list (list Cell)) (fromRow fromCol toRow toCol : Z)
    : option bool :=
  match at2 g fromRow fromCol with
  | Value (Some origin) =>
      let piece := toLowerCase origin in
      let deltaRow := toRow - fromRow in
      let deltaCol := toCol - fromCol in
      match at2 g toRow toCol with
      | TypeError => None
      | target =>
          let targetPiece := cellOf target in
          let isPieceWhite := isWhite origin in
          if truthy targetPiece &&
             Bool.eqb isPieceWhite (isWhite (default "" targetPiece))
          then Some false                                  (* can't capture own piece *)
          else if String.eqb piece "p" then
            let direction := if isPieceWhite then 1 else -1 in
            if (deltaCol =? 0) && negb (truthy targetPiece) then Some (deltaRow =? direction)
            else if (Z.abs deltaCol =? 1) && truthy targetPiece then Some (deltaRow =? direction)
            else Some false
          else if String.eqb piece "r" then
            if (deltaRow =? 0) || (deltaCol =? 0)
            then isPathClear g fromRow fromCol toRow toCol
            else Some false
          else if String.eqb piece "n" then
            Some (((Z.abs deltaRow =? 2) && (Z.abs deltaCol =? 1)) ||
                  ((Z.abs deltaRow =? 1) && (Z.abs deltaCol =? 2)))
          else if String.eqb piece "k" then
            Some ((Z.abs deltaRow <=? 1) && (Z.abs deltaCol <=? 1))
          else Some false
      end
  | _ => None
  end.

(** [getValidMoves], the helper behind [POST /api/valid-moves]; [None] is a
    [TypeError]. *)
Definition getValidMoves (g : list (list Cell)) (row col : Z) : option (list (Z * Z)) :=
  match at2 g row col with
  | TypeError => None
  | piece =>
      if negb (truthy (cellOf piece)) then Some []
      else
        foldr (fun '(toRow, toCol) (acc : option (list (Z * Z))) =>
                 if (toRow =? row) && (toCol =? col) then acc
                 else
                   match isValidChessMove g row col toRow toCol, acc with
                   | Some true, Some l => Some ((toRow, toCol) :: l)
                   | Some false, Some l => Some l
                   | _, _ => None
                   end)
              (Some [])
              (toRow ← seqZ 0 5; toCol ← seqZ 0 5; [(toRow, toCol)])
  end.

Definition processMiniChessMove (gs : GameState) (move : Move) (playerId : string) : Handled :=
  if negb (String.eqb (currentPlayer gs) playerId) || gameOver gs
  then (Returned (reject gs), [])
  else
    match board gs with
    | MiniChessBoard g =>
        let '(gs1, cl) := clearExistingTimer gs in
        let fromRow := mv_fromRow move in
        let fromCol := mv_fromCol move in
        let toRow := mv_toRow move in
        let toCol := mv_toCol move in
        if (fromRow <? 0) || (5 <=? fromRow) || (fromCol <? 0) || (5 <=? fromCol) ||
           (toRow <? 0) || (5 <=? toRow) || (toCol <? 0) || (5 <=? toCol)
        then (Returned (reject gs1), cl)
        else
          match at2 g fromRow fromCol, at2 g toRow toCol with
          | TypeError, _ | _, TypeError => (Threw gs1, cl)
          | origin, target =>
              match cellOf origin with
              | None => (Returned (reject gs1), cl)
              | Some piece =>
                  if String.eqb piece "" then (Returned (reject gs1), cl)
                  else
                    let playerIndex := findIndex (players gs1) playerId in
                    let isWhitePlayer := playerIndex =? 0 in
                    if negb (Bool.eqb isWhitePlayer (isWhite piece))
                    then (Returned (reject gs1), cl)
                    else
                      match isValidChessMove g fromRow fromCol toRow toCol with
                      | None => (Threw gs1, cl)
                      | Some false => (Returned (reject gs1), cl)
                      | Some true =>
                          match target with
                          | Value targetPiece =>
                              let g' := put2 (put2 g toRow toCol (Some piece)) fromRow fromCol None in
                              let gs2 := set_board (set_firstMoveMade gs1 true) (MiniChessBoard g') in
                              if truthy targetPiece &&
                                 String.eqb (toLowerCase (default "" targetPiece)) "k"
                              then (Returned (accept (set_gameOver (set_winner gs2 (Some playerId)) true)
                                                     [x_winner (Some playerId)]), cl)
                              else (switchTurns gs2 playerId [], cl)
                          | _ => (Unmodelled, cl)     (* a row shorter than five squares *)
                          end
                      end
              end
          end
    | _ => (Unmodelled, [])
    end.

(** ** memorymatch *)

(** [`player${playerIndex + 1}`] *)
Definition scoreKey (playerIndex : Z) : string := "player" +:+ pretty (playerIndex + 1).

(** [if (!scores[k]) scores[k] = 0; scores[k]++] *)
Definition addPoint (scores : gmap string Z) (k : string) : gmap string Z :=
  <[k := default 0 (scores !! k) + 1]> scores.

(** [scores.player1 || 0] *)
Definition scoreOf (scores : gmap string Z) (k : string) : Z := default 0 (scores !! k).

Definition set_matched (c : Card) : Card :=
  {| value := value c; flipped := flipped c; matched := true |}.

Definition set_flipped (c : Card) : Card :=
  {| value := value c; flipped := true; matched := matched c |}.

(** The block that names the winner by score, shared in shape by
    memorymatch and minesweeper. *)
Definition decideByScore (gs : GameState) (scores : gmap string Z) : option GameState :=
  let player1Score := scoreOf scores "player1" in
  let player2Score := scoreOf scores "player2" in
  if player2Score <? player1Score then
    (fun p => set_winner gs (Some (p_id p))) <$> at_ (players gs) 0
  else if player1Score <? player2Score then
    (fun p => set_winner gs (Some (p_id p))) <$> at_ (players gs) 1
  else Some (set_draw gs true).

Definition processMemoryMatchMove (gs : GameState) (move : Move) (playerId : string) : Handled :=
  if negb (String.eqb (currentPlayer gs) playerId) || gameOver gs
  then (Returned (reject gs), [])
  else
    match board gs with
    | MemoryMatchBoard b =>
        let '(gs1, cl) := clearExistingTimer gs in
        let cardIndex := mv_cardIndex move in
        match at_ (cards b) cardIndex with
        | None => (Returned (reject gs1), cl)
        | Some card =>
            if flipped card || matched card then (Returned (reject gs1), cl)
            else
              let cards1 := put (cards b) cardIndex (set_flipped card) in
              let flipped1 := (flippedCards b ++ [cardIndex])%list in
              let withBoard (g : GameState) cs fl sc :=
                set_board g (MemoryMatchBoard {| cards := cs; flippedCards := fl; mm_scores := sc |}) in
              let gs2 := withBoard (set_firstMoveMade gs1 true) cards1 flipped1 (mm_scores b) in
              match flipped1 with
              | [firstIndex; secondIndex] =>
                  match at_ cards1 firstIndex, at_ cards1 secondIndex with
                  | Some firstCard, Some secondCard =>
                      if value firstCard =? value secondCard then
                        let cards2 := put cards1 firstIndex (set_matched firstCard) in
                        let cards3 :=
                          put cards2 secondIndex
                              (set_matched (default secondCard (at_ cards2 secondIndex))) in
                        let playerIndex := findIndex (players gs2) playerId in
                        let scores' := addPoint (mm_scores b) (scoreKey playerIndex) in
                        let gs3 := withBoard gs2 cards3 [] scores' in
                        if forallb matched cards3 then
                          match decideByScore (set_gameOver gs3 true) scores' with
                          | Some gs4 => (Returned (accept gs4 [x_matched]), cl)
                          | None => (Threw (set_gameOver gs3 true), cl)
                          end
                        else (Returned (accept gs3 [x_matched]), cl)
                      else (Returned (accept gs2 [x_noMatch]), cl)
                  | _, _ => (Threw gs2, cl)
                  end
              | _ => (Returned (accept gs2 []), cl)
              end
        end
    | _ => (Unmodelled, [])
    end.

(** ** minesweeper *)

Definition neighbours : list (Z * Z) :=
  [ (-1,-1); (-1,0); (-1,1); (0,-1); (0,1); (1,-1); (1,0); (1,1) ].

(** [None] is a [TypeError]: a neighbour inside the 8 x 8 bounds that the
    board does not hold. *)
Fixpoint calculateNeighborMines (g : list (list Mine)) (row col : Z) (ds : list (Z * Z))
    : option Z :=
  match ds with
  | [] => Some 0
  | (dr, dc) :: ds' =>
      let newRow := row + dr in
      let newCol := col + dc in
      if (0 <=? newRow) && (newRow <? 8) && (0 <=? newCol) && (newCol <? 8) then
        match at2 g newRow newCol with
        | Value m =>
            (fun n => if isMine m then n + 1 else n) <$> calculateNeighborMines g row col ds'
        | _ => None
        end
      else calculateNeighborMines g row col ds'
  end.

Definition reveal (m : Mine) (playerId : string) : Mine :=
  {| isMine := isMine m; isRevealed := true; neighborCount := neighborCount m;
     revealedBy := Some playerId |}.

Definition set_neighborCount (m : Mine) (n : Z) : Mine :=
  {| isMine := isMine m; isRevealed := isRevealed m; neighborCount := n;
     revealedBy := revealedBy m |}.

Definition processMinesweeperMove (gs : GameState) (move : Move) (playerId : string) : Handled :=
  if negb (String.eqb (currentPlayer gs) playerId) || gameOver gs
  then (Returned (reject gs), [])
  else
    match board gs with
    | MinesweeperBoard b =>
        let '(gs1, cl) := clearExistingTimer gs in
        let row := mv_row move in
        let col := mv_col move in
        match at2 (ms_board b) row col with
        | Value cell =>
            if isRevealed cell then (Returned (reject gs1), cl)
            else
              let cell1 := reveal cell playerId in
              let g1 := put2 (ms_board b) row col cell1 in
              let withBoard (g : GameState) cs sc :=
                set_board g (MinesweeperBoard {| ms_board := cs; ms_scores := sc |}) in
              let gs2 := withBoard (set_firstMoveMade gs1 true) g1 (ms_scores b) in
              if isMine cell then
                let gs3 := set_gameOver gs2 true in
                match otherPlayer (players gs3) playerId with
                | Some o =>
                    (Returned (accept (set_winner gs3 (Some o)) [x_hitMine; x_winner (Some o)]), cl)
                | None => (Threw gs3, cl)
                end
              else
                match calculateNeighborMines g1 row col neighbours with
                | None => (Threw gs2, cl)
                | Some n =>
                    let g2 := put2 g1 row col (set_neighborCount cell1 n) in
                    let playerIndex := findIndex (players gs2) playerId in
                    let scores' := addPoint (ms_scores b) (scoreKey playerIndex) in
                    let gs3 := withBoard gs2 g2 scores' in
                    let totalSafeCells := 64 - 10 in
                    let revealedSafeCells :=
                      Z.of_nat (length (List.filter (fun c => isRevealed c && negb (isMine c))
                                                    (concat g2))) in
                    if revealedSafeCells =? totalSafeCells then
                      match decideByScore (set_gameOver gs3 true) scores' with
                      | Some gs4 => (Returned (accept gs4 []), cl)
                      | None => (Threw (set_gameOver gs3 true), cl)
                      end
                    else (switchTurns gs3 playerId [], cl)
                end
        | _ => (Threw gs1, cl)       (* board[row] or the cell is undefined *)
        end
    | _ => (Unmodelled, [])
    end.

(** ** checkers (the second, effective definition of [processCheckersMove]) *)

Definition opponentOf (playerColor : string) : string :=
  if String.eqb playerColor "red" then "black" else "red".

(** [None] is a [TypeError]. *)
Definition isValidCheckersMove (g : list (list Cell)) (fromRow fromCol toRow toCol : Z)
    (playerColor : string) : option bool :=
  let deltaRow := toRow - fromRow in
  let deltaCol := Z.abs (toCol - fromCol) in
  match at2 g fromRow fromCol with
  | TypeError => None
  | origin =>
      if negb (Z.abs deltaRow =? deltaCol) then Some false
      else
        match at2 g toRow toCol with
        | TypeError => None
        | Value None =>
            match cellOf origin with
            | None => None                     (* piece.includes on null or undefined *)
            | Some piece =>
                if negb (includes piece "king") &&
                   ((String.eqb playerColor "red" && (0 <? deltaRow)) ||
                    (String.eqb playerColor "black" && (deltaRow <? 0)))
                then Some false
                else if Z.abs deltaRow =? 1 then Some true
                else if Z.abs deltaRow =? 2 then
                  let midRow := fromRow + deltaRow / 2 in
                  let midCol := fromCol + (toCol - fromCol) / 2 in
                  match at2 g midRow midCol with
                  | TypeError => None
                  | mid =>
                      if negb (truthy (cellOf mid)) then Some false
                      else Some (includes (default "" (cellOf mid)) (opponentOf playerColor))
                  end
                else Some false
            end
        | _ => Some false                      (* target !== null *)
        end
  end.

(** [checkForCapture]: the board after the jumped piece is removed, and the
    returned [{row, col, piece}] or [null]. *)
Definition checkForCapture (g : list (list Cell)) (fromRow fromCol toRow toCol : Z)
    : option (list (list Cell) * option (Z * Z * Cell)) :=
  if Z.abs (toRow - fromRow) =? 2 then
    let midRow := fromRow + (toRow - fromRow) / 2 in
    let midCol := fromCol + (toCol - fromCol) / 2 in
    match at2 g midRow midCol with
    | TypeError => None
    | mid => Some (put2 g midRow midCol None, Some (midRow, midCol, cellOf mid))
    end
  else Some (g, None).

Definition processCheckersMove (gs : GameState) (move : Move) (playerId : string) : Handled :=
  if negb (String.eqb (currentPlayer gs) playerId) || gameOver gs
  then (Returned (reject gs), [])
  else
    match board gs with
    | CheckersBoard g =>
        let '(gs1, cl) := clearExistingTimer gs in
        let fromRow := mv_fromRow move in
        let fromCol := mv_fromCol move in
        let toRow := mv_toRow move in
        let toCol := mv_toCol move in
        match at2 g fromRow fromCol with
        | TypeError => (Threw gs1, cl)
        | origin =>
            if negb (truthy (cellOf origin)) then (Returned (reject gs1), cl)
            else
              let piece := default "" (cellOf origin) in
              let playerIndex := findIndex (players gs1) playerId in
              let playerColor := if playerIndex =? 0 then "red" else "black" in
              if negb (includes piece playerColor) then (Returned (reject gs1), cl)
              else
                match isValidCheckersMove g fromRow fromCol toRow toCol playerColor with
                | None => (Threw gs1, cl)
                | Some false => (Returned (reject gs1), cl)
                | Some true =>
                    let g1 := put2 (put2 g toRow toCol (Some piece)) fromRow fromCol None in
                    let gs2 := set_board (set_firstMoveMade gs1 true) (CheckersBoard g1) in
                    match checkForCapture g1 fromRow fromCol toRow toCol with
                    | None => (Threw gs2, cl)
                    | Some (g2, capturedPiece) =>
                        let g3 :=
                          if (String.eqb playerColor "red" && (toRow =? 0)) ||
                             (String.eqb playerColor "black" && (toRow =? 7))
                          then put2 g2 toRow toCol (Some (playerColor +:+ "-king"))
                          else g2 in
                        let gs3 := set_board gs2 (CheckersBoard g3) in
                        let opponentPieces :=
                          List.filter (fun c => truthy c &&
                                                includes (default "" c) (opponentOf playerColor))
                                      (concat g3) in
                        if (length opponentPieces =? 0)%nat then
                          (Returned (accept (set_gameOver (set_winner gs3 (Some playerId)) true)
                                            [x_winner (Some playerId)]), cl)
                        else (switchTurns gs3 playerId [x_captured capturedPiece], cl)
                    end
                end
        end
    | _ => (Unmodelled, [])
    end.

(** ** battleship (the second, effective definition of [processBattleshipMove]) *)

(** [ships.length === 5] and the ship sizes, sorted in decreasing order, are
    [[5, 4, 3, 3, 2]]. *)
Definition validateShipPlacement (ss : list Ship) : bool :=
  if negb (length ss =? 5)%nat then false
  else
    let expectedSizes := [5; 4; 3; 3; 2] in
    let sizes := merge_sort Z.ge ((fun s => Z.of_nat (length (positions s))) <$> ss) in
    bool_decide (sizes = expectedSizes).

Definition wasHit (shots' : list Cell) (pos : Z * Z) : bool :=
  slotIs (at_ shots' (fst pos * 10 + snd pos)) "hit".

(** [ships.find(ship => ship.positions.every(hit) && !ship.sunk)] *)
Definition checkForSunkShip (ss : list Ship) (shots' : list Cell) : option Ship :=
  List.find (fun s => forallb (wasHit shots') (positions s) && negb (sunk s)) ss.

Definition processBattleshipSetup (gs : GameState) (move : Move) (playerId : string) : Handled :=
  match board gs with
  | BattleshipBoard b =>
      match b !! playerId with
      | None => (Returned (reject gs), [])
      | Some playerBoard =>
          if negb (validateShipPlacement (mv_ships move)) then (Returned (reject gs), [])
          else
            let b1 := <[playerId := {| ships := mv_ships move; shots := shots playerBoard |}]> b in
            let gs1 := set_board gs (BattleshipBoard b1) in
            let allPlayersReady :=
              forallb (fun player =>
                         match b1 !! p_id player with
                         | Some pb => (0 <? length (ships pb))%nat
                         | None => false
                         end)
                      (players gs1) in
            let gs2 :=
              if allPlayersReady
              then set_firstMoveMade (set_phase gs1 (Some "playing")) true
              else gs1 in
            (Returned (accept gs2 [x_phase (phase gs2)]), [])
      end
  | _ => (Unmodelled, [])
  end.

Definition processBattleshipShot (gs : GameState) (move : Move) (playerId : string) : Handled :=
  if negb (String.eqb (currentPlayer gs) playerId) || gameOver gs
  then (Returned (reject gs), [])
  else
    match board gs with
    | BattleshipBoard b =>
        let '(gs1, cl) := clearExistingTimer gs in
        let row := mv_row move in
        let col := mv_col move in
        match otherPlayer (players gs1) playerId, b !! playerId with
        | Some opponentId, Some playerBoard =>
            let shotIndex := row * 10 + col in
            if slotNotNull (at_ (shots playerBoard) shotIndex) then (Returned (reject gs1), cl)
            else
              match b !! opponentId with
              | None => (Threw gs1, cl)
              | Some opponentBoard =>
                  let hit :=
                    existsb (fun s => existsb (fun pos => (fst pos =? row) && (snd pos =? col))
                                              (positions s))
                            (ships opponentBoard) in
                  let shots' := put (shots playerBoard) shotIndex
                                    (Some (if hit then "hit" else "miss")) in
                  let b1 := <[playerId := {| ships := ships playerBoard; shots := shots' |}]> b in
                  let gs2 := set_board gs1 (BattleshipBoard b1) in
                  let sunkShip := if hit then checkForSunkShip (ships opponentBoard) shots' else None in
                  if hit && forallb (fun s => forallb (wasHit shots') (positions s))
                                    (ships opponentBoard)
                  then
                    (Returned (accept (set_gameOver (set_winner gs2 (Some playerId)) true)
                                      [x_hit true; x_sunk sunkShip; x_winner (Some playerId)]), cl)
                  else
                    (Returned (accept (set_currentPlayer gs2 opponentId)
                                      [x_hit hit; x_sunk sunkShip]), cl)
              end
        | _, _ => (Threw gs1, cl)
        end
    | _ => (Unmodelled, [])
    end.

Definition processBattleshipMove (gs : GameState) (move : Move) (playerId : string) : Handled :=
  if bool_decide (phase gs = Some "setup")
  then processBattleshipSetup gs move playerId
  else processBattleshipShot gs move playerId.

(** ** Dispatch *)

(** The ten [case] labels of [processMove] and [initializeGameState]. *)
Inductive GameKind :=
| tictactoe | connect4 | checkers | battleship | gomoku
| dotsandboxes | ludo | minichess | memorymatch | minesweeper.

Definition gameKind (gameType : string) : option GameKind :=
  if String.eqb gameType "tictactoe" then Some tictactoe
  else if String.eqb gameType "connect4" then Some connect4
  else if String.eqb gameType "checkers" then Some checkers
  else if String.eqb gameType "battleship" then Some battleship
  else if String.eqb gameType "gomoku" then Some gomoku
  else if String.eqb gameType "dotsandboxes" then Some dotsandboxes
  else if String.eqb gameType "ludo" then Some ludo
  else if String.eqb gameType "minichess" then Some minichess
  else if String.eqb gameType "memorymatch" then Some memorymatch
  else if String.eqb gameType "minesweeper" then Some minesweeper
  else None.

(** [rolled] is the dice value drawn if the move is a ludo [rollDice]. *)
Definition processMove (gs : GameState) (move : Move) (playerId gameType : string)
    (rolled : Z) : Handled :=
  match gameKind gameType with
  | Some tictactoe => processTicTacToeMove gs move playerId
  | Some connect4 => processConnect4Move gs move playerId
  | Some checkers => processCheckersMove gs move playerId
  | Some battleship => processBattleshipMove gs move playerId
  | Some gomoku => processGomokuMove gs move playerId
  | Some dotsandboxes => processDotsAndBoxesMove gs move playerId
  | Some ludo => processLudoMove gs move playerId rolled
  | Some minichess => processMiniChessMove gs move playerId
  | Some memorymatch => processMemoryMatchMove gs move playerId
  | Some minesweeper => processMinesweeperMove gs move playerId
  | None => (Returned (reject gs), [])
  end.

(** ** Initial boards *)

Definition initializeCheckersBoard : list (list Cell) :=
  (fun row =>
     (fun col =>
        if (row + col) mod 2 =? 1 then
          if row <? 3 then Some "black"
          else if 5 <=? row then Some "red"
          else None
        else None) <$> seqZ 0 8) <$> seqZ 0 8.

Definition initializeDotsAndBoxes : DotsBoard :=
  {| gridSize := 4;
     horizontalLines := replicate 4 (replicate 3 false);
     verticalLines := replicate 3 (replicate 4 false);
     boxes := replicate 3 (replicate 3 None);
     score1 := 0; score2 := 0;
     completedBoxes := 0;
     totalBoxes := 9 |}.

Definition initializeLudo : LudoBoard :=
  {| ludo1 := {| pieces := [0; 0]; home := 0 |};
     ludo2 := {| pieces := [0; 0]; home := 0 |};
     diceValue := 0;
     diceRolled := false;
     ludoWinner := None |}.

Definition initializeMiniChess : list (list Cell) :=
  [ Some <$> ["r"; "n"; "k"; "n"; "r"];
    Some <$> ["p"; "p"; "p"; "p"; "p"];
    replicate 5 None;
    Some <$> ["P"; "P"; "P"; "P"; "P"];
    Some <$> ["R"; "N"; "K"; "N"; "R"] ].

(** The shuffle loop [for (let i = cards.length - 1; i > 0; i--)], [fuel]
    iterations from index [i] down.  Each element of [rnd] stands for one
    value of [Math.floor(Math.random() * (i + 1))] and is reduced modulo
    [i + 1]; a missing draw counts as 0. *)
Fixpoint shuffle (deck : list Z) (i : Z) (rnd : list Z) (fuel : nat) : list Z :=
  match fuel with
  | O => deck
  | S fuel' =>
      let j := hd 0 rnd mod (i + 1) in
      match at_ deck i, at_ deck j with
      | Some ci, Some cj => shuffle (put (put deck i cj) j ci) (i - 1) (tl rnd) fuel'
      | _, _ => deck
      end
  end.

Definition initializeMemoryMatch (rnd : list Z) : MemoryBoard :=
  let deck := i ← seqZ 1 8; [i; i] in
  {| cards := (fun v => {| value := v; flipped := false; matched := false |})
                <$> shuffle deck 15 rnd 15;
     flippedCards := [];
     mm_scores := {[ "player1" := 0; "player2" := 0 ]} |}.

(** The loop [while (minesPlaced < 10)]: [left] mines remain to be placed.
    Two draws give the row and the column, each reduced modulo 8.  [None]:
    the draws in [rnd] end before ten mines are placed. *)
Fixpoint placeMines (g : list (list Mine)) (left : nat) (rnd : list Z)
    : option (list (list Mine)) :=
  match left with
  | O => Some g
  | S left' =>
      match rnd with
      | r :: c :: rnd' =>
          let row := r mod 8 in
          let col := c mod 8 in
          match at2 g row col with
          | Value m =>
              if isMine m then placeMines g left rnd'
              else
                placeMines (put2 g row col {| isMine := true; isRevealed := isRevealed m;
                                              neighborCount := neighborCount m;
                                              revealedBy := revealedBy m |})
                           left' rnd'
          | _ => None
          end
      | _ => None
      end
  end.

(** ** The server *)

(** The [rooms] map.  [disconnect] iterates over it, so the entries keep the
    order of a JS [Map]: insertion order, a key set again keeps its place. *)
Fixpoint mget {V : Type} (m : list (string * V)) (k : string) : option V :=
  match m with
  | [] => None
  | (k', v) :: m' => if String.eqb k' k then Some v else mget m' k
  end.

Fixpoint mset {V : Type} (m : list (string * V)) (k : string) (v : V) : list (string * V) :=
  match m with
  | [] => [(k, v)]
  | (k', v') :: m' => if String.eqb k' k then (k, v) :: m' else (k', v') :: mset m' k v
  end.

(** A pending [setTimeout] of [startTurnTimer]: its callback clears the
    interval [to_countdown] and calls [skipTurn(to_room)]. *)
Record Timeout := {
  to_room : string;
  to_duration : Z;                 (* seconds *)
  to_countdown : nat
}.

(** [gameStates] is only ever read by key.  [timeouts] and [intervals] are the
    timers of the event loop that are still pending, by handle; an interval is
    recorded with the room it reports to.  The once-a-second callback of an
    interval only decrements [timeLeft] and emits [timerUpdate]; it is not
    part of the transitions below.  [sharedPlayers] holds the codes of the
    rooms whose [players] array is the very array held by the game state
    stored under the same code: [initializeGameState] makes them one,
    [createRoom] and the [filter] of [disconnect] give the room a new array. *)
Record Server := {
  rooms : list (string * Room);
  gameStates : gmap string GameState;
  timeouts : gmap nat Timeout;
  intervals : gmap nat string;
  nextHandle : nat;
  sharedPlayers : gset string
}.

Inductive Target :=
| ToSocket (socketId : string)     (* socket.emit *)
| ToRoom (roomCode : string).      (* io.to(roomCode).emit *)

Inductive Payload :=
| ev_roomCreated (roomCode : string) (isHost : bool)
| ev_playerJoined (ps : list Player) (roomCode : string)
| ev_roomJoined (roomCode : string) (isHost : bool)
| ev_error (message : string)
| ev_gameSelected (gameType : string)
| ev_gameUpdate (r : Result)
| ev_playerLeft (ps : list Player).

Inductive Event :=
| Join (socketId roomCode : string)             (* socket.join(roomCode) *)
| Emit (target : Target) (payload : Payload).

(** What handling one event does.  [Uncaught]: a [TypeError] leaves the
    handler.  [NoMeaning]: the embedding gives none ([Unmodelled] above, or
    the random draws supplied do not suffice). *)
Inductive Reply :=
| Done (s : Server) (out : list Event)
| Uncaught
| NoMeaning.

Definition emptyServer : Server :=
  {| rooms := []; gameStates := ∅; timeouts := ∅; intervals := ∅; nextHandle := 0;
     sharedPlayers := ∅ |}.

Definition set_rooms (s : Server) (v : list (string * Room)) : Server :=
  {| rooms := v; gameStates := gameStates s; timeouts := timeouts s;
     intervals := intervals s; nextHandle := nextHandle s;
     sharedPlayers := sharedPlayers s |}.

Definition set_gameStates (s : Server) (v : gmap string GameState) : Server :=
  {| rooms := rooms s; gameStates := v; timeouts := timeouts s;
     intervals := intervals s; nextHandle := nextHandle s;
     sharedPlayers := sharedPlayers s |}.

Definition set_timeouts (s : Server) (v : gmap nat Timeout) : Server :=
  {| rooms := rooms s; gameStates := gameStates s; timeouts := v;
     intervals := intervals s; nextHandle := nextHandle s;
     sharedPlayers := sharedPlayers s |}.

(** [clearTimeout(h)] for each handle of [hs] *)
Definition clearTimeouts (s : Server) (hs : list nat) : Server :=
  set_timeouts s (foldr delete (timeouts s) hs).

(** The per-move duration wired into the [if]/[else if] chain that follows a
    valid move in [makeMove] and into the identical chain of [skipTurn]. *)
Definition turnDuration (gameType : string) : option Z :=
  match gameKind gameType with
  | Some tictactoe => Some 4
  | Some dotsandboxes => Some 5
  | Some gomoku => Some 5
  | Some minichess => Some 10
  | Some ludo => Some 6
  | Some checkers => Some 5
  | Some minesweeper => Some 5
  | Some memorymatch => Some 5
  | Some battleship => Some 8
  | Some connect4 => None
  | None => None
  end.

(** [setInterval] takes the handle [nextHandle], [setTimeout] the next one. *)
Definition startTurnTimer (s : Server) (roomCode : string) (duration : Z) : Server :=
  match gameStates s !! roomCode with
  | None => s
  | Some gameState =>
      if gameOver gameState then s
      else
        let cleared := match timer gameState with
                       | Some h => delete h (timeouts s)
                       | None => timeouts s
                       end in
        let countdown := nextHandle s in
        let h := S (nextHandle s) in
        let gameState' :=
          set_timer (set_timeLeft (set_timerStarted gameState true) (Some duration)) (Some h) in
        {| rooms := rooms s;
           gameStates := <[roomCode := gameState']> (gameStates s);
           timeouts := <[h := {| to_room := roomCode; to_duration := duration;
                                 to_countdown := countdown |}]> cleared;
           intervals := <[countdown := roomCode]> (intervals s);
           nextHandle := S (S (nextHandle s));
           sharedPlayers := sharedPlayers s |}
  end.

Definition skipTurn (s : Server) (roomCode : string) : Reply :=
  match gameStates s !! roomCode with
  | None => Done s []
  | Some gameState =>
      if gameOver gameState then Done s []
      else
        match otherPlayer (players gameState) (currentPlayer gameState) with
        | None => Uncaught
        | Some o =>
            let gameState' :=
              set_timerStarted (set_timer (set_currentPlayer gameState o) None) false in
            let s1 := set_gameStates s (<[roomCode := gameState']> (gameStates s)) in
            let out := [Emit (ToRoom roomCode)
                             (ev_gameUpdate (accept gameState' [x_turnSkipped]))] in
            match turnDuration (gameType gameState') with
            | Some d => Done (startTurnTimer s1 roomCode d) out
            | None => Done s1 out
            end
        end
  end.

(** The callback of the timeout [h] fires: [clearInterval(countdown);
    skipTurn(roomCode)].  A timeout that is not pending never fires. *)
Definition expire (s : Server) (h : nat) : Reply :=
  match timeouts s !! h with
  | None => Done s []
  | Some t =>
      skipTurn {| rooms := rooms s; gameStates := gameStates s;
                  timeouts := delete h (timeouts s);
                  intervals := delete (to_countdown t) (intervals s);
                  nextHandle := nextHandle s;
                  sharedPlayers := sharedPlayers s |}
               (to_room t)
  end.

(** [roomCode] is the value of
    [Math.random().toString(36).substring(2, 8).toUpperCase()]. *)
Definition createRoom (s : Server) (socketId playerName roomCode : string) : Reply :=
  let room := {| code := roomCode;
                 host := socketId;
                 room_players := [ {| p_id := socketId; p_name := playerName; p_ready := true |} ];
                 gameSelected := None |} in
  Done {| rooms := mset (rooms s) roomCode room;
          gameStates := gameStates s; timeouts := timeouts s;
          intervals := intervals s; nextHandle := nextHandle s;
          sharedPlayers := sharedPlayers s ∖ {[roomCode]} |}
       [ Join socketId roomCode;
         Emit (ToSocket socketId) (ev_roomCreated roomCode true);
         Emit (ToSocket socketId) (ev_playerJoined (room_players room) roomCode) ].

Definition joinRoom (s : Server) (socketId roomCode playerName : string) : Reply :=
  match mget (rooms s) roomCode with
  | None => Done s [Emit (ToSocket socketId) (ev_error "Room not found")]
  | Some room =>
      if (2 <=? length (room_players room))%nat
      then Done s [Emit (ToSocket socketId) (ev_error "Room is full")]
      else
        let ps := (room_players room ++
                   [ {| p_id := socketId; p_name := playerName; p_ready := true |} ])%list in
        let room' := {| code := code room; host := host room; room_players := ps;
                        gameSelected := gameSelected room |} in
        let gameStates' :=
          if bool_decide (roomCode ∈ sharedPlayers s)
          then alter (fun gs => set_players gs ps) roomCode (gameStates s)
          else gameStates s in
        Done (set_gameStates (set_rooms s (mset (rooms s) roomCode room')) gameStates')
             [ Join socketId roomCode;
               Emit (ToSocket socketId) (ev_roomJoined roomCode false);
               Emit (ToRoom roomCode) (ev_playerJoined ps roomCode) ]
  end.

(** The result of [initializeGameState]. *)
Inductive Init :=
| Initialized (gs : GameState)
| InitThrew                        (* room.players[0] or [1] is undefined *)
| InitDiverges.                    (* the draws end inside the mine loop *)

(** [rnd]: the values drawn from [Math.random] by the initialiser. *)
Definition initializeGameState (room : Room) (gameType : string) (rnd : list Z) : Init :=
  match at_ (room_players room) 0 with
  | None => InitThrew
  | Some first =>
      let gameState (b : Board) :=
        {| currentPlayer := p_id first; gameType := gameType; board := b;
           winner := None; gameOver := false; players := room_players room;
           timer := None; timerStarted := false; firstMoveMade := false;
           phase := None; draw := false; timeLeft := None |} in
      match gameKind gameType with
      | Some tictactoe => Initialized (gameState (TicTacToeBoard (replicate 9 None)))
      | Some connect4 => Initialized (gameState (Connect4Board (replicate 6 (replicate 7 None))))
      | Some checkers => Initialized (gameState (CheckersBoard initializeCheckersBoard))
      | Some battleship =>
          match at_ (room_players room) 1 with
          | None => InitThrew
          | Some second =>
              let fresh := {| ships := []; shots := replicate 100 None |} in
              Initialized
                (set_phase (gameState (BattleshipBoard
                                         (<[p_id second := fresh]> (<[p_id first := fresh]> ∅))))
                           (Some "setup"))
          end
      | Some gomoku => Initialized (gameState (GomokuBoard (replicate 15 (replicate 15 None))))
      | Some dotsandboxes => Initialized (gameState (DotsAndBoxesBoard initializeDotsAndBoxes))
      | Some ludo => Initialized (gameState (LudoBoardOf initializeLudo))
      | Some minichess => Initialized (gameState (MiniChessBoard initializeMiniChess))
      | Some memorymatch => Initialized (gameState (MemoryMatchBoard (initializeMemoryMatch rnd)))
      | Some minesweeper =>
          let blank := {| isMine := false; isRevealed := false; neighborCount := 0;
                          revealedBy := None |} in
          match placeMines (replicate 8 (replicate 8 blank)) 10 rnd with
          | Some g =>
              Initialized (gameState (MinesweeperBoard
                                        {| ms_board := g;
                                           ms_scores := {[ "player1" := 0; "player2" := 0 ]} |}))
          | None => InitDiverges
          end
      | None => Initialized (gameState NoBoard)
      end
  end.

Definition selectGame (s : Server) (socketId roomCode gameType : string) (rnd : list Z) : Reply :=
  match mget (rooms s) roomCode with
  | None => Done s []
  | Some room =>
      if negb (String.eqb (host room) socketId) then Done s []
      else
        let room' := {| code := code room; host := host room;
                        room_players := room_players room;
                        gameSelected := Some gameType |} in
        match initializeGameState room' gameType rnd with
        | InitThrew => Uncaught
        | InitDiverges => NoMeaning
        | Initialized gameState =>
            Done {| rooms := mset (rooms s) roomCode room';
                    gameStates := <[roomCode := gameState]> (gameStates s);
                    timeouts := timeouts s; intervals := intervals s;
                    nextHandle := nextHandle s;
                    sharedPlayers := sharedPlayers s ∪ {[roomCode]} |}
                 [Emit (ToRoom roomCode) (ev_gameSelected gameType)]
        end
  end.

(** The game-state object is mutated in place by the handler, so what
    [gameStates] holds after the call is [result.gameState] whether or not
    the move is valid; [gameStates.set] adds nothing to that. *)
Definition makeMove (s : Server) (socketId roomCode : string) (move : Move)
    (gameType : string) (rolled : Z) : Reply :=
  match gameStates s !! roomCode with
  | None => Done s []
  | Some gameState =>
      let '(outcome, cleared) := processMove gameState move socketId gameType rolled in
      match outcome with
      | Unmodelled => NoMeaning
      | Threw _ => Uncaught
      | Returned result =>
          let s1 := set_gameStates (clearTimeouts s cleared)
                                   (<[roomCode := res_gameState result]> (gameStates s)) in
          if valid result then
            let out := [Emit (ToRoom roomCode) (ev_gameUpdate result)] in
            if negb (gameOver (res_gameState result)) && firstMoveMade (res_gameState result)
            then
              match turnDuration gameType with
              | Some d => Done (startTurnTimer s1 roomCode d) out
              | None => Done s1 out
              end
            else Done s1 out
          else Done s1 []
      end
  end.

Definition requestGameState (s : Server) (socketId roomCode : string) : Reply :=
  match gameStates s !! roomCode with
  | None => Done s []
  | Some gameState => Done s [Emit (ToSocket socketId) (ev_gameUpdate (accept gameState []))]
  end.

(** [room.players.filter(p => p.id !== socketId)] *)
Definition without (socketId : string) (ps : list Player) : list Player :=
  List.filter (fun p => negb (String.eqb (p_id p) socketId)) ps.

(** The loop [for (const [roomCode, room] of rooms.entries())] of the
    [disconnect] handler over the entries still to visit. *)
Fixpoint leaveRooms (socketId : string) (entries : list (string * Room))
    (gss : gmap string GameState) (tos : gmap nat Timeout)
    : list (string * Room) * gmap string GameState * gmap nat Timeout * list Event :=
  match entries with
  | [] => ([], gss, tos, [])
  | (roomCode, room) :: rest =>
      let ps := without socketId (room_players room) in
      if (length ps =? 0)%nat then
        let tos' := match gss !! roomCode with
                    | Some gameState =>
                        match timer gameState with
                        | Some h => delete h tos
                        | None => tos
                        end
                    | None => tos
                    end in
        leaveRooms socketId rest (delete roomCode gss) tos'
      else
        let '(rs, gss', tos', out) := leaveRooms socketId rest gss tos in
        ((roomCode, {| code := code room; host := host room; room_players := ps;
                       gameSelected := gameSelected room |}) :: rs,
         gss', tos', Emit (ToRoom roomCode) (ev_playerLeft ps) :: out)
  end.

Definition disconnect (s : Server) (socketId : string) : Reply :=
  let '(rs, gss, tos, out) := leaveRooms socketId (rooms s) (gameStates s) (timeouts s) in
  Done {| rooms := rs; gameStates := gss; timeouts := tos;
          intervals := intervals s; nextHandle := nextHandle s;
          sharedPlayers := ∅ |} out.

(** ** Runs of the server *)

Inductive Action :=
| a_createRoom (socketId playerName roomCode : string)
| a_joinRoom (socketId roomCode playerName : string)
| a_selectGame (socketId roomCode gameType : string) (rnd : list Z)
| a_makeMove (socketId roomCode : string) (move : Move) (gameType : string) (rolled : Z)
| a_requestGameState (socketId roomCode : string)
| a_disconnect (socketId : string)
| a_expire (h : nat).

Definition handle (s : Server) (a : Action) : Reply :=
  match a with
  | a_createRoom socketId playerName roomCode => createRoom s socketId playerName roomCode
  | a_joinRoom socketId roomCode playerName => joinRoom s socketId roomCode playerName
  | a_selectGame socketId roomCode gameType rnd => selectGame s socketId roomCode gameType rnd
  | a_makeMove socketId roomCode move gameType rolled =>
      makeMove s socketId roomCode move gameType rolled
  | a_requestGameState socketId roomCode => requestGameState s socketId roomCode
  | a_disconnect socketId => disconnect s socketId
  | a_expire h => expire s h
  end.

(** The states the server passes through, starting with no room. *)
Inductive reachable : Server -> Prop :=
| reachable_start : reachable emptyServer
| reachable_step s a s' out :
    reachable s -> handle s a = Done s' out -> reachable s'.

(** ** Sample states used by the examples below *)

Definition alice : Player := {| p_id := "s-alice"; p_name := "Alice"; p_ready := true |}.
Definition bob : Player := {| p_id := "s-bob"; p_name := "Bob"; p_ready := true |}.

Definition lobby : Room :=
  {| code := "AB12CD"; host := "s-alice"; room_players := [alice; bob]; gameSelected := None |}.

(** The room [createRoom] builds for the socket [socketId]. *)
Definition newRoom (socketId playerName roomCode : string) : Room :=
  {| code := roomCode; host := socketId;
     room_players := [ {| p_id := socketId; p_name := playerName; p_ready := true |} ];
     gameSelected := None |}.

(** A move object with every field the handlers read set to a neutral value. *)
Definition noMove : Move :=
  {| mv_index := 0; mv_column := 0; mv_row := 0; mv_col := 0; mv_type := "";
     mv_action := ""; mv_pieceIndex := 0; mv_fromRow := 0; mv_fromCol := 0;
     mv_toRow := 0; mv_toCol := 0; mv_cardIndex := 0; mv_ships := [] |}.

(** [{ index: i }] *)
Definition cellIndex (i : Z) : Move :=
  {| mv_index := i; mv_column := 0; mv_row := 0; mv_col := 0; mv_type := "";
     mv_action := ""; mv_pieceIndex := 0; mv_fromRow := 0; mv_fromCol := 0;
     mv_toRow := 0; mv_toCol := 0; mv_cardIndex := 0; mv_ships := [] |}.

(** [{ column: c }] *)
Definition dropIn (c : Z) : Move :=
  {| mv_index := 0; mv_column := c; mv_row := 0; mv_col := 0; mv_type := "";
     mv_action := ""; mv_pieceIndex := 0; mv_fromRow := 0; mv_fromCol := 0;
     mv_toRow := 0; mv_toCol := 0; mv_cardIndex := 0; mv_ships := [] |}.

(** [{ row: r, col: c }] *)
Definition cellAt (r c : Z) : Move :=
  {| mv_index := 0; mv_column := 0; mv_row := r; mv_col := c; mv_type := "";
     mv_action := ""; mv_pieceIndex := 0; mv_fromRow := 0; mv_fromCol := 0;
     mv_toRow := 0; mv_toCol := 0; mv_cardIndex := 0; mv_ships := [] |}.

(** [{ fromRow, fromCol, toRow, toCol }] *)
Definition fromTo (fromRow fromCol toRow toCol : Z) : Move :=
  {| mv_index := 0; mv_column := 0; mv_row := 0; mv_col := 0; mv_type := "";
     mv_action := ""; mv_pieceIndex := 0; mv_fromRow := fromRow; mv_fromCol := fromCol;
     mv_toRow := toRow; mv_toCol := toCol; mv_cardIndex := 0; mv_ships := [] |}.

(** [{ action, pieceIndex }] *)
Definition ludoMove (action : string) (pieceIndex : Z) : Move :=
  {| mv_index := 0; mv_column := 0; mv_row := 0; mv_col := 0; mv_type := "";
     mv_action := action; mv_pieceIndex := pieceIndex; mv_fromRow := 0; mv_fromCol := 0;
     mv_toRow := 0; mv_toCol := 0; mv_cardIndex := 0; mv_ships := [] |}.

(** [{ cardIndex }] *)
Definition flipCard (cardIndex : Z) : Move :=
  {| mv_index := 0; mv_column := 0; mv_row := 0; mv_col := 0; mv_type := "";
     mv_action := ""; mv_pieceIndex := 0; mv_fromRow := 0; mv_fromCol := 0;
     mv_toRow := 0; mv_toCol := 0; mv_cardIndex := cardIndex; mv_ships := [] |}.

(** [{ ships }] *)
Definition placeShips (ss : list Ship) : Move :=
  {| mv_index := 0; mv_column := 0; mv_row := 0; mv_col := 0; mv_type := "";
     mv_action := ""; mv_pieceIndex := 0; mv_fromRow := 0; mv_fromCol := 0;
     mv_toRow := 0; mv_toCol := 0; mv_cardIndex := 0; mv_ships := ss |}.

(** A ship of [n] cells along row [row]. *)
Definition shipAt (row n : Z) : Ship :=
  {| positions := (fun c => (row, c)) <$> seqZ 0 n; sunk := false |}.

Definition fleet : list Ship :=
  [ shipAt 0 5; shipAt 1 4; shipAt 2 3; shipAt 3 3; shipAt 4 2 ].

(** Draws that put the ten mines on row 0 and on the first two cells of row 1. *)
Definition mineDraws : list Z :=
  [0;0; 0;1; 0;2; 0;3; 0;4; 0;5; 0;6; 0;7; 1;0; 1;1].

(** Draws for the shuffle of memorymatch. *)
Definition shuffleDraws : list Z := [3; 1; 4; 1; 5; 9; 2; 6; 5; 3; 5; 8; 9; 7; 9].

(** The state [initializeGameState] builds for [lobby], with board [b]. *)
Definition freshState (gameType : string) (b : Board) : GameState :=
  {| currentPlayer := "s-alice"; gameType := gameType; board := b;
     winner := None; gameOver := false; players := [alice; bob];
     timer := None; timerStarted := false; firstMoveMade := false;
     phase := None; draw := false; timeLeft := None |}.

(** The states [initializeGameState] builds in [lobby]. *)
Definition initialState (gameType : string) (rnd : list Z) : GameState :=
  match initializeGameState lobby gameType rnd with
  | Initialized gs => gs
  | _ => freshState gameType NoBoard
  end.

(** The state [initializeGameState] builds for battleship in [lobby]. *)
Definition battleshipSetup : GameState :=
  let fresh := {| ships := []; shots := replicate 100 None |} in
  set_phase (freshState "battleship"
               (BattleshipBoard (<["s-bob" := fresh]> (<["s-alice" := fresh]> ∅))))
            (Some "setup").

(** The server after the actions [acts], when each of them is handled to
    the end. *)
Fixpoint runActions (s : Server) (acts : list Action) : option Server :=
  match acts with
  | [] => Some s
  | a :: acts' =>
      match handle s a with
      | Done s' _ => runActions s' acts'
      | _ => None
      end
  end.

(** The server after [acts], from [s]. *)
Definition after (s : Server) (acts : list Action) : Server :=
  default emptyServer (runActions s acts).

(** The game state of room AB12CD. *)
Definition stateOf (s : Server) : GameState :=
  default (freshState "" NoBoard) (gameStates s !! "AB12CD").

(** Alice opens room AB12CD and Bob joins it. *)
Definition fullLobby : Server :=
  after emptyServer
    [ a_createRoom "s-alice" "Alice" "AB12CD";
      a_joinRoom "s-bob" "AB12CD" "Bob" ].

(** Then Alice selects [gameType]. *)
Definition lobbyWith (gameType : string) (rnd : list Z) : Server :=
  after fullLobby [ a_selectGame "s-alice" "AB12CD" gameType rnd ].

(** A gomoku game: Alice plays cell 1, Bob plays cell 0; it is Alice's turn
    and the 5-second timer started after Bob's move (timeout 3) runs. *)
Definition gomokuServer : Server :=
  after (lobbyWith "gomoku" [])
    [ a_makeMove "s-alice" "AB12CD" (cellIndex 1) "gomoku" 0;
      a_makeMove "s-bob" "AB12CD" (cellIndex 0) "gomoku" 0 ].

(** A connect4 game that Alice wins with four discs in column 0, Bob
    answering in column 1. *)
Definition connect4Won : Server :=
  after (lobbyWith "connect4" [])
    [ a_makeMove "s-alice" "AB12CD" (dropIn 0) "connect4" 0;
      a_makeMove "s-bob" "AB12CD" (dropIn 1) "connect4" 0;
      a_makeMove "s-alice" "AB12CD" (dropIn 0) "connect4" 0;
      a_makeMove "s-bob" "AB12CD" (dropIn 1) "connect4" 0;
      a_makeMove "s-alice" "AB12CD" (dropIn 0) "connect4" 0;
      a_makeMove "s-bob" "AB12CD" (dropIn 1) "connect4" 0;
      a_makeMove "s-alice" "AB12CD" (dropIn 0) "connect4" 0 ].

(** Alice, alone in her room, selects ludo and rolls a 6: she keeps the turn
    and the 6-second timer (timeout 1) runs. *)
Definition soloLudo : Server :=
  after emptyServer
    [ a_createRoom "s-alice" "Alice" "AB12CD";
      a_selectGame "s-alice" "AB12CD" "ludo" [];
      a_makeMove "s-alice" "AB12CD" (ludoMove "rollDice" 0) "ludo" 6 ].



(** ** Predicates of the statements *)

(** The invariant of the [rooms] map: one entry per code, and one or two
    players in every room. *)
Definition roomsOk (rs : list (string * Room)) : Prop :=
  NoDup (fst <$> rs) /\
  Forall (fun e => room_players e.2 <> [] /\ (length (room_players e.2) <= 2)%nat) rs.

(** [gs'] is [gs] up to the timer handle. *)
Definition sameButTimer (gs gs' : GameState) : Prop :=
  set_timer gs' (timer gs) = gs.

(** ** Predicates of the further properties *)

(** The fields no move handler writes, and [gameOver], which none resets. *)
Definition keptByMove (gs gs' : GameState) : Prop :=
  players gs' = players gs /\
  gameType gs' = gameType gs /\
  timerStarted gs' = timerStarted gs /\
  timeLeft gs' = timeLeft gs /\
  (gameOver gs = true -> gameOver gs' = true).

(** The state a handler leaves, when it returns and when it throws. *)
Definition stateAfter (o : Outcome) : option GameState :=
  match o with
  | Returned r => Some (res_gameState r)
  | Threw gs => Some gs
  | Unmodelled => None
  end.

(** The handles a "Clear existing timer" block passes to [clearTimeout]. *)
Definition recorded (gs : GameState) : list nat :=
  match timer gs with
  | Some h => [h]
  | None => []
  end.

(** The timer is left alone, or the recorded timeout is cleared and forgotten. *)
Definition timerCleared (gs gs' : GameState) (cl : list nat) : Prop :=
  (timer gs' = timer gs /\ cl = []) \/ (timer gs' = None /\ cl = recorded gs).

(** The turn stays where it is or passes to the player listed beside [playerId]. *)
Definition turnPassed (playerId : string) (gs gs' : GameState) : Prop :=
  currentPlayer gs' = currentPlayer gs \/
  otherPlayer (players gs) playerId = Some (currentPlayer gs').

(** A winner or a draw is only declared together with the end of the game;
    the winner is the mover or a listed player. *)
Definition verdictGiven (playerId : string) (gs gs' : GameState) : Prop :=
  (winner gs' = winner gs \/
   gameOver gs' = true /\
   (winner gs' = Some playerId \/
    exists p, p ∈ players gs /\ winner gs' = Some (p_id p))) /\
  (draw gs' = draw gs \/ gameOver gs' = true /\ draw gs' = true).

(** What a call of a handler by [playerId] may do to the shared fields. *)
Definition movedBy (playerId : string) (gs gs' : GameState) (cl : list nat) : Prop :=
  keptByMove gs gs' /\ timerCleared gs gs' cl /\ turnPassed playerId gs gs' /\
  verdictGiven playerId gs gs'.

(** The game a board was set up for by [initializeGameState]. *)
Definition boardKind (b : Board) : option GameKind :=
  match b with
  | NoBoard => None
  | TicTacToeBoard _ => Some tictactoe
  | Connect4Board _ => Some connect4
  | CheckersBoard _ => Some checkers
  | GomokuBoard _ => Some gomoku
  | MiniChessBoard _ => Some minichess
  | DotsAndBoxesBoard _ => Some dotsandboxes
  | LudoBoardOf _ => Some ludo
  | MemoryMatchBoard _ => Some memorymatch
  | MinesweeperBoard _ => Some minesweeper
  | BattleshipBoard _ => Some battleship
  end.

(** The registry invariant: a room is stored under its own code, a game
    state belongs to a stored room, and a room that has a game selected has
    the game state of that game. *)
Definition registryOk (s : Server) : Prop :=
  (forall k room, mget (rooms s) k = Some room -> code room = k) /\
  (forall k gs, gameStates s !! k = Some gs -> is_Some (mget (rooms s) k)) /\
  (forall k room g, mget (rooms s) k = Some room -> gameSelected room = Some g ->
     exists gs, gameStates s !! k = Some gs /\ gameType gs = g).

(** The invariant of the players of a game: one or two, the current player
    among them; while the room shares its array with the game state, the two
    lists are one. *)
Definition playersOk (s : Server) : Prop :=
  forall k gs, gameStates s !! k = Some gs ->
    players gs <> [] /\ (length (players gs) <= 2)%nat /\
    currentPlayer gs ∈ p_id <$> players gs /\
    (k ∈ sharedPlayers s ->
     exists room, mget (rooms s) k = Some room /\ room_players room = players gs).

(** The invariant of the turn timers: the board is the one of the state's
    game type; the timeout a state records is pending, is its room's and has
    the per-move duration of the game; a finished game records none. *)
Definition timersOk (s : Server) : Prop :=
  forall k gs, gameStates s !! k = Some gs ->
    boardKind (board gs) = gameKind (gameType gs) /\
    (forall h, timer gs = Some h ->
       exists t, timeouts s !! h = Some t /\ to_room t = k /\
                 turnDuration (gameType gs) = Some (to_duration t)) /\
    (gameOver gs = true -> timer gs = None).

(** The server once [makeMove] has called the handler: the timeouts it
    cleared are gone and the state object, mutated in place, is the result's. *)
Definition storeResult (s : Server) (roomCode : string) (r : Result) (cl : list nat) : Server :=
  set_gameStates (clearTimeouts s cl) (<[roomCode := res_gameState r]> (gameStates s)).

(** The state [skipTurn] leaves before it starts the next timer. *)
Definition skipped (gs : GameState) (o : string) : GameState :=
  set_timerStarted (set_timer (set_currentPlayer gs o) None) false.

(** The cell [m] steps from [(row, col)] along [(dr, dc)] is on the board
    and holds [symbol]. *)
Definition holdsAt (g : list (list Cell)) (nrows ncols : Z) (symbol : string)
    (row col dr dc m : Z) : Prop :=
  0 <= row + dr * m < nrows /\ 0 <= col + dc * m < ncols /\
  exists v, at2 g (row + dr * m) (col + dc * m) = Value v /\ cellIs v symbol = true.

(** The cells [lo] to [hi] steps from [(row, col)] along [(dr, dc)], other
    than [(row, col)] itself, are on the board and hold [symbol]. *)
Definition inLine (g : list (list Cell)) (nrows ncols : Z) (symbol : string)
    (row col dr dc lo hi : Z) : Prop :=
  forall m, lo <= m <= hi -> m <> 0 -> holdsAt g nrows ncols symbol row col dr dc m.

(** [need] cells in a row through [(row, col)] along one of [dirs]. *)
Definition inARow (g : list (list Cell)) (nrows ncols : Z) (need : Z) (symbol : string)
    (row col : Z) (dirs : list (Z * Z)) : Prop :=
  exists dr dc k,
    (dr, dc) ∈ dirs /\ 0 <= k < need /\
    inLine g nrows ncols symbol row col dr dc (- k) (need - 1 - k).

(** ** Further sample states *)

(** A gomoku board with black stones on the first four cells of row 0, and
    the position in which Alice, who plays black, is to move on it. *)
Definition fourStones : list (list Cell) :=
  put2 (put2 (put2 (put2 (replicate 15 (replicate 15 None)) 0 0 (Some "●"))
                   0 1 (Some "●"))
             0 2 (Some "●"))
       0 3 (Some "●").

Definition gomokuFour : GameState := freshState "gomoku" (GomokuBoard fourStones).

(** [{ type, row, col }] *)
Definition drawLine (type : string) (r c : Z) : Move :=
  {| mv_index := 0; mv_column := 0; mv_row := r; mv_col := c; mv_type := type;
     mv_action := ""; mv_pieceIndex := 0; mv_fromRow := 0; mv_fromCol := 0;
     mv_toRow := 0; mv_toCol := 0; mv_cardIndex := 0; mv_ships := [] |}.

(** The dots-and-boxes board once the four sides of box (0,0) are drawn. *)
Definition closedBox : DotsBoard :=
  set_verticalLines
    (set_horizontalLines initializeDotsAndBoxes
       (put2 (put2 (horizontalLines initializeDotsAndBoxes) 0 0 true) 1 0 true))
    (put2 (put2 (verticalLines initializeDotsAndBoxes) 0 0 true) 0 1 true).

(** The same board with the right side of box (0,0) still to draw, Alice to
    move. *)
Definition threeSides : GameState :=
  freshState "dotsandboxes"
    (DotsAndBoxesBoard
       (set_verticalLines
          (set_horizontalLines initializeDotsAndBoxes
             (put2 (put2 (horizontalLines initializeDotsAndBoxes) 0 0 true) 1 0 true))
          (put2 (verticalLines initializeDotsAndBoxes) 0 0 true))).

(** A memorymatch game in which Alice has flipped cards 0 and 1, which differ. *)
Definition flippedTwo : GameState :=
  let gs := initialState "memorymatch" shuffleDraws in
  let gs1 := default gs (stateAfter (processMemoryMatchMove gs (flipCard 0) "s-alice").1) in
  default gs (stateAfter (processMemoryMatchMove gs1 (flipCard 1) "s-alice").1).

(** The number of mines on a minesweeper board. *)
Definition mineCount (g : list (list Mine)) : nat :=
  length (List.filter isMine (concat g)).

(** A ludo board is on the track: every piece stands between 0 and 57 and
    the dice shows 0 (not thrown yet) to 6. *)
Definition onTrack (b : LudoBoard) : Prop :=
  Forall (fun p => 0 <= p <= 57) (pieces (ludo1 b)) /\
  Forall (fun p => 0 <= p <= 57) (pieces (ludo2 b)) /\
  0 <= diceValue b <= 6.

(** A ludo position: Alice has thrown a 3; her piece 0 has reached home
    (57, counted in [home]) and her piece 1 has not started. *)
Definition ludoOneHome : GameState :=
  freshState "ludo"
    (LudoBoardOf {| ludo1 := {| pieces := [57; 0]; home := 1 |};
                    ludo2 := {| pieces := [0; 0]; home := 0 |};
                    diceValue := 3; diceRolled := true; ludoWinner := None |}).

(** The number of checkers pieces of a colour, as the handler counts them. *)
Definition pieceCount (colour : string) (g : list (list Cell)) : nat :=
  length (List.filter (fun c => truthy c && includes (default "" c) colour) (concat g)).

(** A checkers position: red (Alice) is about to jump from (5,0) over the
    black piece on (4,1) to (3,2). *)
Definition checkersJump : GameState :=
  freshState "checkers"
    (CheckersBoard (put2 (put2 initializeCheckersBoard 2 3 None) 4 1 (Some "black"))).


(** A battleship game in the playing phase, both fleets being [fleet]: Alice
    has hit the two cells of the ship on row 4, Bob has missed twice, and it
    is Alice's turn. *)
Definition oneShipDown : GameState :=
  let alices := {| ships := fleet;
                   shots := put (put (replicate 100 None) 40 (Some "hit")) 41 (Some "hit") |} in
  let bobs := {| ships := fleet;
                 shots := put (put (replicate 100 None) 99 (Some "miss")) 98 (Some "miss") |} in
  set_firstMoveMade
    (set_phase (freshState "battleship"
                  (BattleshipBoard (<["s-bob" := bobs]> (<["s-alice" := alices]> ∅))))
               (Some "playing"))
    true.
(** ** Basic facts *)

Lemma set_timer_same gs : set_timer gs (timer gs) = gs.
Proof. by destruct gs. Qed.

Lemma set_timer_twice gs a b : set_timer (set_timer gs a) b = set_timer gs b.
Proof. done. Qed.

Lemma not_current_guard gs playerId :
  currentPlayer gs ≠ playerId -> negb (String.eqb (currentPlayer gs) playerId) = true.
Proof.
  intros Hne. apply negb_true_iff, String.eqb_neq, Hne.
Qed.

Lemma current_guard gs playerId :
  currentPlayer gs = playerId -> negb (String.eqb (currentPlayer gs) playerId) = false.
Proof.
  intros ->. by rewrite String.eqb_refl.
Qed.

Lemma mget_mset_eq {V} (m : list (string * V)) k v : mget (mset m k v) k = Some v.
Proof.
  induction m as [|[k' v'] m IH]; simpl.
  - by rewrite String.eqb_refl.
  - destruct (String.eqb k' k) eqn:E; simpl.
    + by rewrite String.eqb_refl.
    + by rewrite E.
Qed.

Lemma mget_mset_ne {V} (m : list (string * V)) k k' v :
  k ≠ k' -> mget (mset m k v) k' = mget m k'.
Proof.
  intros Hne. induction m as [|[k0 v0] m IH]; simpl.
  - by apply String.eqb_neq in Hne as ->.
  - destruct (String.eqb k0 k) eqn:E; simpl.
    + apply String.eqb_eq in E as ->.
      by apply String.eqb_neq in Hne as ->.
    + by rewrite IH.
Qed.

(** The effect of the "Clear existing timer" block on the state. *)
Lemma clearExistingTimer_spec gs gs1 cl :
  clearExistingTimer gs = (gs1, cl) ->
  gs1 = set_timer gs None /\
  (cl = [] /\ timer gs = None \/ exists h, cl = [h] /\ timer gs = Some h).
Proof.
  unfold clearExistingTimer. destruct (timer gs) as [h|] eqn:E; intros [= <- <-].
  - split; [done|]. right. by exists h.
  - split; [|by left]. rewrite <- E. by rewrite set_timer_same.
Qed.

(** ** The loop of [isPathClear] *)

(** The bound given to the loop of [isPathClear] is never what ends it: from a
    square [n] steps before the target, more fuel than [n] changes nothing. *)
Lemma pathLoop_enough g toRow toCol stepRow stepCol n : forall currentRow currentCol k,
  currentRow + stepRow * Z.of_nat n = toRow ->
  currentCol + stepCol * Z.of_nat n = toCol ->
  pathLoop g toRow toCol stepRow stepCol currentRow currentCol (n + k)
  = pathLoop g toRow toCol stepRow stepCol currentRow currentCol n.
Proof.
  induction n as [|n IH]; intros currentRow currentCol k Hr Hc.
  - assert (currentRow = toRow) as -> by lia. assert (currentCol = toCol) as -> by lia.
    destruct k; simpl; by rewrite !Z.eqb_refl.
  - simpl. destruct ((currentRow =? toRow) && (currentCol =? toCol)); [done|].
    destruct (at2 g currentRow currentCol) as [[c|]| |]; try done.
    apply IH; lia.
Qed.

Lemma isPathClear_enough g fromRow fromCol toRow toCol k :
  fromRow = toRow \/ fromCol = toCol ->
  (fromRow, fromCol) <> (toRow, toCol) ->
  pathLoop g toRow toCol (Z.sgn (toRow - fromRow)) (Z.sgn (toCol - fromCol))
           (fromRow + Z.sgn (toRow - fromRow)) (fromCol + Z.sgn (toCol - fromCol))
           (Z.to_nat (Z.abs (toRow - fromRow) + Z.abs (toCol - fromCol)) + k)
  = isPathClear g fromRow fromCol toRow toCol.
Proof.
  intros Hline Hmove. unfold isPathClear.
  set (d := Z.abs (toRow - fromRow) + Z.abs (toCol - fromCol)).
  assert (0 < d) as Hd.
  { unfold d. destruct (decide (fromRow = toRow)), (decide (fromCol = toCol)); subst;
      try lia. congruence. }
  replace (Z.to_nat d) with (Z.to_nat (d - 1) + 1)%nat by lia.
  rewrite <- Nat.add_assoc.
  rewrite (pathLoop_enough _ _ _ _ _ (Z.to_nat (d - 1)) _ _ (1 + k)),
          (pathLoop_enough _ _ _ _ _ (Z.to_nat (d - 1)) _ _ 1); try done;
    unfold d; destruct Hline as [->| ->]; rewrite ?Z.sub_diag; simpl; lia.
Qed.

(** ** Rejected moves *)

Lemma sameButTimer_refl gs : sameButTimer gs gs.
Proof. apply set_timer_same. Qed.

Lemma sameButTimer_cleared gs : sameButTimer gs (set_timer gs None).
Proof. unfold sameButTimer. rewrite set_timer_twice. apply set_timer_same. Qed.

Lemma switchTurns_valid gs playerId ex r :
  switchTurns gs playerId ex = Returned r -> valid r = true.
Proof.
  unfold switchTurns. destruct (otherPlayer _ _); by intros [= <-].
Qed.

Lemma finishDots_valid gs b done r :
  finishDots gs b done = Returned r -> valid r = true.
Proof.
  unfold finishDots. repeat case_match; by intros [= <-].
Qed.

(** One step through a handler whose result is known to be [Returned r]:
    splits on the value read at the head of the remaining code. *)
Ltac head_step H :=
  lazymatch type of H with
  | (_, _) = (_, _) => injection H as H ?; subst
  | Returned _ = Returned _ => injection H as H; subst
  | switchTurns _ _ _ = Returned _ => apply switchTurns_valid in H
  | finishDots _ _ _ = Returned _ => apply finishDots_valid in H
  | match ?x with _ => _ end = _ => destruct x eqn:?; cbv beta iota zeta in H
  | Threw _ = Returned _ => discriminate H
  | Unmodelled = Returned _ => discriminate H
  end.

(** Closes the branches: an accepted result is not rejected, a rejected one
    returns the state it was given. *)
Ltac finish_rejected :=
  lazymatch goal with
  | H : valid ?r = true, H' : valid ?r = false |- _ => congruence
  | H : valid (accept _ _) = false |- _ => discriminate H
  | |- sameButTimer ?gs (res_gameState (reject ?gs)) /\ _ =>
      split; [apply sameButTimer_refl | done]
  | |- sameButTimer ?gs (res_gameState (reject (set_timer ?gs None))) /\ _ =>
      split; [apply sameButTimer_cleared | done]
  end.

(** Names the state after the "Clear existing timer" block. *)
Ltac open_handler H :=
  match type of H with
  | context [clearExistingTimer ?gs] =>
      let gs1 := fresh "gs1" in
      let cl1 := fresh "cl1" in
      let Hc := fresh "Hc" in
      destruct (clearExistingTimer gs) as [gs1 cl1] eqn:Hc;
      apply clearExistingTimer_spec in Hc as [-> _]
  | _ => idtac
  end.

Ltac rejected H := cbv beta iota zeta in H; repeat head_step H; try finish_rejected.

Lemma tictactoe_rejected gs move playerId r cl :
  processTicTacToeMove gs move playerId = (Returned r, cl) -> valid r = false ->
  sameButTimer gs (res_gameState r) /\ extra r = [].
Proof.
  unfold processTicTacToeMove. intros H Hv. open_handler H.
  rejected H.
Qed.

Lemma connect4_rejected gs move playerId r cl :
  processConnect4Move gs move playerId = (Returned r, cl) -> valid r = false ->
  sameButTimer gs (res_gameState r) /\ extra r = [].
Proof.
  unfold processConnect4Move. intros H Hv. rejected H.
Qed.

Lemma gomoku_rejected gs move playerId r cl :
  processGomokuMove gs move playerId = (Returned r, cl) -> valid r = false ->
  sameButTimer gs (res_gameState r) /\ extra r = [].
Proof.
  unfold processGomokuMove. intros H Hv. open_handler H. rejected H.
Qed.

Lemma dots_rejected gs move playerId r cl :
  processDotsAndBoxesMove gs move playerId = (Returned r, cl) -> valid r = false ->
  sameButTimer gs (res_gameState r) /\ extra r = [].
Proof.
  unfold processDotsAndBoxesMove. intros H Hv. open_handler H. rejected H.
Qed.

Lemma ludo_rejected gs move playerId rolled r cl :
  processLudoMove gs move playerId rolled = (Returned r, cl) -> valid r = false ->
  sameButTimer gs (res_gameState r) /\ extra r = [].
Proof.
  unfold processLudoMove. intros H Hv. open_handler H. rejected H.
Qed.

Lemma minichess_rejected gs move playerId r cl :
  processMiniChessMove gs move playerId = (Returned r, cl) -> valid r = false ->
  sameButTimer gs (res_gameState r) /\ extra r = [].
Proof.
  unfold processMiniChessMove. intros H Hv. open_handler H. rejected H.
Qed.

Lemma memorymatch_rejected gs move playerId r cl :
  processMemoryMatchMove gs move playerId = (Returned r, cl) -> valid r = false ->
  sameButTimer gs (res_gameState r) /\ extra r = [].
Proof.
  unfold processMemoryMatchMove. intros H Hv. open_handler H. rejected H.
Qed.

Lemma minesweeper_rejected gs move playerId r cl :
  processMinesweeperMove gs move playerId = (Returned r, cl) -> valid r = false ->
  sameButTimer gs (res_gameState r) /\ extra r = [].
Proof.
  unfold processMinesweeperMove. intros H Hv. open_handler H. rejected H.
Qed.

Lemma checkers_rejected gs move playerId r cl :
  processCheckersMove gs move playerId = (Returned r, cl) -> valid r = false ->
  sameButTimer gs (res_gameState r) /\ extra r = [].
Proof.
  unfold processCheckersMove. intros H Hv. open_handler H. rejected H.
Qed.

Lemma battleship_rejected gs move playerId r cl :
  processBattleshipMove gs move playerId = (Returned r, cl) -> valid r = false ->
  sameButTimer gs (res_gameState r) /\ extra r = [].
Proof.
  unfold processBattleshipMove, processBattleshipSetup, processBattleshipShot.
  intros H Hv. open_handler H. rejected H.
Qed.

Lemma processMove_rejected gs move playerId gameType rolled r cl :
  processMove gs move playerId gameType rolled = (Returned r, cl) -> valid r = false ->
  sameButTimer gs (res_gameState r) /\ extra r = [].
Proof.
  unfold processMove. intros H Hv.
  destruct (gameKind gameType) as [[]|];
    eauto using tictactoe_rejected, connect4_rejected, checkers_rejected, battleship_rejected,
      gomoku_rejected, dots_rejected, ludo_rejected, minichess_rejected,
      memorymatch_rejected, minesweeper_rejected.
  injection H as <- <-. split; [apply sameButTimer_refl | done].
Qed.

(** ** Runs *)

Lemma runActions_reachable acts : forall s s',
  reachable s -> runActions s acts = Some s' -> reachable s'.
Proof.
  induction acts as [|a acts IH]; simpl; intros s s' Hs H.
  - by injection H as <-.
  - destruct (handle s a) as [s1 out| |] eqn:Ha; try discriminate.
    eapply IH; [|exact H]. eapply reachable_step; eauto.
Qed.

Lemma after_reachable s acts : reachable s -> reachable (after s acts).
Proof.
  intros Hs. unfold after. destruct (runActions s acts) as [s'|] eqn:E; simpl.
  - by eapply runActions_reachable.
  - apply reachable_start.
Qed.

Lemma fullLobby_reachable : reachable fullLobby.
Proof. apply after_reachable, reachable_start. Qed.

Lemma lobbyWith_reachable gameType rnd : reachable (lobbyWith gameType rnd).
Proof. apply after_reachable, fullLobby_reachable. Qed.

Lemma gomokuServer_reachable : reachable gomokuServer.
Proof. apply after_reachable, lobbyWith_reachable. Qed.

Lemma connect4Won_reachable : reachable connect4Won.
Proof. apply after_reachable, lobbyWith_reachable. Qed.

Lemma soloLudo_reachable : reachable soloLudo.
Proof. apply after_reachable, reachable_start. Qed.

(** ** Moves out of turn (C2) *)

Example battleshipSetup_initialised :
  initializeGameState lobby "battleship" [] = Initialized battleshipSetup /\
  gameStates (lobbyWith "battleship" []) !! "AB12CD" = Some battleshipSetup.
Proof. split; vm_compute; reflexivity. Qed.

(** C2, counterexample.  In the setup phase of battleship the handler does
    not look at [currentPlayer]: Bob, who is not the current player, places
    his fleet, the move is valid and the board holds his ships afterwards. *)
Lemma C2_counterexample :
  currentPlayer battleshipSetup <> "s-bob" /\
  phase battleshipSetup = Some "setup" /\
  exists r cl,
    processMove battleshipSetup
                (placeShips fleet) "s-bob" "battleship" 0 = (Returned r, cl) /\
    valid r = true /\
    res_gameState r <> battleshipSetup.
Proof.
  split; [done|]. split; [done|].
  eexists _, _. split; [vm_compute; reflexivity|]. split; [done|].
  intros H.
  apply (f_equal (fun gs => match board gs with
                            | BattleshipBoard b => ships <$> b !! "s-bob"
                            | _ => None
                            end)) in H.
  vm_compute in H. discriminate H.
Qed.

(** C2, as amended.  A move by a player other than [currentPlayer] is
    rejected with [valid: false] and returns the game state as it was, for
    every game type and every state, except in the setup phase of
    battleship; the playing phase of battleship is covered. *)
Theorem C2_wrong_player_rejected gs move playerId gameType rolled :
  currentPlayer gs <> playerId ->
  ~ (gameKind gameType = Some battleship /\ phase gs = Some "setup") ->
  processMove gs move playerId gameType rolled = (Returned (reject gs), []).
Proof.
  intros Hne Hsetup. apply not_current_guard in Hne.
  unfold processMove. destruct (gameKind gameType) as [k|] eqn:Hk; [|done].
  destruct k; simpl.
  - unfold processTicTacToeMove. by rewrite Hne.
  - unfold processConnect4Move. by rewrite Hne.
  - unfold processCheckersMove. by rewrite Hne.
  - unfold processBattleshipMove. rewrite bool_decide_eq_false_2 by tauto.
    unfold processBattleshipShot. by rewrite Hne.
  - unfold processGomokuMove. by rewrite Hne.
  - unfold processDotsAndBoxesMove. by rewrite Hne.
  - unfold processLudoMove. by rewrite Hne.
  - unfold processMiniChessMove. by rewrite Hne.
  - unfold processMemoryMatchMove. by rewrite Hne.
  - unfold processMinesweeperMove. by rewrite Hne.
Qed.

Lemma C2_wrong_player_rejected_witness :
  processMove (initialState "tictactoe" []) (cellIndex 4) "s-bob" "tictactoe" 0
  = (Returned (reject (initialState "tictactoe" [])), []) /\
  processMove (set_phase battleshipSetup (Some "playing")) noMove "s-bob" "battleship" 0
  = (Returned (reject (set_phase battleshipSetup (Some "playing"))), []).
Proof.
  split.
  - apply C2_wrong_player_rejected; [done|]. intros [H _]. discriminate H.
  - apply C2_wrong_player_rejected; [done|]. intros [_ H]. discriminate H.
Defined.

(** ** What [makeMove] broadcasts (C1) *)

Lemma cleared_pending (tos : gmap nat Timeout) hs h t :
  foldr delete tos hs !! h = Some t -> tos !! h = Some t.
Proof.
  induction hs as [|h' hs IH]; simpl; [done|].
  intros H. apply lookup_delete_Some in H as [_ H]. auto.
Qed.

(** C1, counterexample.  In a running gomoku game Alice, whose turn it is,
    plays the cell Bob has taken.  The handler has cancelled timeout 3 before
    it finds the cell occupied; it returns [valid: false], nothing is
    broadcast, and the stored state has lost its timer. *)
Lemma C1_counterexample :
  reachable gomokuServer /\
  exists gs r s',
    gameStates gomokuServer !! "AB12CD" = Some gs /\
    timer gs = Some 3%nat /\
    is_Some (timeouts gomokuServer !! 3%nat) /\
    processMove gs (cellIndex 0) "s-alice" "gomoku" 0 = (Returned r, [3%nat]) /\
    valid r = false /\
    makeMove gomokuServer "s-alice" "AB12CD" (cellIndex 0) "gomoku" 0 = Done s' [] /\
    gameStates s' !! "AB12CD" <> Some gs /\
    timeouts s' !! 3%nat = None.
Proof.
  split; [apply gomokuServer_reachable|].
  eexists _, _, _.
  split; [vm_compute; reflexivity|].
  split; [reflexivity|].
  split; [vm_compute; eauto|].
  split; [vm_compute; reflexivity|].
  split; [reflexivity|].
  split; [vm_compute; reflexivity|].
  split; [|vm_compute; reflexivity].
  intros H. apply (f_equal (fun o => o ≫= timer)) in H.
  vm_compute in H. discriminate H.
Qed.

(** C1, as amended.  When a game state exists for the room and the handler
    of the game type returns, [makeMove] broadcasts [gameUpdate] with the
    handler's result to the room exactly when the move is valid.  A rejected
    move is not broadcast and starts no timer; it has no extra fields, and
    the stored state equals the previous one in every field other than the
    timer handle. *)
Theorem C1_makeMove_broadcast s socketId roomCode move gameType rolled gameState r cl :
  gameStates s !! roomCode = Some gameState ->
  processMove gameState move socketId gameType rolled = (Returned r, cl) ->
  exists s',
    makeMove s socketId roomCode move gameType rolled
    = Done s' (if valid r then [Emit (ToRoom roomCode) (ev_gameUpdate r)] else []) /\
    (valid r = false ->
     gameStates s' !! roomCode = Some (res_gameState r) /\
     sameButTimer gameState (res_gameState r) /\
     extra r = [] /\
     nextHandle s' = nextHandle s /\
     intervals s' = intervals s /\
     forall h t, timeouts s' !! h = Some t -> timeouts s !! h = Some t).
Proof.
  intros Hgs Hmove. unfold makeMove. rewrite Hgs, Hmove.
  destruct (valid r) eqn:Hv.
  - repeat case_match; eexists; (split; [reflexivity | done]).
  - eexists. split; [reflexivity|]. intros _.
    destruct (processMove_rejected _ _ _ _ _ _ _ Hmove Hv) as [Hsame Hex].
    simpl. rewrite lookup_insert_eq. repeat split; try done.
    intros h t. apply cleared_pending.
Qed.

Lemma C1_makeMove_broadcast_witness :
  exists s',
    makeMove gomokuServer "s-alice" "AB12CD" (cellIndex 0) "gomoku" 0 = Done s' [] /\
    gameStates s' !! "AB12CD" = Some (set_timer (stateOf gomokuServer) None) /\
    sameButTimer (stateOf gomokuServer) (set_timer (stateOf gomokuServer) None).
Proof.
  destruct (C1_makeMove_broadcast gomokuServer "s-alice" "AB12CD" (cellIndex 0) "gomoku" 0
              (stateOf gomokuServer)
              (reject (set_timer (stateOf gomokuServer) None))
              [3%nat])
    as [s' [Hs' Hrej]].
  - vm_compute. reflexivity.
  - vm_compute. reflexivity.
  - exists s'. split; [exact Hs'|].
    destruct (Hrej eq_refl) as (Hst & Hsame & _). split; [exact Hst | exact Hsame].
Defined.

(** ** Moves after the end of the game and outside the board (C3) *)

(** C3, the code at the failing inputs.
    connect4 has no game-over check: after Alice's win (the game is over and
    she is still [currentPlayer]) her next disc is accepted, broadcast, and
    written to the board.
    minesweeper and checkers have no bounds check: a row outside the 8 x 8
    board makes the handler raise a [TypeError] instead of returning
    [valid: false], after it has cancelled the timer. *)
Theorem C3_game_over_and_bounds_unchecked :
  (reachable connect4Won /\
   exists gs r s',
     gameStates connect4Won !! "AB12CD" = Some gs /\
     gameOver gs = true /\ winner gs = Some "s-alice" /\
     processMove gs (dropIn 2) "s-alice" "connect4" 0 = (Returned r, []) /\
     valid r = true /\
     board (res_gameState r) <> board gs /\
     makeMove connect4Won "s-alice" "AB12CD" (dropIn 2) "connect4" 0
     = Done s' [Emit (ToRoom "AB12CD") (ev_gameUpdate r)]) /\
  (let gs := set_timer (initialState "minesweeper" mineDraws) (Some 3%nat) in
   gameOver gs = false /\
   processMove gs (cellAt 8 0) "s-alice" "minesweeper" 0 = (Threw (set_timer gs None), [3%nat]) /\
   processMove gs (cellAt 0 8) "s-alice" "minesweeper" 0 = (Threw (set_timer gs None), [3%nat]) /\
   processMove gs (cellAt (-1) 0) "s-alice" "minesweeper" 0
   = (Threw (set_timer gs None), [3%nat])) /\
  (let gs := set_timer (initialState "checkers" []) (Some 3%nat) in
   gameOver gs = false /\
   processMove gs (fromTo 8 1 7 0) "s-alice" "checkers" 0 = (Threw (set_timer gs None), [3%nat]) /\
   processMove gs (fromTo 5 0 (-1) 6) "s-alice" "checkers" 0
   = (Threw (set_timer gs None), [3%nat])).
Proof.
  split; [|split].
  - split; [apply connect4Won_reachable|].
    eexists _, _, _.
    split; [vm_compute; reflexivity|].
    split; [reflexivity|]. split; [reflexivity|].
    split; [vm_compute; reflexivity|].
    split; [reflexivity|].
    split; [|vm_compute; reflexivity].
    intros H. discriminate H.
  - cbv zeta. split_and!; vm_compute; reflexivity.
  - cbv zeta. split_and!; vm_compute; reflexivity.
Qed.

(** ** The minichess pawn (C7) *)

Example minichess_initialised :
  board (initialState "minichess" []) = MiniChessBoard initializeMiniChess /\
  currentPlayer (initialState "minichess" []) = "s-alice" /\
  findIndex (players (initialState "minichess" [])) "s-alice" = 0.
Proof. split_and!; vm_compute; reflexivity. Qed.

(** C7, the code at the failing input.  Player 0 owns the uppercase pieces,
    which start on rows 3 and 4; the lowercase back rank is row 0.  Her pawn
    on (3,0) stepping onto the empty square (2,0), toward that back rank, is
    rejected: [isValidChessMove] gives an uppercase pawn the row direction
    [+1], toward its own back rank.  For the same reason no pawn of either
    side has any legal move in the initial position, and a lone uppercase
    pawn on (2,2) may only step back to (3,2). *)
Theorem C7_pawn_forward_rejected :
  at2 initializeMiniChess 3 0 = Value (Some "P") /\
  at2 initializeMiniChess 2 0 = Value None /\
  isValidChessMove initializeMiniChess 3 0 2 0 = Some false /\
  processMove (initialState "minichess" []) (fromTo 3 0 2 0) "s-alice" "minichess" 0
  = (Returned (reject (initialState "minichess" [])), []) /\
  Forall (fun col => getValidMoves initializeMiniChess 3 col = Some [] /\
                     getValidMoves initializeMiniChess 1 col = Some [])
         [0; 1; 2; 3; 4] /\
  getValidMoves (put2 (replicate 5 (replicate 5 None)) 2 2 (Some "P")) 2 2 = Some [(3, 2)].
Proof.
  split; [reflexivity|]. split; [reflexivity|].
  split; [vm_compute; reflexivity|]. split; [vm_compute; reflexivity|].
  split; [|vm_compute; reflexivity].
  repeat (apply Forall_cons; split; [split; vm_compute; reflexivity|]).
  apply Forall_nil_2.
Qed.

(** ** Creating a room (C5) *)

(** C5, counterexample.  Room AB12CD is in use by Alice and Bob.  When the
    random code drawn for Carol's [createRoom] is AB12CD again, the handler
    stores her room under that code: no check is made, and the room of Alice
    and Bob is gone from the map. *)
Lemma C5_counterexample :
  reachable fullLobby /\
  mget (rooms fullLobby) "AB12CD" = Some lobby /\
  exists s' out,
    createRoom fullLobby "s-carol" "Carol" "AB12CD" = Done s' out /\
    mget (rooms s') "AB12CD" = Some (newRoom "s-carol" "Carol" "AB12CD") /\
    newRoom "s-carol" "Carol" "AB12CD" <> lobby /\
    length (rooms s') = length (rooms fullLobby).
Proof.
  split; [apply fullLobby_reachable|].
  split; [vm_compute; reflexivity|].
  eexists _, _. split; [reflexivity|].
  split; [vm_compute; reflexivity|].
  split; [|vm_compute; reflexivity].
  intros H. discriminate H.
Qed.

(** C5, as amended.  [createRoom] always succeeds: whatever the state and
    the code drawn, it stores under that code a room whose only player is
    the creator's connection, marked ready, with the creator as host, joins
    the socket to the room and emits [roomCreated] and [playerJoined] to the
    creator.  Rooms under other codes are untouched; a room already stored
    under the drawn code is replaced. *)
Theorem C5_createRoom_succeeds s socketId playerName roomCode :
  exists s',
    createRoom s socketId playerName roomCode
    = Done s' [ Join socketId roomCode;
                Emit (ToSocket socketId) (ev_roomCreated roomCode true);
                Emit (ToSocket socketId)
                     (ev_playerJoined
                        [ {| p_id := socketId; p_name := playerName; p_ready := true |} ]
                        roomCode) ] /\
    mget (rooms s') roomCode = Some (newRoom socketId playerName roomCode) /\
    (forall other, other <> roomCode -> mget (rooms s') other = mget (rooms s) other) /\
    gameStates s' = gameStates s /\ timeouts s' = timeouts s.
Proof.
  eexists. split; [reflexivity|]. simpl.
  split; [apply mget_mset_eq|].
  split; [|done].
  intros other Hne. by apply mget_mset_ne.
Qed.

(** ** The rooms map (C6) *)

Lemma mget_elem {V} (m : list (string * V)) k v : mget m k = Some v -> (k, v) ∈ m.
Proof.
  induction m as [|[k' v'] m IH]; simpl; [done|].
  destruct (String.eqb k' k) eqn:E.
  - apply String.eqb_eq in E as ->. intros [= ->]. apply list_elem_of_here.
  - intros H. apply list_elem_of_further. auto.
Qed.


Lemma mset_keys {V} (m : list (string * V)) k v x :
  x ∈ fst <$> mset m k v <-> x = k \/ x ∈ fst <$> m.
Proof.
  induction m as [|[k' v'] m IH]; simpl.
  - rewrite list_elem_of_singleton, elem_of_nil. tauto.
  - destruct (String.eqb k' k) eqn:E; simpl.
    + apply String.eqb_eq in E as ->. rewrite elem_of_cons. tauto.
    + rewrite !elem_of_cons, IH. tauto.
Qed.

Lemma mset_NoDup {V} (m : list (string * V)) k v :
  NoDup (fst <$> m) -> NoDup (fst <$> mset m k v).
Proof.
  induction m as [|[k' v'] m IH]; simpl; intros H.
  - apply NoDup_singleton.
  - apply NoDup_cons in H as [Hk' H].
    destruct (String.eqb k' k) eqn:E; simpl.
    + apply String.eqb_eq in E as ->. by apply NoDup_cons.
    + apply NoDup_cons. split; [|auto].
      rewrite mset_keys. apply String.eqb_neq in E. intros [->|?]; done.
Qed.

Lemma mset_Forall {V} (P : string * V -> Prop) (m : list (string * V)) k v :
  Forall P m -> P (k, v) -> Forall P (mset m k v).
Proof.
  intros Hm Hv. induction Hm as [|[k' v'] m Hx Hm IH]; simpl.
  - by apply Forall_singleton.
  - destruct (String.eqb k' k); by apply Forall_cons.
Qed.

Lemma roomsOk_mset rs roomCode room :
  roomsOk rs -> room_players room <> [] -> (length (room_players room) <= 2)%nat ->
  roomsOk (mset rs roomCode room).
Proof.
  intros [Hnd Hall] Hne Hle. split.
  - by apply mset_NoDup.
  - by apply mset_Forall.
Qed.

Lemma roomsOk_mget rs roomCode room :
  roomsOk rs -> mget rs roomCode = Some room ->
  room_players room <> [] /\ (length (room_players room) <= 2)%nat.
Proof.
  intros [_ Hall] H. apply mget_elem in H.
  rewrite Forall_forall in Hall. apply (Hall _ H).
Qed.

Lemma startTurnTimer_rooms s roomCode d : rooms (startTurnTimer s roomCode d) = rooms s.
Proof. unfold startTurnTimer. by repeat case_match. Qed.

Lemma makeMove_rooms s socketId roomCode move gameType rolled s' out :
  makeMove s socketId roomCode move gameType rolled = Done s' out -> rooms s' = rooms s.
Proof.
  unfold makeMove. intros H.
  repeat case_match; simplify_eq; try done; by rewrite ?startTurnTimer_rooms.
Qed.

Lemma skipTurn_rooms s roomCode s' out :
  skipTurn s roomCode = Done s' out -> rooms s' = rooms s.
Proof.
  unfold skipTurn. intros H.
  repeat case_match; simplify_eq; try done; by rewrite ?startTurnTimer_rooms.
Qed.

Lemma expire_rooms s h s' out : expire s h = Done s' out -> rooms s' = rooms s.
Proof.
  unfold expire. destruct (timeouts s !! h); [|by intros [= <-]].
  intros H. by apply skipTurn_rooms in H.
Qed.


(** What the loop of [disconnect] leaves. *)
Lemma leaveRooms_kept socketId entries : forall gss tos rs gss' tos' out,
  leaveRooms socketId entries gss tos = (rs, gss', tos', out) ->
  (forall k, k ∈ fst <$> rs -> k ∈ fst <$> entries) /\
  (NoDup (fst <$> entries) -> NoDup (fst <$> rs)) /\
  (forall k room', (k, room') ∈ rs ->
     exists room, (k, room) ∈ entries /\
                  room_players room' = without socketId (room_players room) /\
                  room_players room' <> []) /\
  (forall k gs, gss' !! k = Some gs -> gss !! k = Some gs) /\
  (forall h t, tos' !! h = Some t -> tos !! h = Some t).
Proof.
  induction entries as [|[roomCode room] rest IH]; simpl; intros gss tos rs gss' tos' out H.
  - injection H as <- <- <- <-. split_and!; try done.
    intros k room' Hin. by apply elem_of_nil in Hin.
  - destruct (length (without socketId (room_players room)) =? 0)%nat eqn:Hlen.
    + apply IH in H as (Hk & Hnd & Hrooms & Hgss & Htos). split_and!.
      * intros k Hin. apply list_elem_of_further. auto.
      * intros Hd. apply NoDup_cons in Hd as [_ Hd]. auto.
      * intros k room' Hin. destruct (Hrooms k room' Hin) as (r & Hr & ?).
        exists r. split; [by apply list_elem_of_further | done].
      * intros k gs Hl. apply Hgss in Hl. by apply lookup_delete_Some in Hl as [_ Hl].
      * intros h t Hl. apply Htos in Hl. repeat case_match; try done;
          by apply lookup_delete_Some in Hl as [_ Hl].
    + destruct (leaveRooms socketId rest gss tos) as [[[rs1 gss1] tos1] out1] eqn:E.
      injection H as <- <- <- <-.
      apply IH in E as (Hk & Hnd & Hrooms & Hgss & Htos). split_and!; try done.
      * intros k Hin. simpl in Hin. apply elem_of_cons in Hin as [->|Hin].
        -- apply list_elem_of_here.
        -- apply list_elem_of_further. auto.
      * intros Hd. apply NoDup_cons in Hd as [Hfresh Hd]. simpl.
        apply NoDup_cons. split; [|auto]. intros Hin. apply Hfresh. auto.
      * intros k room' Hin. apply elem_of_cons in Hin as [[= -> ->]|Hin].
        -- exists room. split; [apply list_elem_of_here|]. split; [done|].
           simpl. intros Hnil. rewrite Hnil in Hlen. discriminate Hlen.
        -- destruct (Hrooms k room' Hin) as (r & Hr & ?).
           exists r. split; [by apply list_elem_of_further | done].
Qed.

(** A room that only holds the leaving socket is deleted with its game state
    and the timeout recorded in it. *)
Lemma leaveRooms_deleted socketId entries : forall gss tos rs gss' tos' out k room,
  leaveRooms socketId entries gss tos = (rs, gss', tos', out) ->
  NoDup (fst <$> entries) ->
  (k, room) ∈ entries ->
  without socketId (room_players room) = [] ->
  (k ∉ fst <$> rs) /\
  gss' !! k = None /\
  (forall gs h, gss !! k = Some gs -> timer gs = Some h -> tos' !! h = None).
Proof.
  induction entries as [|[roomCode room0] rest IH]; simpl;
    intros gss tos rs gss' tos' out k room H Hnd Hin Hgone.
  - by apply elem_of_nil in Hin.
  - apply NoDup_cons in Hnd as [Hfresh Hnd].
    apply elem_of_cons in Hin as [[= -> ->]|Hin].
    + rewrite Hgone in H. simpl in H.
      apply leaveRooms_kept in H as (Hk & _ & _ & Hgss & Htos). split_and!.
      * intros Hin. apply Hfresh. auto.
      * destruct (gss' !! roomCode) as [gs|] eqn:E; [|done].
        apply Hgss in E. by rewrite lookup_delete_eq in E.
      * intros gs h Hgs Ht. rewrite Hgs, Ht in Htos.
        destruct (tos' !! h) as [t|] eqn:E; [|done].
        apply Htos in E. by rewrite lookup_delete_eq in E.
    + assert (roomCode <> k) as Hne.
      { intros ->. apply Hfresh. apply list_elem_of_fmap. by exists (k, room). }
      destruct (length (without socketId (room_players room0)) =? 0)%nat eqn:Hlen.
      * destruct (IH _ _ _ _ _ _ _ _ H Hnd Hin Hgone) as (Hk & Hg & Ht).
        split_and!; try done.
        intros gs h Hgs. apply Ht. by rewrite lookup_delete_ne.
      * destruct (leaveRooms socketId rest gss tos) as [[[rs1 gss1] tos1] out1] eqn:E.
        injection H as <- <- <- <-.
        destruct (IH _ _ _ _ _ _ _ _ E Hnd Hin Hgone) as (Hk & Hg & Ht).
        split_and!; try done.
        simpl. intros Hin'. apply elem_of_cons in Hin' as [?|?]; done.
Qed.

Lemma without_length socketId ps : (length (without socketId ps) <= length ps)%nat.
Proof. unfold without. apply List.filter_length_le. Qed.



Lemma handle_roomsOk s a s' out :
  roomsOk (rooms s) -> handle s a = Done s' out -> roomsOk (rooms s').
Proof.
  intros Hok.
  destruct a as [socketId playerName roomCode | socketId roomCode playerName
                | socketId roomCode gt rnd | socketId roomCode move gt rolled
                | socketId roomCode | socketId | h0]; simpl.
  - intros [= <- _]. simpl. apply roomsOk_mset; simpl; [done | done | lia].
  - unfold joinRoom. destruct (mget (rooms s) roomCode) as [room|] eqn:Hroom.
    + destruct (2 <=? length (room_players room))%nat eqn:Hfull; intros [= <- _]; [done|].
      simpl. apply Nat.leb_gt in Hfull.
      apply roomsOk_mset; simpl.
      * done.
      * intros Hnil. by apply app_eq_nil in Hnil as [_ ?].
      * rewrite length_app. simpl. lia.
    + by intros [= <- _].
  - unfold selectGame. destruct (mget (rooms s) roomCode) as [room|] eqn:Hroom.
    + destruct (roomsOk_mget _ _ _ Hok Hroom) as [Hne Hle].
      repeat case_match; intros [= <- _]; try done.
      simpl. by apply roomsOk_mset.
    + by intros [= <- _].
  - intros H. apply makeMove_rooms in H. by rewrite H.
  - unfold requestGameState. case_match; by intros [= <- _].
  - unfold disconnect.
    destruct (leaveRooms socketId (rooms s) (gameStates s) (timeouts s))
      as [[[rs gss] tos] out1] eqn:E.
    intros [= <- _]. simpl.
    apply leaveRooms_kept in E as (_ & Hnd & Hrooms & _ & _).
    destruct Hok as [Hnd0 Hall]. split; [auto|].
    apply Forall_forall. intros [k room'] Hin.
    destruct (Hrooms k room' Hin) as (room & Hroom & Hps & Hne).
    rewrite Forall_forall in Hall. destruct (Hall _ Hroom) as [_ Hle].
    simpl in *. split; [done|]. rewrite Hps.
    pose proof (without_length socketId (room_players room)). lia.
  - intros H. apply expire_rooms in H. by rewrite H.
Qed.

Lemma reachable_roomsOk s : reachable s -> roomsOk (rooms s).
Proof.
  induction 1 as [|s a s' out _ IH H].
  - split; [apply NoDup_nil_2 | apply Forall_nil_2].
  - by eapply handle_roomsOk.
Qed.



(** ** Expiry of the turn timer (C4) *)

Lemma startTurnTimer_running s roomCode gs d :
  gameStates s !! roomCode = Some gs ->
  gameOver gs = false ->
  startTurnTimer s roomCode d =
  {| rooms := rooms s;
     gameStates :=
       <[roomCode := set_timer (set_timeLeft (set_timerStarted gs true) (Some d))
                               (Some (S (nextHandle s)))]> (gameStates s);
     timeouts :=
       <[S (nextHandle s) := {| to_room := roomCode; to_duration := d;
                                to_countdown := nextHandle s |}]>
         (match timer gs with
          | Some h => delete h (timeouts s)
          | None => timeouts s
          end);
     intervals := <[nextHandle s := roomCode]> (intervals s);
     nextHandle := S (S (nextHandle s));
     sharedPlayers := sharedPlayers s |}.
Proof.
  intros Hgs Hover. unfold startTurnTimer. by rewrite Hgs, Hover.
Qed.

(** Handles are handed out in increasing order: every pending timeout has a
    handle below [nextHandle]. *)
Lemma startTurnTimer_handles s roomCode d :
  (forall h t, timeouts s !! h = Some t -> (h < nextHandle s)%nat) ->
  forall h t, timeouts (startTurnTimer s roomCode d) !! h = Some t ->
              (h < nextHandle (startTurnTimer s roomCode d))%nat.
Proof.
  intros Hs h t. unfold startTurnTimer.
  destruct (gameStates s !! roomCode) as [gs|]; [|apply Hs].
  destruct (gameOver gs); [apply Hs|]. simpl.
  intros H. apply lookup_insert_Some in H as [[<- _]|[_ H]]; [lia|].
  destruct (timer gs); [apply lookup_delete_Some in H as [_ H]|]; apply Hs in H; lia.
Qed.

Lemma startTurnTimer_nextHandle s roomCode d :
  (nextHandle s <= nextHandle (startTurnTimer s roomCode d))%nat.
Proof. unfold startTurnTimer. repeat case_match; simpl; lia. Qed.

Lemma skipTurn_handles s roomCode s' out :
  (forall h t, timeouts s !! h = Some t -> (h < nextHandle s)%nat) ->
  skipTurn s roomCode = Done s' out ->
  forall h t, timeouts s' !! h = Some t -> (h < nextHandle s')%nat.
Proof.
  intros Hs. unfold skipTurn.
  repeat case_match; intros [= <- _]; try exact Hs.
  by apply startTurnTimer_handles.
Qed.

Lemma handle_handles s a s' out :
  (forall h t, timeouts s !! h = Some t -> (h < nextHandle s)%nat) ->
  handle s a = Done s' out ->
  forall h t, timeouts s' !! h = Some t -> (h < nextHandle s')%nat.
Proof.
  intros Hs.
  destruct a as [socketId playerName roomCode | socketId roomCode playerName
                | socketId roomCode gt rnd | socketId roomCode move gt rolled
                | socketId roomCode | socketId | h0]; simpl.
  - intros [= <- _]. exact Hs.
  - unfold joinRoom. repeat case_match; intros [= <- _]; exact Hs.
  - unfold selectGame. repeat case_match; intros [= <- _]; exact Hs.
  - unfold makeMove.
    destruct (gameStates s !! roomCode) as [gs|]; [|intros [= <- _]; exact Hs].
    destruct (processMove gs move socketId gt rolled) as [[r|gs'|] cl]; try done.
    assert (forall h t, timeouts (set_gameStates (clearTimeouts s cl)
                                    (<[roomCode := res_gameState r]> (gameStates s))) !! h = Some t ->
                        (h < nextHandle s)%nat) as Hs1.
    { simpl. intros h t H. apply cleared_pending in H. eauto. }
    repeat case_match; intros [= <- _]; try exact Hs1.
    by apply startTurnTimer_handles.
  - unfold requestGameState. case_match; intros [= <- _]; exact Hs.
  - unfold disconnect.
    destruct (leaveRooms socketId (rooms s) (gameStates s) (timeouts s))
      as [[[rs gss] tos] out1] eqn:E.
    intros [= <- _]. simpl. intros h t H.
    apply leaveRooms_kept in E as (_ & _ & _ & _ & Htos). eauto.
  - unfold expire. destruct (timeouts s !! h0) as [t0|] eqn:Hh; [|intros [= <- _]; exact Hs].
    apply skipTurn_handles. simpl. intros h' t' H.
    apply lookup_delete_Some in H as [_ H]. eauto.
Qed.

Lemma reachable_handles s :
  reachable s -> forall h t, timeouts s !! h = Some t -> (h < nextHandle s)%nat.
Proof.
  induction 1 as [|s a s' out _ IH H].
  - intros h t H. simpl in H. by rewrite lookup_empty in H.
  - by eapply handle_handles.
Qed.



(** ** ludo: leaving home and forfeiting the roll (C8) *)

Lemma at_put_eq {A} (l : list A) i v x : at_ l i = Some x -> at_ (put l i v) i = Some v.
Proof.
  unfold at_, put. destruct (0 <=? i); [|done].
  intros H. apply list_lookup_insert_eq. by eapply lookup_lt_Some.
Qed.




(** ** connect4 and the turn timer (C9) *)

Lemma connect4_keeps_timer gs move playerId r cl :
  processConnect4Move gs move playerId = (Returned r, cl) ->
  cl = [] /\
  firstMoveMade (res_gameState r) = firstMoveMade gs /\
  timer (res_gameState r) = timer gs /\
  timerStarted (res_gameState r) = timerStarted gs.
Proof.
  unfold processConnect4Move, switchTurns. intros H.
  repeat case_match; simplify_eq; done.
Qed.

(** C9.  Handling a [makeMove] whose game type is connect4 never starts a
    turn timer: no timeout or interval is added and no handle is taken.  The
    connect4 handler passes nothing to [clearTimeout] and leaves
    [firstMoveMade], [timer] and [timerStarted] as they were, so
    [firstMoveMade] stays false through connect4 moves; and among the ten
    game types connect4 is the only one without a per-move duration. *)
Theorem C9_connect4_starts_no_timer :
  (forall s socketId roomCode move rolled s' out,
     makeMove s socketId roomCode move "connect4" rolled = Done s' out ->
     timeouts s' = timeouts s /\ intervals s' = intervals s /\
     nextHandle s' = nextHandle s) /\
  (forall gs move playerId r cl,
     processConnect4Move gs move playerId = (Returned r, cl) ->
     cl = [] /\
     firstMoveMade (res_gameState r) = firstMoveMade gs /\
     timer (res_gameState r) = timer gs /\
     timerStarted (res_gameState r) = timerStarted gs) /\
  (forall gameType k,
     gameKind gameType = Some k -> (turnDuration gameType = None <-> k = connect4)).
Proof.
  split; [|split].
  - intros s socketId roomCode move rolled s' out. unfold makeMove.
    destruct (gameStates s !! roomCode) as [gs|]; [|by intros [= <- _]].
    change (processMove gs move socketId "connect4" rolled)
      with (processConnect4Move gs move socketId).
    change (turnDuration "connect4") with (@None Z).
    destruct (processConnect4Move gs move socketId) as [[r|gs'|] cl] eqn:Hmove; try done.
    apply connect4_keeps_timer in Hmove as [-> _].
    repeat case_match; by intros [= <- _].
  - apply connect4_keeps_timer.
  - intros gameType k Hk. unfold turnDuration. rewrite Hk.
    destruct k; split; intros; done.
Qed.

Lemma C9_connect4_starts_no_timer_witness :
  exists s' out,
    makeMove (lobbyWith "connect4" []) "s-alice" "AB12CD" (dropIn 3) "connect4" 0
    = Done s' out /\
    out <> [] /\
    timeouts s' = timeouts (lobbyWith "connect4" []) /\
    intervals s' = intervals (lobbyWith "connect4" []) /\
    nextHandle s' = nextHandle (lobbyWith "connect4" []).
Proof.
  destruct (makeMove (lobbyWith "connect4" []) "s-alice" "AB12CD" (dropIn 3) "connect4" 0)
    as [s' out| |] eqn:E; [|vm_compute in E; discriminate E ..].
  exists s', out. split; [reflexivity|]. split.
  - vm_compute in E. injection E as _ <-. discriminate.
  - destruct C9_connect4_starts_no_timer as (Hmove & _ & _). exact (Hmove _ _ _ _ _ _ _ E).
Defined.

(** ** memorymatch: the first flip (C10) *)

Lemma decideByScore_currentPlayer gs scores gs' :
  decideByScore gs scores = Some gs' -> currentPlayer gs' = currentPlayer gs.
Proof.
  unfold decideByScore. intros H.
  repeat case_match; simplify_option_eq; done.
Qed.

(** C10.  In memorymatch, flipping the first card of an attempt (nothing
    pending in [flippedCards], the card exists, face down and unmatched, the
    acting player is [currentPlayer], the game is not over) is accepted with
    [valid: true] and no extra field, records the card as pending and leaves
    [currentPlayer] as it was.  Moreover no return of the handler changes
    [currentPlayer], second flips included. *)
Theorem C10_first_flip_keeps_turn :
  (forall gs b move playerId card,
     board gs = MemoryMatchBoard b ->
     flippedCards b = [] ->
     at_ (cards b) (mv_cardIndex move) = Some card ->
     flipped card = false -> matched card = false ->
     currentPlayer gs = playerId -> gameOver gs = false ->
     exists r cl b',
       processMemoryMatchMove gs move playerId = (Returned r, cl) /\
       valid r = true /\ extra r = [] /\
       currentPlayer (res_gameState r) = currentPlayer gs /\
       board (res_gameState r) = MemoryMatchBoard b' /\
       flippedCards b' = [mv_cardIndex move]) /\
  (forall gs move playerId r cl,
     processMemoryMatchMove gs move playerId = (Returned r, cl) ->
     currentPlayer (res_gameState r) = currentPlayer gs).
Proof.
  split.
  - intros gs b move playerId card Hb Hnone Hcard Hfl Hma Hturn Hover.
    unfold processMemoryMatchMove.
    rewrite (current_guard _ _ Hturn), Hover, Hb. simpl.
    destruct (clearExistingTimer gs) as [gs1 cl] eqn:Hc.
    apply clearExistingTimer_spec in Hc as [-> _]. simpl.
    rewrite Hcard, Hfl, Hma, Hnone. simpl.
    eexists _, _, _. split; [reflexivity|]. done.
  - intros gs move playerId r cl H. unfold processMemoryMatchMove in H.
    open_handler H. cbv beta iota zeta in H.
    repeat (head_step H; try done).
    match goal with
    | Hd : decideByScore _ _ = Some _ |- _ => apply decideByScore_currentPlayer in Hd
    end.
    simpl in *. congruence.
Qed.

Lemma C10_first_flip_keeps_turn_witness :
  exists r cl b',
    processMemoryMatchMove (initialState "memorymatch" shuffleDraws) (flipCard 0) "s-alice"
    = (Returned r, cl) /\
    valid r = true /\ extra r = [] /\
    currentPlayer (res_gameState r) = "s-alice" /\
    board (res_gameState r) = MemoryMatchBoard b' /\
    flippedCards b' = [0].
Proof.
  destruct C10_first_flip_keeps_turn as [Hfirst _].
  eapply (Hfirst (initialState "memorymatch" shuffleDraws)).
  - reflexivity.
  - reflexivity.
  - vm_compute. reflexivity.
  - reflexivity.
  - reflexivity.
  - reflexivity.
  - reflexivity.
Defined.

(** * Further properties of the handlers *)

(** ** What every handler does to the shared fields *)

Lemma at_elem {A} (l : list A) i x : at_ l i = Some x -> x ∈ l.
Proof.
  unfold at_. destruct (0 <=? i); [|done]. apply list_elem_of_lookup_2.
Qed.

Lemma otherPlayer_elem ps playerId o :
  otherPlayer ps playerId = Some o -> exists p, p ∈ ps /\ o = p_id p.
Proof.
  unfold otherPlayer. destruct (at_ ps _) as [p|] eqn:E; [|done].
  intros [= <-]. exists p. split; [by eapply at_elem|done].
Qed.

Lemma clearExistingTimer_recorded gs :
  clearExistingTimer gs = (set_timer gs None, recorded gs).
Proof.
  unfold clearExistingTimer, recorded. destruct (timer gs) eqn:E; [done|].
  by rewrite <- E, set_timer_same.
Qed.

Lemma keptByMove_refl gs : keptByMove gs gs.
Proof. by repeat split. Qed.

Lemma decideByScore_fields gs scores gs' :
  decideByScore gs scores = Some gs' ->
  players gs' = players gs /\ gameType gs' = gameType gs /\
  timerStarted gs' = timerStarted gs /\ timeLeft gs' = timeLeft gs /\
  gameOver gs' = gameOver gs /\ timer gs' = timer gs /\
  currentPlayer gs' = currentPlayer gs /\ firstMoveMade gs' = firstMoveMade gs /\
  board gs' = board gs /\
  (winner gs' = winner gs \/ exists p, p ∈ players gs /\ winner gs' = Some (p_id p)) /\
  (draw gs' = draw gs \/ draw gs' = true).
Proof.
  unfold decideByScore. intros H.
  repeat case_match; simplify_option_eq; split_and!; eauto using @at_elem.
Qed.

(** The record projections and field updates, and nothing else. *)
Ltac fields :=
  cbn [players currentPlayer gameType board winner gameOver timer timerStarted
       firstMoveMade phase draw timeLeft
       set_currentPlayer set_board set_winner set_gameOver set_players set_timer
       set_timerStarted set_firstMoveMade set_phase set_draw set_timeLeft
       res_gameState accept reject valid extra] in *.

(** One step through a handler, whatever it ends in: splits on the value read
    at the head of the remaining code and opens the shared blocks. *)
Ltac outcome_step :=
  match goal with
  | H : (_, _) = (_, _) |- _ => injection H as ? ?; subst
  | H : match ?x with _ => _ end = (_, _) |- _ =>
      destruct x eqn:?; cbv beta iota zeta in H
  | H : stateAfter (Returned _) = Some _ |- _ => injection H as ?; subst
  | H : stateAfter (Threw _) = Some _ |- _ => injection H as ?; subst
  | H : stateAfter Unmodelled = Some _ |- _ => discriminate H
  | H : stateAfter (switchTurns _ _ _) = Some _ |- _ => unfold switchTurns in H
  | H : stateAfter (finishDots _ _ _) = Some _ |- _ =>
      unfold finishDots in H; cbv beta iota zeta in H
  | H : stateAfter (match ?x with _ => _ end) = Some _ |- _ =>
      destruct x eqn:?; cbv beta iota zeta in H
  end.

Ltac use_scores :=
  repeat match goal with
         | Hd : decideByScore _ _ = Some _ |- _ =>
             apply decideByScore_fields in Hd; fields;
             destruct Hd as (? & ? & ? & ? & ? & ? & ? & ? & ? & ? & ?)
         end.

Ltac outcome_cases H :=
  rewrite ?clearExistingTimer_recorded in H;
  cbv beta iota zeta in H; repeat outcome_step; use_scores; fields.

Ltac kept :=
  unfold keptByMove; fields; split_and!; try congruence;
  try (intros Hover;
       repeat match goal with
              | Hg : _ || gameOver _ = false |- _ =>
                  apply orb_false_elim in Hg; destruct Hg
              end;
       congruence).

Ltac by_players :=
  first [ eexists; split; [eapply at_elem; eassumption | reflexivity]
        | match goal with
          | H : otherPlayer _ _ = Some _ |- _ =>
              apply otherPlayer_elem in H as (? & ? & ->); eauto
          end ].

Ltac moved :=
  unfold movedBy, timerCleared, turnPassed, verdictGiven;
  split; [kept|]; fields;
  split_and!;
  first [ by left | by right | by (left; congruence) | by (right; congruence)
        | by (right; split; [done|]; eauto)
        | by (right; split; [congruence|]; eauto)
        | by (right; split; [done|]; right; by_players)
        | by (right; split; [congruence|]; right; by_players)
        | by (match goal with H : _ \/ _ |- _ => destruct H end;
              [left; congruence | right; split; [congruence|]; eauto])
        | by (match goal with H : _ \/ _ |- _ => destruct H as [?|(? & ? & ?)] end;
              [left; congruence | right; split; [congruence|]; right; eauto])
        | idtac ].

Lemma tictactoe_moved gs move playerId o cl gs' :
  processTicTacToeMove gs move playerId = (o, cl) ->
  stateAfter o = Some gs' -> movedBy playerId gs gs' cl.
Proof.
  unfold processTicTacToeMove. intros H Ho. outcome_cases H; moved.
Qed.

Lemma connect4_moved gs move playerId o cl gs' :
  processConnect4Move gs move playerId = (o, cl) ->
  stateAfter o = Some gs' -> movedBy playerId gs gs' cl.
Proof.
  unfold processConnect4Move. intros H Ho. outcome_cases H; moved.
Qed.

Lemma gomoku_moved gs move playerId o cl gs' :
  processGomokuMove gs move playerId = (o, cl) ->
  stateAfter o = Some gs' -> movedBy playerId gs gs' cl.
Proof.
  unfold processGomokuMove. intros H Ho. outcome_cases H; moved.
Qed.

Lemma dots_moved gs move playerId o cl gs' :
  processDotsAndBoxesMove gs move playerId = (o, cl) ->
  stateAfter o = Some gs' -> movedBy playerId gs gs' cl.
Proof.
  unfold processDotsAndBoxesMove. intros H Ho. outcome_cases H; moved.
Qed.

Lemma ludo_moved gs move playerId rolled o cl gs' :
  processLudoMove gs move playerId rolled = (o, cl) ->
  stateAfter o = Some gs' -> movedBy playerId gs gs' cl.
Proof.
  unfold processLudoMove. intros H Ho. outcome_cases H; moved.
Qed.

Lemma minichess_moved gs move playerId o cl gs' :
  processMiniChessMove gs move playerId = (o, cl) ->
  stateAfter o = Some gs' -> movedBy playerId gs gs' cl.
Proof.
  unfold processMiniChessMove. intros H Ho. outcome_cases H; moved.
Qed.

Lemma memorymatch_moved gs move playerId o cl gs' :
  processMemoryMatchMove gs move playerId = (o, cl) ->
  stateAfter o = Some gs' -> movedBy playerId gs gs' cl.
Proof.
  unfold processMemoryMatchMove. intros H Ho. outcome_cases H; moved.
Qed.

Lemma minesweeper_moved gs move playerId o cl gs' :
  processMinesweeperMove gs move playerId = (o, cl) ->
  stateAfter o = Some gs' -> movedBy playerId gs gs' cl.
Proof.
  unfold processMinesweeperMove. intros H Ho. outcome_cases H; moved.
Qed.

Lemma checkers_moved gs move playerId o cl gs' :
  processCheckersMove gs move playerId = (o, cl) ->
  stateAfter o = Some gs' -> movedBy playerId gs gs' cl.
Proof.
  unfold processCheckersMove. intros H Ho. outcome_cases H; moved.
Qed.

Lemma battleship_moved gs move playerId o cl gs' :
  processBattleshipMove gs move playerId = (o, cl) ->
  stateAfter o = Some gs' -> movedBy playerId gs gs' cl.
Proof.
  unfold processBattleshipMove, processBattleshipSetup, processBattleshipShot.
  intros H Ho. outcome_cases H; try case_match; moved.
Qed.

Lemma processMove_moved gs move playerId gameType rolled o cl gs' :
  processMove gs move playerId gameType rolled = (o, cl) ->
  stateAfter o = Some gs' -> movedBy playerId gs gs' cl.
Proof.
  unfold processMove. intros H Ho.
  destruct (gameKind gameType) as [[]|];
    eauto using tictactoe_moved, connect4_moved, checkers_moved, battleship_moved,
      gomoku_moved, dots_moved, ludo_moved, minichess_moved,
      memorymatch_moved, minesweeper_moved.
  injection H as <- <-. injection Ho as <-.
  unfold movedBy, timerCleared, turnPassed, verdictGiven.
  split; [apply keptByMove_refl|]. split_and!; by left.
Qed.

(** The same walk for a handler that is known to have returned. *)
Ltac returned_step :=
  match goal with
  | H : (_, _) = (Returned _, _) |- _ => injection H as ? ?; subst
  | H : match ?x with _ => _ end = (Returned _, _) |- _ =>
      destruct x eqn:?; cbv beta iota zeta in H
  | H : Returned _ = Returned _ |- _ => injection H as ?; subst
  | H : Threw _ = Returned _ |- _ => discriminate H
  | H : Unmodelled = Returned _ |- _ => discriminate H
  | H : switchTurns _ _ _ = Returned _ |- _ => unfold switchTurns in H
  | H : finishDots _ _ _ = Returned _ |- _ =>
      unfold finishDots in H; cbv beta iota zeta in H
  | H : match ?x with _ => _ end = Returned _ |- _ =>
      destruct x eqn:?; cbv beta iota zeta in H
  end.

Ltac returned_cases H :=
  rewrite ?clearExistingTimer_recorded in H;
  cbv beta iota zeta in H; repeat returned_step; use_scores; fields.

Lemma tictactoe_accepted gs move playerId r cl :
  processTicTacToeMove gs move playerId = (Returned r, cl) -> valid r = true ->
  firstMoveMade (res_gameState r) = true.
Proof.
  unfold processTicTacToeMove. intros H Hv. returned_cases H; done.
Qed.

Lemma gomoku_accepted gs move playerId r cl :
  processGomokuMove gs move playerId = (Returned r, cl) -> valid r = true ->
  firstMoveMade (res_gameState r) = true.
Proof.
  unfold processGomokuMove. intros H Hv. returned_cases H; done.
Qed.

Lemma dots_accepted gs move playerId r cl :
  processDotsAndBoxesMove gs move playerId = (Returned r, cl) -> valid r = true ->
  firstMoveMade (res_gameState r) = true.
Proof.
  unfold processDotsAndBoxesMove. intros H Hv. returned_cases H; done.
Qed.

Lemma minichess_accepted gs move playerId r cl :
  processMiniChessMove gs move playerId = (Returned r, cl) -> valid r = true ->
  firstMoveMade (res_gameState r) = true.
Proof.
  unfold processMiniChessMove. intros H Hv. returned_cases H; done.
Qed.

Lemma memorymatch_accepted gs move playerId r cl :
  processMemoryMatchMove gs move playerId = (Returned r, cl) -> valid r = true ->
  firstMoveMade (res_gameState r) = true.
Proof.
  unfold processMemoryMatchMove. intros H Hv. returned_cases H; done.
Qed.

Lemma minesweeper_accepted gs move playerId r cl :
  processMinesweeperMove gs move playerId = (Returned r, cl) -> valid r = true ->
  firstMoveMade (res_gameState r) = true.
Proof.
  unfold processMinesweeperMove. intros H Hv. returned_cases H; done.
Qed.

Lemma checkers_accepted gs move playerId r cl :
  processCheckersMove gs move playerId = (Returned r, cl) -> valid r = true ->
  firstMoveMade (res_gameState r) = true.
Proof.
  unfold processCheckersMove. intros H Hv. returned_cases H; done.
Qed.

Lemma processMove_accepted gs move playerId gameType rolled r cl k :
  processMove gs move playerId gameType rolled = (Returned r, cl) -> valid r = true ->
  gameKind gameType = Some k -> k <> connect4 -> k <> ludo -> k <> battleship ->
  firstMoveMade (res_gameState r) = true.
Proof.
  intros H Hv Hk Hc Hl Hb. unfold processMove in H. rewrite Hk in H.
  destruct k; try done;
    eauto using tictactoe_accepted, checkers_accepted, gomoku_accepted, dots_accepted,
      minichess_accepted, memorymatch_accepted, minesweeper_accepted.
Qed.

Lemma startTurnTimer_timeouts s roomCode gs d :
  gameStates s !! roomCode = Some gs ->
  gameOver gs = false ->
  timeouts (startTurnTimer s roomCode d)
  = <[S (nextHandle s) := {| to_room := roomCode; to_duration := d;
                             to_countdown := nextHandle s |}]>
      (foldr delete (timeouts s) (recorded gs)).
Proof.
  intros Hgs Hover. rewrite (startTurnTimer_running _ _ _ _ Hgs Hover). simpl.
  unfold recorded. by destruct (timer gs).
Qed.

(** X1.  Whatever the game type, the move and the player, and whether the
    handler returns or throws, the state it leaves has the [players],
    [gameType], [timerStarted] and [timeLeft] it was given, and a game that
    was over is still over. *)
Theorem processMove_keeps_shared_fields gs move playerId gameType rolled o cl gs' :
  processMove gs move playerId gameType rolled = (o, cl) ->
  stateAfter o = Some gs' ->
  keptByMove gs gs'.
Proof.
  intros H Ho. by destruct (processMove_moved _ _ _ _ _ _ _ _ H Ho) as (? & _).
Qed.

Lemma processMove_keeps_shared_fields_witness :
  exists r cl,
    processMove (stateOf gomokuServer) (cellIndex 17) "s-alice" "gomoku" 0 = (Returned r, cl) /\
    keptByMove (stateOf gomokuServer) (res_gameState r).
Proof.
  eexists _, _. split; [vm_compute; reflexivity|].
  eapply (processMove_keeps_shared_fields (stateOf gomokuServer) (cellIndex 17)
            "s-alice" "gomoku" 0).
  - vm_compute. reflexivity.
  - reflexivity.
Defined.

(** X2.  A handler passes to [clearTimeout] nothing but the timeout recorded
    in the state it was given, and then the state it leaves records none;
    otherwise it clears nothing and leaves [timer] as it was.  This holds
    whether the handler returns or throws. *)
Theorem processMove_clears_only_recorded_timer gs move playerId gameType rolled o cl gs' :
  processMove gs move playerId gameType rolled = (o, cl) ->
  stateAfter o = Some gs' ->
  (timer gs' = timer gs /\ cl = []) \/ (timer gs' = None /\ cl = recorded gs).
Proof.
  intros H Ho. by destruct (processMove_moved _ _ _ _ _ _ _ _ H Ho) as (_ & ? & _).
Qed.

Lemma processMove_clears_only_recorded_timer_witness :
  exists r,
    processMove (stateOf gomokuServer) (cellIndex 17) "s-alice" "gomoku" 0
    = (Returned r, [3%nat]) /\
    timer (stateOf gomokuServer) = Some 3%nat /\
    ((timer (res_gameState r) = timer (stateOf gomokuServer) /\ [3%nat] = []) \/
     (timer (res_gameState r) = None /\ [3%nat] = recorded (stateOf gomokuServer))).
Proof.
  eexists. split; [vm_compute; reflexivity|]. split; [vm_compute; reflexivity|].
  eapply (processMove_clears_only_recorded_timer (stateOf gomokuServer) (cellIndex 17)
            "s-alice" "gomoku" 0).
  - vm_compute. reflexivity.
  - reflexivity.
Defined.

(** X3.  After a handler has run, [currentPlayer] is who it was or the
    player listed beside the mover in [players]; no handler gives the turn to
    anyone else. *)
Theorem processMove_turn_stays_or_passes gs move playerId gameType rolled o cl gs' :
  processMove gs move playerId gameType rolled = (o, cl) ->
  stateAfter o = Some gs' ->
  currentPlayer gs' = currentPlayer gs \/
  otherPlayer (players gs) playerId = Some (currentPlayer gs').
Proof.
  intros H Ho. by destruct (processMove_moved _ _ _ _ _ _ _ _ H Ho) as (_ & _ & ? & _).
Qed.

Lemma processMove_turn_stays_or_passes_witness :
  exists r cl,
    processMove (stateOf gomokuServer) (cellIndex 17) "s-alice" "gomoku" 0 = (Returned r, cl) /\
    currentPlayer (res_gameState r) = "s-bob" /\
    (currentPlayer (res_gameState r) = currentPlayer (stateOf gomokuServer) \/
     otherPlayer (players (stateOf gomokuServer)) "s-alice"
     = Some (currentPlayer (res_gameState r))).
Proof.
  eexists _, _. split; [vm_compute; reflexivity|]. split; [reflexivity|].
  eapply (processMove_turn_stays_or_passes (stateOf gomokuServer) (cellIndex 17)
            "s-alice" "gomoku" 0).
  - vm_compute. reflexivity.
  - reflexivity.
Defined.

(** X4.  A handler changes [winner] or [draw] only in a state it leaves with
    [gameOver] set, and the winner it names is the mover or one of the listed
    players. *)
Theorem processMove_verdict_ends_game gs move playerId gameType rolled o cl gs' :
  processMove gs move playerId gameType rolled = (o, cl) ->
  stateAfter o = Some gs' ->
  (winner gs' = winner gs \/
   gameOver gs' = true /\
   (winner gs' = Some playerId \/
    exists p, p ∈ players gs /\ winner gs' = Some (p_id p))) /\
  (draw gs' = draw gs \/ gameOver gs' = true /\ draw gs' = true).
Proof.
  intros H Ho. by destruct (processMove_moved _ _ _ _ _ _ _ _ H Ho) as (_ & _ & _ & ?).
Qed.

Lemma processMove_verdict_ends_game_witness :
  exists r cl,
    processMove (initialState "minesweeper" mineDraws) (cellAt 0 0) "s-alice" "minesweeper" 0
    = (Returned r, cl) /\
    winner (res_gameState r) = Some "s-bob" /\
    gameOver (res_gameState r) = true.
Proof.
  eexists _, _. split; [vm_compute; reflexivity|]. split; [reflexivity|].
  edestruct (processMove_verdict_ends_game (initialState "minesweeper" mineDraws)
               (cellAt 0 0) "s-alice" "minesweeper" 0) as [[Hw|[Hover _]] _].
  - vm_compute. reflexivity.
  - reflexivity.
  - vm_compute in Hw. discriminate Hw.
  - exact Hover.
Defined.

(** X5.  A finished game is frozen for every game type but connect4 and for
    battleship outside its setup phase: once [gameOver] is set, any move of
    any player is answered [valid: false] with the state untouched, its timer
    included, and nothing is cleared.  (The other case is a tictactoe move on
    a board that is not a tictactoe board, to which the embedding gives no
    meaning.) *)
Theorem finished_game_is_frozen gs move playerId gameType rolled :
  gameOver gs = true ->
  gameKind gameType <> Some connect4 ->
  ~ (gameKind gameType = Some battleship /\ phase gs = Some "setup") ->
  processMove gs move playerId gameType rolled = (Returned (reject gs), []) \/
  processMove gs move playerId gameType rolled = (Unmodelled, []).
Proof.
  intros Hover Hc Hb. unfold processMove.
  destruct (gameKind gameType) as [k|] eqn:Hk; [|by left].
  destruct k; try done.
  - unfold processTicTacToeMove.
    destruct (negb _); [by left|]. destruct (board gs); auto.
    rewrite Hover, orb_true_r. by left.
  - unfold processCheckersMove. rewrite Hover, orb_true_r. by left.
  - unfold processBattleshipMove. rewrite bool_decide_eq_false_2 by tauto.
    unfold processBattleshipShot. rewrite Hover, orb_true_r. by left.
  - unfold processGomokuMove. rewrite Hover, orb_true_r. by left.
  - unfold processDotsAndBoxesMove. rewrite Hover, orb_true_r. by left.
  - unfold processLudoMove. rewrite Hover, orb_true_r. by left.
  - unfold processMiniChessMove. rewrite Hover, orb_true_r. by left.
  - unfold processMemoryMatchMove. rewrite Hover, orb_true_r. by left.
  - unfold processMinesweeperMove. rewrite Hover, orb_true_r. by left.
Qed.

Lemma finished_game_is_frozen_witness :
  let gs := set_timer (set_gameOver (initialState "gomoku" []) true) (Some 3%nat) in
  processMove gs (cellIndex 17) "s-alice" "gomoku" 0 = (Returned (reject gs), []) \/
  processMove gs (cellIndex 17) "s-alice" "gomoku" 0 = (Unmodelled, []).
Proof.
  apply finished_game_is_frozen.
  - reflexivity.
  - vm_compute. discriminate.
  - vm_compute. intros [H _]. discriminate H.
Defined.

(** X6.  [makeMove] and the timer.  When the handler accepts a move that
    does not end the game, in any game type but connect4, [makeMove]
    broadcasts the result and leaves exactly one new turn timer behind: the
    stored state is the handler's with [timerStarted], [timeLeft] the
    per-move duration and [timer] the new handle; the timeout recorded in the
    state before the move is no longer pending and the new one is, with that
    duration; one interval is added and two handles are used.  Every accepted
    move sets [firstMoveMade], except a ludo [movePiece] and a battleship
    move, where the flag must already be (or be being) set. *)
Theorem makeMove_starts_one_timer s socketId roomCode move gameType rolled gs r cl k :
  gameStates s !! roomCode = Some gs ->
  processMove gs move socketId gameType rolled = (Returned r, cl) ->
  valid r = true ->
  gameOver (res_gameState r) = false ->
  gameKind gameType = Some k -> k <> connect4 ->
  (k = ludo \/ k = battleship -> firstMoveMade (res_gameState r) = true) ->
  exists s' d,
    turnDuration gameType = Some d /\
    makeMove s socketId roomCode move gameType rolled
    = Done s' [Emit (ToRoom roomCode) (ev_gameUpdate r)] /\
    gameStates s'
    = <[roomCode := set_timer (set_timeLeft (set_timerStarted (res_gameState r) true) (Some d))
                              (Some (S (nextHandle s)))]> (gameStates s) /\
    timeouts s'
    = <[S (nextHandle s) := {| to_room := roomCode; to_duration := d;
                               to_countdown := nextHandle s |}]>
        (foldr delete (timeouts s) (recorded gs)) /\
    intervals s' = <[nextHandle s := roomCode]> (intervals s) /\
    nextHandle s' = S (S (nextHandle s)).
Proof.
  intros Hgs Hmove Hv Hover Hk Hc Hfirst.
  assert (firstMoveMade (res_gameState r) = true) as Hfm.
  { destruct k; try (by apply Hfirst; auto); try done;
      by eapply processMove_accepted. }
  assert (exists d, turnDuration gameType = Some d) as [d Hd].
  { unfold turnDuration. rewrite Hk. destruct k; try done; eauto. }
  destruct (processMove_moved _ _ _ _ _ _ _ _ Hmove eq_refl) as (_ & Htimer & _).
  set (s1 := set_gameStates (clearTimeouts s cl)
                            (<[roomCode := res_gameState r]> (gameStates s))).
  assert (gameStates s1 !! roomCode = Some (res_gameState r)) as Hgs1
    by (subst s1; simpl; apply lookup_insert_eq).
  exists (startTurnTimer s1 roomCode d), d. split; [done|]. split.
  { unfold makeMove. rewrite Hgs, Hmove, Hv, Hover, Hfm, Hd. done. }
  rewrite (startTurnTimer_timeouts _ _ _ _ Hgs1 Hover).
  rewrite (startTurnTimer_running _ _ _ _ Hgs1 Hover). subst s1. simpl.
  split; [apply insert_insert_eq|]. split; [|done].
  f_equal. unfold recorded.
  destruct Htimer as [[-> ->]|[-> ->]]; unfold recorded; simpl; [done|].
  by destruct (timer gs).
Qed.

Lemma makeMove_starts_one_timer_witness :
  exists s',
    makeMove gomokuServer "s-alice" "AB12CD" (cellIndex 17) "gomoku" 0
    = Done s' [Emit (ToRoom "AB12CD")
                    (ev_gameUpdate
                       (default (reject (stateOf gomokuServer))
                          (match (processMove (stateOf gomokuServer) (cellIndex 17)
                                              "s-alice" "gomoku" 0).1 with
                           | Returned r => Some r
                           | _ => None
                           end)))] /\
    timeouts gomokuServer !! 3%nat
    = Some {| to_room := "AB12CD"; to_duration := 5; to_countdown := 2%nat |} /\
    timeouts s' !! 3%nat = None /\
    timeouts s' !! 5%nat
    = Some {| to_room := "AB12CD"; to_duration := 5; to_countdown := 4%nat |}.
Proof.
  edestruct (makeMove_starts_one_timer gomokuServer "s-alice" "AB12CD" (cellIndex 17)
               "gomoku" 0 (stateOf gomokuServer))
    as (s' & d & Hd & Hmake & _ & Htos & _).
  - vm_compute. reflexivity.
  - vm_compute. reflexivity.
  - reflexivity.
  - reflexivity.
  - vm_compute. reflexivity.
  - discriminate.
  - intros [H|H]; discriminate H.
  - exists s'. split; [exact Hmake|]. split; [vm_compute; reflexivity|].
    vm_compute in Hd. injection Hd as <-.
    rewrite Htos. split; vm_compute; reflexivity.
Defined.

(** * Further properties of the server *)

(** ** [disconnect] *)

Lemma without_idem socketId ps : without socketId (without socketId ps) = without socketId ps.
Proof.
  unfold without. induction ps as [|p ps IH]; simpl; [done|].
  destruct (negb (String.eqb (p_id p) socketId)) eqn:E; simpl; [|done].
  by rewrite E, IH.
Qed.

Lemma without_absent socketId ps :
  Forall (fun p => p_id p <> socketId) ps -> without socketId ps = ps.
Proof.
  unfold without. induction 1 as [|p ps Hp _ IH]; simpl; [done|].
  apply String.eqb_neq in Hp. rewrite Hp. simpl. by rewrite IH.
Qed.

(** [playerLeft] goes to every room that is kept, in the order of the map. *)
Lemma leaveRooms_out socketId entries : forall gss tos rs gss' tos' out,
  leaveRooms socketId entries gss tos = (rs, gss', tos', out) ->
  out = (fun e => Emit (ToRoom e.1) (ev_playerLeft (room_players e.2))) <$> rs.
Proof.
  induction entries as [|[roomCode room] rest IH]; simpl; intros gss tos rs gss' tos' out H.
  - by injection H as <- <- <- <-.
  - destruct (length (without socketId (room_players room)) =? 0)%nat; [by eapply IH|].
    destruct (leaveRooms socketId rest gss tos) as [[[rs1 gss1] tos1] out1] eqn:E.
    injection H as <- <- <- <-. simpl. f_equal. by eapply IH.
Qed.

(** A room without the leaving socket is kept as it is. *)
Lemma leaveRooms_untouched socketId entries : forall gss tos rs gss' tos' out k room,
  leaveRooms socketId entries gss tos = (rs, gss', tos', out) ->
  (k, room) ∈ entries ->
  room_players room <> [] ->
  Forall (fun p => p_id p <> socketId) (room_players room) ->
  (k, room) ∈ rs.
Proof.
  induction entries as [|[roomCode room0] rest IH]; simpl;
    intros gss tos rs gss' tos' out k room H Hin Hne Hall.
  - by apply elem_of_nil in Hin.
  - apply elem_of_cons in Hin as [[= <- <-]|Hin].
    + rewrite (without_absent _ _ Hall) in H.
      destruct (length (room_players room) =? 0)%nat eqn:Hlen.
      { apply Nat.eqb_eq, nil_length_inv in Hlen. done. }
      destruct (leaveRooms socketId rest gss tos) as [[[rs1 gss1] tos1] out1] eqn:E.
      injection H as <- <- <- <-. destruct room. apply list_elem_of_here.
    + destruct (length (without socketId (room_players room0)) =? 0)%nat; [by eapply IH|].
      destruct (leaveRooms socketId rest gss tos) as [[[rs1 gss1] tos1] out1] eqn:E.
      injection H as <- <- <- <-. apply list_elem_of_further. by eapply IH.
Qed.

(** Running the loop again on what it left changes nothing. *)
Lemma leaveRooms_again socketId entries : forall gss tos rs gss' tos' out,
  leaveRooms socketId entries gss tos = (rs, gss', tos', out) ->
  leaveRooms socketId rs gss' tos' = (rs, gss', tos', out).
Proof.
  induction entries as [|[roomCode room] rest IH]; simpl; intros gss tos rs gss' tos' out H.
  - by injection H as <- <- <- <-.
  - destruct (length (without socketId (room_players room)) =? 0)%nat eqn:Hlen;
      [by eapply IH|].
    destruct (leaveRooms socketId rest gss tos) as [[[rs1 gss1] tos1] out1] eqn:E.
    injection H as <- <- <- <-. simpl.
    rewrite without_idem, Hlen, (IH _ _ _ _ _ _ E). done.
Qed.

(** X7.  [disconnect] tells every room it keeps that a player left, in the
    order of the [rooms] map and with the players the room has afterwards,
    whether or not the leaving socket was in the room; a room that did not
    hold the socket is kept as it was. *)
Theorem disconnect_notifies_every_room s socketId s' out :
  disconnect s socketId = Done s' out ->
  out = (fun e => Emit (ToRoom e.1) (ev_playerLeft (room_players e.2))) <$> rooms s' /\
  (forall roomCode room,
     (roomCode, room) ∈ rooms s ->
     room_players room <> [] ->
     Forall (fun p => p_id p <> socketId) (room_players room) ->
     (roomCode, room) ∈ rooms s').
Proof.
  unfold disconnect.
  destruct (leaveRooms socketId (rooms s) (gameStates s) (timeouts s))
    as [[[rs gss] tos] out1] eqn:E.
  intros [= <- <-]. simpl. split.
  - by eapply leaveRooms_out.
  - intros roomCode room. by eapply leaveRooms_untouched.
Qed.

Lemma disconnect_notifies_every_room_witness :
  exists s',
    disconnect fullLobby "s-carol" = Done s' [Emit (ToRoom "AB12CD") (ev_playerLeft [alice; bob])] /\
    ("AB12CD", lobby) ∈ rooms s'.
Proof.
  destruct (disconnect fullLobby "s-carol") as [s' out| |] eqn:E;
    [|vm_compute in E; discriminate E ..].
  destruct (disconnect_notifies_every_room _ _ _ _ E) as [Hout Hkept].
  exists s'. split.
  - rewrite Hout. vm_compute in E. injection E as <- _. reflexivity.
  - apply Hkept.
    + vm_compute. apply list_elem_of_here.
    + discriminate.
    + repeat constructor; discriminate.
Defined.

(** X8.  [disconnect] is idempotent: a second [disconnect] of the same
    socket leaves the state the first one left, and sends the same
    [playerLeft] events again. *)
Theorem disconnect_twice s socketId s' out :
  disconnect s socketId = Done s' out ->
  disconnect s' socketId = Done s' out.
Proof.
  unfold disconnect.
  destruct (leaveRooms socketId (rooms s) (gameStates s) (timeouts s))
    as [[[rs gss] tos] out1] eqn:E.
  intros [= <- <-]. simpl. by rewrite (leaveRooms_again _ _ _ _ _ _ _ _ E).
Qed.

Lemma disconnect_twice_witness :
  exists s',
    disconnect gomokuServer "s-bob" = Done s' [Emit (ToRoom "AB12CD") (ev_playerLeft [alice])] /\
    disconnect s' "s-bob" = Done s' [Emit (ToRoom "AB12CD") (ev_playerLeft [alice])].
Proof.
  destruct (disconnect gomokuServer "s-bob") as [s' out| |] eqn:E;
    [|vm_compute in E; discriminate E ..].
  assert (out = [Emit (ToRoom "AB12CD") (ev_playerLeft [alice])]) as ->.
  { vm_compute in E. by injection E as _ <-. }
  exists s'. split; [reflexivity|]. exact (disconnect_twice _ _ _ _ E).
Defined.

(** ** Board shapes through the handlers *)

Ltac shaped :=
  split_and!; intros; try discriminate; fields;
  repeat match goal with
         | H : board _ = _ |- _ => rewrite H
         | H : _ || gameOver _ = false |- _ => apply orb_false_elim in H as [? ?]
         end;
  cbn [boardKind]; auto; try congruence.

Lemma tictactoe_shape gs move playerId r cl :
  processTicTacToeMove gs move playerId = (Returned r, cl) ->
  boardKind (board (res_gameState r)) = boardKind (board gs) /\
  (valid r = true -> boardKind (board gs) = Some tictactoe) /\
  (gameOver (res_gameState r) = true -> gameOver gs = true \/ timer (res_gameState r) = None).
Proof.
  unfold processTicTacToeMove. intros H. returned_cases H; shaped.
Qed.

Lemma connect4_shape gs move playerId r cl :
  processConnect4Move gs move playerId = (Returned r, cl) ->
  boardKind (board (res_gameState r)) = boardKind (board gs) /\
  (valid r = true -> boardKind (board gs) = Some connect4) /\
  (gameOver (res_gameState r) = true -> gameOver gs = true \/ valid r = true).
Proof.
  unfold processConnect4Move. intros H. returned_cases H; shaped.
Qed.

Lemma gomoku_shape gs move playerId r cl :
  processGomokuMove gs move playerId = (Returned r, cl) ->
  boardKind (board (res_gameState r)) = boardKind (board gs) /\
  (valid r = true -> boardKind (board gs) = Some gomoku) /\
  (gameOver (res_gameState r) = true -> gameOver gs = true \/ timer (res_gameState r) = None).
Proof.
  unfold processGomokuMove. intros H. returned_cases H; shaped.
Qed.

Lemma dots_shape gs move playerId r cl :
  processDotsAndBoxesMove gs move playerId = (Returned r, cl) ->
  boardKind (board (res_gameState r)) = boardKind (board gs) /\
  (valid r = true -> boardKind (board gs) = Some dotsandboxes) /\
  (gameOver (res_gameState r) = true -> gameOver gs = true \/ timer (res_gameState r) = None).
Proof.
  unfold processDotsAndBoxesMove. intros H. returned_cases H; shaped.
Qed.

Lemma ludo_shape gs move playerId rolled r cl :
  processLudoMove gs move playerId rolled = (Returned r, cl) ->
  boardKind (board (res_gameState r)) = boardKind (board gs) /\
  (valid r = true -> boardKind (board gs) = Some ludo) /\
  (gameOver (res_gameState r) = true -> gameOver gs = true \/ timer (res_gameState r) = None).
Proof.
  unfold processLudoMove. intros H. returned_cases H; shaped.
Qed.

Lemma minichess_shape gs move playerId r cl :
  processMiniChessMove gs move playerId = (Returned r, cl) ->
  boardKind (board (res_gameState r)) = boardKind (board gs) /\
  (valid r = true -> boardKind (board gs) = Some minichess) /\
  (gameOver (res_gameState r) = true -> gameOver gs = true \/ timer (res_gameState r) = None).
Proof.
  unfold processMiniChessMove. intros H. returned_cases H; shaped.
Qed.

Lemma memorymatch_shape gs move playerId r cl :
  processMemoryMatchMove gs move playerId = (Returned r, cl) ->
  boardKind (board (res_gameState r)) = boardKind (board gs) /\
  (valid r = true -> boardKind (board gs) = Some memorymatch) /\
  (gameOver (res_gameState r) = true -> gameOver gs = true \/ timer (res_gameState r) = None).
Proof.
  unfold processMemoryMatchMove. intros H. returned_cases H; shaped.
Qed.

Lemma minesweeper_shape gs move playerId r cl :
  processMinesweeperMove gs move playerId = (Returned r, cl) ->
  boardKind (board (res_gameState r)) = boardKind (board gs) /\
  (valid r = true -> boardKind (board gs) = Some minesweeper) /\
  (gameOver (res_gameState r) = true -> gameOver gs = true \/ timer (res_gameState r) = None).
Proof.
  unfold processMinesweeperMove. intros H. returned_cases H; shaped.
Qed.

Lemma checkers_shape gs move playerId r cl :
  processCheckersMove gs move playerId = (Returned r, cl) ->
  boardKind (board (res_gameState r)) = boardKind (board gs) /\
  (valid r = true -> boardKind (board gs) = Some checkers) /\
  (gameOver (res_gameState r) = true -> gameOver gs = true \/ timer (res_gameState r) = None).
Proof.
  unfold processCheckersMove. intros H. returned_cases H; shaped.
Qed.

Lemma battleship_shape gs move playerId r cl :
  processBattleshipMove gs move playerId = (Returned r, cl) ->
  boardKind (board (res_gameState r)) = boardKind (board gs) /\
  (valid r = true -> boardKind (board gs) = Some battleship) /\
  (gameOver (res_gameState r) = true -> gameOver gs = true \/ timer (res_gameState r) = None).
Proof.
  unfold processBattleshipMove, processBattleshipSetup, processBattleshipShot.
  intros H. returned_cases H; try case_match; shaped.
Qed.

Lemma processMove_shape gs move playerId gameType rolled r cl :
  processMove gs move playerId gameType rolled = (Returned r, cl) ->
  boardKind (board (res_gameState r)) = boardKind (board gs) /\
  (valid r = true -> boardKind (board gs) = gameKind gameType) /\
  (gameOver (res_gameState r) = true ->
   gameOver gs = true \/ timer (res_gameState r) = None \/
   gameKind gameType = Some connect4 /\ valid r = true).
Proof.
  unfold processMove. intros H.
  destruct (gameKind gameType) as [[]|];
    [ apply tictactoe_shape in H as (? & ? & Hover)
    | apply connect4_shape in H as (? & ? & Hover);
      (split_and!; [done|done|]; intros Ho; destruct (Hover Ho); by auto)
    | apply checkers_shape in H as (? & ? & Hover)
    | apply battleship_shape in H as (? & ? & Hover)
    | apply gomoku_shape in H as (? & ? & Hover)
    | apply dots_shape in H as (? & ? & Hover)
    | apply ludo_shape in H as (? & ? & Hover)
    | apply minichess_shape in H as (? & ? & Hover)
    | apply memorymatch_shape in H as (? & ? & Hover)
    | apply minesweeper_shape in H as (? & ? & Hover)
    | injection H as <- <-; simpl; by split_and!; auto ];
    (split_and!; [done|done|]; intros Ho; destruct (Hover Ho); auto).
Qed.

(** ** What each event does to the stored game states *)

Lemma makeMove_cases s socketId roomCode move gameType rolled s' out :
  makeMove s socketId roomCode move gameType rolled = Done s' out ->
  (gameStates s !! roomCode = None /\ s' = s) \/
  exists gs r cl,
    gameStates s !! roomCode = Some gs /\
    processMove gs move socketId gameType rolled = (Returned r, cl) /\
    (s' = storeResult s roomCode r cl \/
     exists d,
       valid r = true /\ gameOver (res_gameState r) = false /\
       turnDuration gameType = Some d /\
       s' = startTurnTimer (storeResult s roomCode r cl) roomCode d).
Proof.
  unfold makeMove. destruct (gameStates s !! roomCode) as [gs|] eqn:Hgs.
  - destruct (processMove gs move socketId gameType rolled) as [[r| |] cl] eqn:Hmove;
      try done.
    intros H. right. exists gs, r, cl. split; [done|]. split; [done|].
    fold (storeResult s roomCode r cl) in H.
    destruct (valid r) eqn:Hv; [|injection H as <- _; by left].
    destruct (negb (gameOver (res_gameState r)) && firstMoveMade (res_gameState r)) eqn:Hg;
      [|injection H as <- _; by left].
    destruct (turnDuration gameType) as [d|] eqn:Hd; [|injection H as <- _; by left].
    injection H as <- _. right. exists d.
    apply andb_true_iff in Hg as [Hg _]. apply negb_true_iff in Hg. done.
  - intros [= <- _]. by left.
Qed.

Lemma skipTurn_cases s roomCode s' out :
  skipTurn s roomCode = Done s' out ->
  (s' = s /\
   (gameStates s !! roomCode = None \/
    exists gs, gameStates s !! roomCode = Some gs /\ gameOver gs = true)) \/
  exists gs o,
    gameStates s !! roomCode = Some gs /\ gameOver gs = false /\
    otherPlayer (players gs) (currentPlayer gs) = Some o /\
    let s1 := set_gameStates s (<[roomCode := skipped gs o]> (gameStates s)) in
    (turnDuration (gameType gs) = None /\ s' = s1) \/
    (exists d, turnDuration (gameType gs) = Some d /\ s' = startTurnTimer s1 roomCode d).
Proof.
  unfold skipTurn. destruct (gameStates s !! roomCode) as [gs|] eqn:Hgs.
  - destruct (gameOver gs) eqn:Hover.
    + intros [= <- _]. left. split; [done|]. right. by exists gs.
    + destruct (otherPlayer (players gs) (currentPlayer gs)) as [o|] eqn:Ho; [|done].
      fold (skipped gs o). cbn [gameType skipped set_timerStarted set_timer set_currentPlayer].
      intros H. right. exists gs, o. split; [done|]. split; [done|]. split; [done|].
      destruct (turnDuration (gameType gs)) as [d|]; injection H as <- _.
      * right. by exists d.
      * by left.
  - intros [= <- _]. left. split; [done|]. by left.
Qed.

(** [startTurnTimer] on a state that is there and running. *)
Lemma startTurnTimer_gameStates s roomCode gs d :
  gameStates s !! roomCode = Some gs ->
  gameOver gs = false ->
  gameStates (startTurnTimer s roomCode d)
  = <[roomCode := set_timer (set_timeLeft (set_timerStarted gs true) (Some d))
                            (Some (S (nextHandle s)))]> (gameStates s).
Proof.
  intros Hgs Hover. by rewrite (startTurnTimer_running _ _ _ _ Hgs Hover).
Qed.

Lemma startTurnTimer_sharedPlayers s roomCode d :
  sharedPlayers (startTurnTimer s roomCode d) = sharedPlayers s.
Proof. unfold startTurnTimer. by repeat case_match. Qed.

(** The state of a room after [startTurnTimer], whatever the room. *)
Lemma startTurnTimer_lookup s roomCode d k gs' :
  gameStates (startTurnTimer s roomCode d) !! k = Some gs' ->
  gameStates s !! k = Some gs' \/
  exists gs, k = roomCode /\ gameStates s !! roomCode = Some gs /\ gameOver gs = false /\
             gs' = set_timer (set_timeLeft (set_timerStarted gs true) (Some d))
                             (Some (S (nextHandle s))).
Proof.
  unfold startTurnTimer. destruct (gameStates s !! roomCode) as [gs|] eqn:Hgs; [|by left].
  destruct (gameOver gs) eqn:Hover; [by left|]. simpl.
  destruct (decide (roomCode = k)) as [<-|Hne].
  - rewrite lookup_insert_eq. intros [= <-]. right. by exists gs.
  - rewrite lookup_insert_ne by done. by left.
Qed.

Lemma initializeGameState_fields room g rnd gs :
  initializeGameState room g rnd = Initialized gs ->
  gameType gs = g /\ players gs = room_players room /\
  timer gs = None /\ gameOver gs = false /\
  boardKind (board gs) = gameKind g /\
  exists first, at_ (room_players room) 0 = Some first /\ currentPlayer gs = p_id first.
Proof.
  unfold initializeGameState.
  destruct (at_ (room_players room) 0) as [first|] eqn:Hfirst; [|done].
  intros H.
  assert (exists b ph,
            gs = {| currentPlayer := p_id first; gameType := g; board := b;
                    winner := None; gameOver := false; players := room_players room;
                    timer := None; timerStarted := false; firstMoveMade := false;
                    phase := ph; draw := false; timeLeft := None |} /\
            boardKind b = gameKind g) as (b & ph & -> & Hb).
  { destruct (gameKind g) as [[]|]; repeat case_match; simplify_eq;
      (eexists _, _; split; [reflexivity|done]). }
  simpl. split_and!; try done. by exists first.
Qed.

(** ** The registry invariant *)

Lemma mget_of_elem {V} (m : list (string * V)) k v :
  NoDup (fst <$> m) -> (k, v) ∈ m -> mget m k = Some v.
Proof.
  induction m as [|[k' v'] m IH]; simpl; intros Hnd Hin.
  - by apply elem_of_nil in Hin.
  - apply NoDup_cons in Hnd as [Hfresh Hnd].
    apply elem_of_cons in Hin as [[= -> ->]|Hin].
    + by rewrite String.eqb_refl.
    + destruct (String.eqb k' k) eqn:E; [|auto].
      apply String.eqb_eq in E as ->. exfalso. apply Hfresh.
      apply list_elem_of_fmap. by exists (k, v).
Qed.

Lemma mget_mset {V} (m : list (string * V)) k k' v :
  mget (mset m k v) k' = if decide (k = k') then Some v else mget m k'.
Proof.
  destruct (decide (k = k')) as [<-|Hne].
  - apply mget_mset_eq.
  - by apply mget_mset_ne.
Qed.

(** A room that keeps a player is kept, with the players it keeps. *)
Lemma leaveRooms_stays socketId entries : forall gss tos rs gss' tos' out k room,
  leaveRooms socketId entries gss tos = (rs, gss', tos', out) ->
  (k, room) ∈ entries ->
  without socketId (room_players room) <> [] ->
  (k, {| code := code room; host := host room;
         room_players := without socketId (room_players room);
         gameSelected := gameSelected room |}) ∈ rs.
Proof.
  induction entries as [|[roomCode room0] rest IH]; simpl;
    intros gss tos rs gss' tos' out k room H Hin Hne.
  - by apply elem_of_nil in Hin.
  - apply elem_of_cons in Hin as [[= <- <-]|Hin].
    + destruct (length (without socketId (room_players room)) =? 0)%nat eqn:Hlen.
      { apply Nat.eqb_eq, nil_length_inv in Hlen. done. }
      destruct (leaveRooms socketId rest gss tos) as [[[rs1 gss1] tos1] out1] eqn:E.
      injection H as <- <- <- <-. apply list_elem_of_here.
    + destruct (length (without socketId (room_players room0)) =? 0)%nat; [by eapply IH|].
      destruct (leaveRooms socketId rest gss tos) as [[[rs1 gss1] tos1] out1] eqn:E.
      injection H as <- <- <- <-. apply list_elem_of_further. by eapply IH.
Qed.

(** The game state of a room that is kept is kept. *)
Lemma leaveRooms_state_stays socketId entries : forall gss tos rs gss' tos' out k,
  leaveRooms socketId entries gss tos = (rs, gss', tos', out) ->
  (forall room, (k, room) ∈ entries -> without socketId (room_players room) <> []) ->
  gss' !! k = gss !! k.
Proof.
  induction entries as [|[roomCode room0] rest IH]; simpl;
    intros gss tos rs gss' tos' out k H Hstay.
  - by injection H as <- <- <- <-.
  - assert (forall room, (k, room) ∈ rest -> without socketId (room_players room) <> [])
      as Hrest by (intros room Hin; apply Hstay; by apply list_elem_of_further).
    destruct (length (without socketId (room_players room0)) =? 0)%nat eqn:Hlen.
    + rewrite (IH _ _ _ _ _ _ _ H Hrest).
      apply lookup_delete_ne. intros ->.
      apply Nat.eqb_eq, nil_length_inv in Hlen.
      by apply (Hstay room0); [apply list_elem_of_here|].
    + destruct (leaveRooms socketId rest gss tos) as [[[rs1 gss1] tos1] out1] eqn:E.
      injection H as <- <- <- <-. by eapply IH.
Qed.

Lemma startTurnTimer_registry s roomCode d : registryOk s -> registryOk (startTurnTimer s roomCode d).
Proof.
  intros (Hcode & Hroom & Hsel). unfold registryOk.
  rewrite startTurnTimer_rooms. split_and!; [done| |].
  - intros k gs' Hl. apply startTurnTimer_lookup in Hl as [Hl|(gs & -> & Hl & _)]; eauto.
  - intros k room g Hk Hg. destruct (Hsel k room g Hk Hg) as (gs & Hgs & Hty).
    unfold startTurnTimer. destruct (gameStates s !! roomCode) as [gs0|] eqn:Hgs0; [|eauto].
    destruct (gameOver gs0); [eauto|]. simpl.
    destruct (decide (roomCode = k)) as [->|Hne].
    + rewrite lookup_insert_eq. eexists. split; [done|]. simpl. congruence.
    + rewrite lookup_insert_ne by done. eauto.
Qed.

(** Storing under [roomCode] a state of the same game type as the one there. *)
Lemma registryOk_update s s' roomCode gs gs' :
  registryOk s ->
  gameStates s !! roomCode = Some gs ->
  gameType gs' = gameType gs ->
  rooms s' = rooms s ->
  gameStates s' = <[roomCode := gs']> (gameStates s) ->
  registryOk s'.
Proof.
  intros (Hcode & Hroom & Hsel) Hgs Hty Hrooms Hstates. unfold registryOk.
  rewrite Hrooms, Hstates. split_and!; [done| |].
  - intros k gs0 Hl. destruct (decide (roomCode = k)) as [<-|Hne]; [eauto|].
    rewrite lookup_insert_ne in Hl by done. eauto.
  - intros k room g Hk Hg. destruct (Hsel k room g Hk Hg) as (gs0 & Hgs0 & Hty0).
    destruct (decide (roomCode = k)) as [<-|Hne].
    + rewrite lookup_insert_eq. eexists. split; [done|]. congruence.
    + rewrite lookup_insert_ne by done. eauto.
Qed.

Lemma handle_registryOk s a s' out :
  roomsOk (rooms s) -> registryOk s -> handle s a = Done s' out -> registryOk s'.
Proof.
  intros Hok Hreg. pose proof Hreg as (Hcode & Hroom & Hsel).
  destruct a as [socketId playerName roomCode | socketId roomCode playerName
                | socketId roomCode gt rnd | socketId roomCode move gt rolled
                | socketId roomCode | socketId | h0]; simpl.
  - (* createRoom *)
    intros [= <- _]. unfold registryOk. simpl. split_and!.
    + intros k room. rewrite mget_mset.
      destruct (decide (roomCode = k)); [by intros [= <-]|auto].
    + intros k gs Hgs. rewrite mget_mset. destruct (decide (roomCode = k)); eauto.
    + intros k room g. rewrite mget_mset.
      destruct (decide (roomCode = k)); [by intros [= <-]|eauto].
  - (* joinRoom *)
    unfold joinRoom. destruct (mget (rooms s) roomCode) as [room|] eqn:Hr;
      [|by intros [= <- _]].
    destruct (2 <=? length (room_players room))%nat; intros [= <- _]; [done|].
    assert (forall k gs',
              (if bool_decide (roomCode ∈ sharedPlayers s)
               then alter
                      (fun gs =>
                         set_players gs
                           (room_players room ++
                            [{| p_id := socketId; p_name := playerName; p_ready := true |}]))
                      roomCode (gameStates s)
               else gameStates s) !! k = Some gs' ->
              exists gs, gameStates s !! k = Some gs /\ gameType gs' = gameType gs) as Hold.
    { intros k gs'. case_bool_decide; [|eauto].
      intros Hl. apply lookup_alter_Some in Hl as [(<- & gs & Hgs & ->)|[_ Hgs]]; eauto. }
    unfold registryOk. simpl. split_and!.
    + intros k room'. rewrite mget_mset.
      destruct (decide (roomCode = k)) as [<-|Hne]; [|auto].
      intros [= <-]. simpl. eauto.
    + intros k gs' Hl. destruct (Hold _ _ Hl) as (gs & Hgs & _).
      rewrite mget_mset. destruct (decide (roomCode = k)); eauto.
    + intros k room' g. rewrite mget_mset. intros Hk Hg.
      assert (exists room0, mget (rooms s) k = Some room0 /\ gameSelected room0 = Some g)
        as (room0 & Hk0 & Hg0).
      { destruct (decide (roomCode = k)) as [<-|Hne]; [|eauto]. injection Hk as <-. eauto. }
      destruct (Hsel _ _ _ Hk0 Hg0) as (gs & Hgs & Hty).
      case_bool_decide; [|eauto].
      destruct (decide (roomCode = k)) as [<-|Hne].
      * eexists. split; [apply lookup_alter_Some; left; eauto|]. done.
      * exists gs. split; [|done]. by rewrite lookup_alter_ne.
  - (* selectGame *)
    unfold selectGame. destruct (mget (rooms s) roomCode) as [room|] eqn:Hr;
      [|by intros [= <- _]].
    destruct (negb (String.eqb (host room) socketId)); [by intros [= <- _]|].
    destruct (initializeGameState _ gt rnd) as [gs0| |] eqn:Hinit; try done.
    apply initializeGameState_fields in Hinit as (Hty & _).
    intros [= <- _]. unfold registryOk. simpl. split_and!.
    + intros k room'. rewrite mget_mset.
      destruct (decide (roomCode = k)) as [<-|Hne]; [|auto].
      intros [= <-]. simpl. eauto.
    + intros k gs' Hl. rewrite mget_mset.
      destruct (decide (roomCode = k)) as [<-|Hne]; [eauto|].
      rewrite lookup_insert_ne in Hl by done. eauto.
    + intros k room' g. rewrite mget_mset.
      destruct (decide (roomCode = k)) as [<-|Hne].
      * intros [= <-] [= <-]. rewrite lookup_insert_eq. eauto.
      * rewrite lookup_insert_ne by done. eauto.
  - (* makeMove *)
    intros H. apply makeMove_cases in H as [[_ ->]|(gs & r & cl & Hgs & Hmove & H)]; [done|].
    destruct (processMove_moved _ _ _ _ _ _ _ _ Hmove eq_refl) as ((_ & Hty & _) & _).
    assert (registryOk (storeResult s roomCode r cl)) as Hreg1
      by (by apply (registryOk_update s _ roomCode gs (res_gameState r))).
    destruct H as [->|(d & _ & _ & _ & ->)]; [done|]. by apply startTurnTimer_registry.
  - (* requestGameState *)
    unfold requestGameState. case_match; by intros [= <- _].
  - (* disconnect *)
    unfold disconnect.
    destruct (leaveRooms socketId (rooms s) (gameStates s) (timeouts s))
      as [[[rs gss] tos] out1] eqn:E.
    intros [= <- _]. destruct Hok as [Hnd _].
    pose proof (leaveRooms_kept _ _ _ _ _ _ _ _ E) as (_ & Hnd' & Hrooms & Hgss & _).
    unfold registryOk. simpl. split_and!.
    + intros k room' Hk. apply mget_elem in Hk.
      assert (exists room, (k, room) ∈ rooms s /\ code room' = code room) as (room & Hin & ->).
      { clear -E Hk. revert gss tos rs out1 E Hk.
        generalize (gameStates s), (timeouts s).
        induction (rooms s) as [|[rc room0] rest IH]; simpl; intros gss0 tos0 gss tos rs out1 E Hk.
        - injection E as <- <- <- <-. by apply elem_of_nil in Hk.
        - destruct (length (without socketId (room_players room0)) =? 0)%nat.
          + destruct (IH _ _ _ _ _ _ E Hk) as (room & Hin & Hc).
            exists room. split; [by apply list_elem_of_further|done].
          + destruct (leaveRooms socketId rest gss0 tos0) as [[[rs1 gss1] tos1] out2] eqn:E1.
            injection E as <- <- <- <-. apply elem_of_cons in Hk as [[= -> ->]|Hk].
            * exists room0. split; [apply list_elem_of_here|done].
            * destruct (IH _ _ _ _ _ _ E1 Hk) as (room & Hin & Hc).
              exists room. split; [by apply list_elem_of_further|done]. }
      apply Hcode. by apply mget_of_elem.
    + intros k gs Hl. pose proof (Hgss _ _ Hl) as Hl0.
      destruct (Hroom _ _ Hl0) as [room Hk]. apply mget_elem in Hk.
      destruct (decide (without socketId (room_players room) = [])) as [Hgone|Hstay].
      * destruct (leaveRooms_deleted _ _ _ _ _ _ _ _ _ _ E Hnd Hk Hgone) as (_ & Hnone & _).
        congruence.
      * eexists. apply mget_of_elem; [auto|]. by eapply leaveRooms_stays.
    + intros k room' g Hk Hg. apply mget_elem in Hk.
      destruct (Hrooms _ _ Hk) as (room & Hin & Hps & Hne).
      assert (gss !! k = gameStates s !! k) as ->.
      { eapply leaveRooms_state_stays; [exact E|].
        intros room1 Hin1. apply mget_of_elem in Hin, Hin1; try done.
        rewrite Hin in Hin1. injection Hin1 as <-. by rewrite <- Hps. }
      pose proof (leaveRooms_stays _ _ _ _ _ _ _ _ _ _ E Hin) as Hstay.
      rewrite <- Hps in Hstay. specialize (Hstay Hne).
      apply mget_of_elem in Hstay, Hk; try auto. rewrite Hk in Hstay.
      injection Hstay as Hstay. apply (f_equal gameSelected) in Hstay. simpl in Hstay.
      rewrite Hstay in Hg. apply mget_of_elem in Hin; [|done]. eauto.
  - (* expire *)
    unfold expire. destruct (timeouts s !! h0) as [t|]; [|by intros [= <- _]].
    set (s0 := {| rooms := rooms s; gameStates := gameStates s;
                  timeouts := delete h0 (timeouts s);
                  intervals := delete (to_countdown t) (intervals s);
                  nextHandle := nextHandle s; sharedPlayers := sharedPlayers s |}).
    assert (registryOk s0) as Hreg0 by done.
    intros H. apply skipTurn_cases in H as [[-> _]|(gs & o & Hgs & _ & _ & H)]; [done|].
    assert (registryOk (set_gameStates s0 (<[to_room t := skipped gs o]> (gameStates s0))))
      as Hreg1 by (by apply (registryOk_update s0 _ (to_room t) gs (skipped gs o))).
    destruct H as [[_ ->]|(d & _ & ->)]; [done|]. by apply startTurnTimer_registry.
Qed.

Lemma reachable_registryOk s : reachable s -> registryOk s.
Proof.
  induction 1 as [|s a s' out Hs IH H].
  - unfold registryOk. simpl. by split_and!.
  - eapply handle_registryOk; eauto using reachable_roomsOk.
Qed.

(** ** The players of a game *)

Lemma playersOk_update s s' roomCode gs gs' :
  playersOk s ->
  gameStates s !! roomCode = Some gs ->
  players gs' = players gs ->
  currentPlayer gs' ∈ p_id <$> players gs ->
  rooms s' = rooms s ->
  sharedPlayers s' = sharedPlayers s ->
  gameStates s' = <[roomCode := gs']> (gameStates s) ->
  playersOk s'.
Proof.
  intros Hok Hgs Hps Hcur Hrooms Hshared Hstates k gs0.
  rewrite Hrooms, Hshared, Hstates.
  destruct (decide (roomCode = k)) as [<-|Hne].
  - rewrite lookup_insert_eq. intros [= <-].
    destruct (Hok _ _ Hgs) as (? & ? & ? & ?). rewrite Hps. by split_and!.
  - rewrite lookup_insert_ne by done. apply Hok.
Qed.

Lemma startTurnTimer_playersOk s roomCode d : playersOk s -> playersOk (startTurnTimer s roomCode d).
Proof.
  intros Hok. unfold startTurnTimer.
  destruct (gameStates s !! roomCode) as [gs|] eqn:Hgs; [|done].
  destruct (gameOver gs); [done|].
  apply (playersOk_update s _ roomCode gs
           (set_timer (set_timeLeft (set_timerStarted gs true) (Some d))
                      (Some (S (nextHandle s))))); try done.
  simpl. by destruct (Hok _ _ Hgs) as (? & ? & ? & ?).
Qed.

Lemma handle_playersOk s a s' out :
  roomsOk (rooms s) -> playersOk s -> handle s a = Done s' out -> playersOk s'.
Proof.
  intros Hrooms Hok.
  destruct a as [socketId playerName roomCode | socketId roomCode playerName
                | socketId roomCode gt rnd | socketId roomCode move gt rolled
                | socketId roomCode | socketId | h0]; simpl.
  - (* createRoom *)
    intros [= <- _] k gs Hgs. simpl in *.
    destruct (Hok _ _ Hgs) as (? & ? & ? & Hsh). split_and!; try done.
    intros Hin. apply elem_of_difference in Hin as [Hin Hne].
    rewrite mget_mset_ne; [auto|]. intros ->. apply Hne. by apply elem_of_singleton.
  - (* joinRoom *)
    unfold joinRoom. destruct (mget (rooms s) roomCode) as [room|] eqn:Hr;
      [|by intros [= <- _]].
    destruct (2 <=? length (room_players room))%nat eqn:Hfull; intros [= <- _]; [done|].
    apply Nat.leb_gt in Hfull.
    intros k gs'. simpl. case_bool_decide as Hshared.
    + intros Hl. apply lookup_alter_Some in Hl as [(<- & gs & Hgs & ->)|[Hne Hgs]].
      * destruct (Hok _ _ Hgs) as (Hne & Hle & Hcur & Hsh).
        destruct (Hsh Hshared) as (room0 & Hr0 & Hps).
        rewrite Hr in Hr0. injection Hr0 as <-. simpl. split_and!.
        -- intros Hnil. by apply app_eq_nil in Hnil as [_ ?].
        -- rewrite length_app. simpl. lia.
        -- rewrite fmap_app, Hps. apply elem_of_app. by left.
        -- intros _. rewrite mget_mset_eq. eauto.
      * destruct (Hok _ _ Hgs) as (? & ? & ? & Hsh). split_and!; try done.
        intros Hin. by rewrite mget_mset_ne; [auto|].
    + intros Hgs. destruct (Hok _ _ Hgs) as (? & ? & ? & Hsh). split_and!; try done.
      intros Hin. rewrite mget_mset_ne; [auto|]. by intros ->.
  - (* selectGame *)
    unfold selectGame. destruct (mget (rooms s) roomCode) as [room|] eqn:Hr;
      [|by intros [= <- _]].
    destruct (negb (String.eqb (host room) socketId)); [by intros [= <- _]|].
    destruct (initializeGameState _ gt rnd) as [gs0| |] eqn:Hinit; try done.
    apply initializeGameState_fields in Hinit
      as (_ & Hps & _ & _ & _ & first & Hfirst & Hcur).
    simpl in Hps, Hfirst.
    destruct (roomsOk_mget _ _ _ Hrooms Hr) as [Hne Hle].
    intros [= <- _] k gs. simpl.
    destruct (decide (roomCode = k)) as [<-|Hk].
    + rewrite lookup_insert_eq. intros [= <-]. rewrite Hps, Hcur. split_and!; try done.
      * apply list_elem_of_fmap. exists first. split; [done|]. by eapply at_elem.
      * intros _. rewrite mget_mset_eq. eauto.
    + rewrite lookup_insert_ne by done. intros Hgs.
      destruct (Hok _ _ Hgs) as (? & ? & ? & Hsh). split_and!; try done.
      intros Hin. apply elem_of_union in Hin as [Hin|Hin].
      * by rewrite mget_mset_ne; [auto|].
      * apply elem_of_singleton in Hin. by subst.
  - (* makeMove *)
    intros H. apply makeMove_cases in H as [[_ ->]|(gs & r & cl & Hgs & Hmove & H)]; [done|].
    destruct (processMove_moved _ _ _ _ _ _ _ _ Hmove eq_refl)
      as ((Hps & _) & _ & Hturn & _).
    assert (playersOk (storeResult s roomCode r cl)) as Hok1.
    { apply (playersOk_update s _ roomCode gs (res_gameState r)); try done.
      destruct Hturn as [->|Ho].
      - by destruct (Hok _ _ Hgs) as (? & ? & ? & ?).
      - apply otherPlayer_elem in Ho as (p & Hp & ->).
        apply list_elem_of_fmap. eauto. }
    destruct H as [->|(d & _ & _ & _ & ->)]; [done|]. by apply startTurnTimer_playersOk.
  - (* requestGameState *)
    unfold requestGameState. case_match; by intros [= <- _].
  - (* disconnect *)
    unfold disconnect.
    destruct (leaveRooms socketId (rooms s) (gameStates s) (timeouts s))
      as [[[rs gss] tos] out1] eqn:E.
    intros [= <- _] k gs Hgs. simpl in *.
    apply leaveRooms_kept in E as (_ & _ & _ & Hgss & _).
    destruct (Hok _ _ (Hgss _ _ Hgs)) as (? & ? & ? & _). by split_and!.
  - (* expire *)
    unfold expire. destruct (timeouts s !! h0) as [t|]; [|by intros [= <- _]].
    set (s0 := {| rooms := rooms s; gameStates := gameStates s;
                  timeouts := delete h0 (timeouts s);
                  intervals := delete (to_countdown t) (intervals s);
                  nextHandle := nextHandle s; sharedPlayers := sharedPlayers s |}).
    assert (playersOk s0) as Hok0 by done.
    intros H. apply skipTurn_cases in H as [[-> _]|(gs & o & Hgs & _ & Ho & H)]; [done|].
    assert (playersOk (set_gameStates s0 (<[to_room t := skipped gs o]> (gameStates s0))))
      as Hok1.
    { apply (playersOk_update s0 _ (to_room t) gs (skipped gs o)); try done.
      simpl. apply otherPlayer_elem in Ho as (p & Hp & ->).
      apply list_elem_of_fmap. eauto. }
    destruct H as [[_ ->]|(d & _ & ->)]; [done|]. by apply startTurnTimer_playersOk.
Qed.

Lemma reachable_playersOk s : reachable s -> playersOk s.
Proof.
  induction 1 as [|s a s' out Hs IH H].
  - intros k gs Hl. simpl in Hl. by rewrite lookup_empty in Hl.
  - eapply handle_playersOk; eauto using reachable_roomsOk.
Qed.

(** ** The turn timers *)

(** A timeout the loop of [disconnect] clears is the one recorded by a game
    state that the loop deletes. *)
Lemma leaveRooms_cleared socketId entries : forall gss tos rs gss' tos' out h t,
  leaveRooms socketId entries gss tos = (rs, gss', tos', out) ->
  tos !! h = Some t -> tos' !! h = None ->
  exists k gs, gss !! k = Some gs /\ timer gs = Some h /\ gss' !! k = None.
Proof.
  induction entries as [|[roomCode room] rest IH]; simpl;
    intros gss tos rs gss' tos' out h t H Hh Hnone.
  - injection H as <- <- <- <-. congruence.
  - destruct (length (without socketId (room_players room)) =? 0)%nat.
    + pose proof (leaveRooms_kept _ _ _ _ _ _ _ _ H) as (_ & _ & _ & Hgss & _).
      assert (gss' !! roomCode = None) as Hgone.
      { destruct (gss' !! roomCode) as [gs|] eqn:E; [|done].
        apply Hgss in E. by rewrite lookup_delete_eq in E. }
      destruct (gss !! roomCode) as [gs|] eqn:Hgs.
      * destruct (timer gs) as [h'|] eqn:Ht.
        -- destruct (decide (h' = h)) as [->|Hne]; [by exists roomCode, gs|].
           rewrite <- (lookup_delete_ne tos h' h) in Hh by done.
           destruct (IH _ _ _ _ _ _ _ _ H Hh Hnone) as (k & gs0 & Hk & ? & ?).
           apply lookup_delete_Some in Hk as [_ Hk]. eauto.
        -- destruct (IH _ _ _ _ _ _ _ _ H Hh Hnone) as (k & gs0 & Hk & ? & ?).
           apply lookup_delete_Some in Hk as [_ Hk]. eauto.
      * destruct (IH _ _ _ _ _ _ _ _ H Hh Hnone) as (k & gs0 & Hk & ? & ?).
        apply lookup_delete_Some in Hk as [_ Hk]. eauto.
    + destruct (leaveRooms socketId rest gss tos) as [[[rs1 gss1] tos1] out1] eqn:E.
      injection H as <- <- <- <-. eauto.
Qed.

(** The states other than [roomCode]'s keep their timeouts when the one
    recorded for [roomCode] is cleared. *)
Lemma timersOk_other s k gs roomCode gs0 h t :
  timersOk s ->
  gameStates s !! k = Some gs -> timer gs = Some h ->
  gameStates s !! roomCode = Some gs0 -> roomCode <> k ->
  timeouts s !! h = Some t ->
  foldr delete (timeouts s) (recorded gs0) !! h = Some t.
Proof.
  intros Hok Hgs Ht Hgs0 Hne Hh. unfold recorded.
  destruct (timer gs0) as [h0|] eqn:Ht0; simpl; [|done].
  rewrite lookup_delete_ne; [done|]. intros ->.
  destruct (Hok _ _ Hgs) as (_ & H2 & _). destruct (Hok _ _ Hgs0) as (_ & H2' & _).
  destruct (H2 _ Ht) as (t1 & Ht1 & Hr1 & _). destruct (H2' _ Ht0) as (t2 & Ht2 & Hr2 & _).
  congruence.
Qed.

Lemma startTurnTimer_timersOk s roomCode d :
  timersOk s ->
  (forall h t, timeouts s !! h = Some t -> (h < nextHandle s)%nat) ->
  (forall gs, gameStates s !! roomCode = Some gs ->
     turnDuration (gameType gs) = Some d) ->
  timersOk (startTurnTimer s roomCode d).
Proof.
  intros Hok Hbound Hkind.
  destruct (gameStates s !! roomCode) as [gs0|] eqn:Hgs0;
    [|unfold startTurnTimer; by rewrite Hgs0].
  destruct (gameOver gs0) eqn:Hover; [unfold startTurnTimer; by rewrite Hgs0, Hover|].
  intros k gs'. rewrite (startTurnTimer_running _ _ _ _ Hgs0 Hover). simpl.
  destruct (decide (roomCode = k)) as [<-|Hne].
  - rewrite lookup_insert_eq. intros [= <-]. simpl.
    destruct (Hok _ _ Hgs0) as (H1 & _). split_and!; try done.
    + intros h [= <-]. rewrite lookup_insert_eq. eexists. split; [done|].
      split; [done|]. simpl. by apply Hkind.
    + intros Hc. congruence.
  - rewrite lookup_insert_ne by done. intros Hgs.
    destruct (Hok _ _ Hgs) as (H1 & H2 & H3). split_and!; try done.
    intros h Ht. destruct (H2 _ Ht) as (t & Hh & Hr). exists t. split; [|done].
    rewrite lookup_insert_ne by (apply Hbound in Hh; lia).
    pose proof (timersOk_other s k gs' roomCode gs0 h t Hok Hgs Ht Hgs0 Hne Hh) as Hkept.
    unfold recorded in Hkept. by destruct (timer gs0).
Qed.

Lemma handle_timersOk s a s' out :
  (forall h t, timeouts s !! h = Some t -> (h < nextHandle s)%nat) ->
  timersOk s -> handle s a = Done s' out -> timersOk s'.
Proof.
  intros Hbound Hok.
  destruct a as [socketId playerName roomCode | socketId roomCode playerName
                | socketId roomCode gt rnd | socketId roomCode move gt rolled
                | socketId roomCode | socketId | h0]; simpl.
  - (* createRoom *)
    by intros [= <- _].
  - (* joinRoom *)
    unfold joinRoom. destruct (mget (rooms s) roomCode) as [room|] eqn:Hr;
      [|by intros [= <- _]].
    destruct (2 <=? length (room_players room))%nat; intros [= <- _]; [done|].
    intros k gs'. simpl. case_bool_decide; [|apply Hok].
    intros Hl. apply lookup_alter_Some in Hl as [(<- & gs & Hgs & ->)|[_ Hgs]];
      [|by apply Hok].
    apply (Hok _ _ Hgs).
  - (* selectGame *)
    unfold selectGame. destruct (mget (rooms s) roomCode) as [room|] eqn:Hr;
      [|by intros [= <- _]].
    destruct (negb (String.eqb (host room) socketId)); [by intros [= <- _]|].
    destruct (initializeGameState _ gt rnd) as [gs0| |] eqn:Hinit; try done.
    apply initializeGameState_fields in Hinit as (Hty & _ & Ht & _ & Hb & _).
    intros [= <- _] k gs. simpl.
    destruct (decide (roomCode = k)) as [<-|Hk].
    + rewrite lookup_insert_eq. intros [= <-]. rewrite Hty, Ht. by split_and!.
    + rewrite lookup_insert_ne by done. apply Hok.
  - (* makeMove *)
    intros H. apply makeMove_cases in H as [[_ ->]|(gs & r & cl & Hgs & Hmove & H)]; [done|].
    destruct (processMove_moved _ _ _ _ _ _ _ _ Hmove eq_refl)
      as ((_ & Hty & _) & Htimer & _).
    destruct (processMove_shape _ _ _ _ _ _ _ Hmove) as (Hshape & Hvalid & Hover).
    destruct (Hok _ _ Hgs) as (H1 & H2 & H3).
    assert (gameKind (gameType gs) = Some connect4 -> timer gs = None) as H4.
    { intros Hc. destruct (timer gs) as [h|] eqn:Ht; [|done].
      destruct (H2 _ eq_refl) as (t & _ & _ & Hd). unfold turnDuration in Hd.
      by rewrite Hc in Hd. }
    assert (cl = [] \/ cl = recorded gs) as Hcl by (destruct Htimer as [[_ ->]|[_ ->]]; auto).
    assert (timersOk (storeResult s roomCode r cl)) as Hok1.
    { intros k gs'. unfold storeResult. simpl.
      destruct (decide (roomCode = k)) as [<-|Hne].
      - rewrite lookup_insert_eq. intros [= <-]. rewrite Hty, Hshape. split_and!.
        + done.
        + intros h Ht. destruct Htimer as [[Heq ->]|[Heq _]]; [|congruence].
          simpl. apply H2. congruence.
        + intros Hend. destruct Htimer as [[Heq _]|[Heq _]]; [|done]. rewrite Heq.
          destruct (Hover Hend) as [?|[?|[Hc Hv]]]; [auto|congruence|].
          apply H4. rewrite <- H1, (Hvalid Hv). done.
      - rewrite lookup_insert_ne by done. intros Hgs'.
        destruct (Hok _ _ Hgs') as (? & H2' & ?). split_and!; try done.
        intros h Ht. destruct (H2' _ Ht) as (t & Hh & Hroom). exists t. split; [|done].
        destruct Hcl as [->| ->]; [done|].
        by apply (timersOk_other s k gs' roomCode gs). }
    destruct H as [->|(d & Hv & _ & Hd & ->)]; [done|].
    apply startTurnTimer_timersOk; [done| |].
    + intros h t Hh. simpl in Hh. apply cleared_pending in Hh. eauto.
    + intros gs'. unfold storeResult. simpl. rewrite lookup_insert_eq. intros [= <-].
      rewrite <- Hd. unfold turnDuration. by rewrite Hty, <- H1, (Hvalid Hv).
  - (* requestGameState *)
    unfold requestGameState. case_match; by intros [= <- _].
  - (* disconnect *)
    unfold disconnect.
    destruct (leaveRooms socketId (rooms s) (gameStates s) (timeouts s))
      as [[[rs gss] tos] out1] eqn:E.
    intros [= <- _] k gs Hgs. simpl in *.
    pose proof (leaveRooms_kept _ _ _ _ _ _ _ _ E) as (_ & _ & _ & Hgss & Htos).
    destruct (Hok _ _ (Hgss _ _ Hgs)) as (? & H2 & ?). split_and!; try done.
    intros h Ht. destruct (H2 _ Ht) as (t & Hh & Hroom). exists t. split; [|done].
    destruct (tos !! h) as [t'|] eqn:Hh'; [by rewrite (Htos _ _ Hh') in Hh|].
    destruct (leaveRooms_cleared _ _ _ _ _ _ _ _ _ _ E Hh Hh') as (k' & gs' & Hk' & Ht' & Hgone).
    destruct (Hok _ _ Hk') as (_ & H2' & _). destruct (H2' _ Ht') as (t' & Hh2 & Hroom' & _).
    destruct Hroom as [Hroom _]. congruence.
  - (* expire *)
    unfold expire. destruct (timeouts s !! h0) as [t|] eqn:Hh0; [|by intros [= <- _]].
    set (s0 := {| rooms := rooms s; gameStates := gameStates s;
                  timeouts := delete h0 (timeouts s);
                  intervals := delete (to_countdown t) (intervals s);
                  nextHandle := nextHandle s; sharedPlayers := sharedPlayers s |}).
    assert (forall k gs, k <> to_room t -> gameStates s !! k = Some gs ->
              boardKind (board gs) = gameKind (gameType gs) /\
              (forall h, timer gs = Some h ->
                 exists t', delete h0 (timeouts s) !! h = Some t' /\ to_room t' = k /\
                            turnDuration (gameType gs) = Some (to_duration t')) /\
              (gameOver gs = true -> timer gs = None)) as Hothers.
    { intros k gs Hne Hgs. destruct (Hok _ _ Hgs) as (? & H2 & ?). split_and!; try done.
      intros h Ht. destruct (H2 _ Ht) as (t' & Hh & Hroom & ?). exists t'. split; [|done].
      rewrite lookup_delete_ne; [done|]. intros Heq.
      rewrite <- Heq, Hh0 in Hh. injection Hh as <-. done. }
    intros H. apply skipTurn_cases in H
      as [[-> [Hnone|(gs & Hgs & Hover)]]|(gs & o & Hgs & Hover & _ & H)];
      subst s0; simpl in *.
    + intros k gs Hgs. apply Hothers; [|done]. intros ->. simpl in Hgs. congruence.
    + intros k gs' Hgs'. destruct (decide (k = to_room t)) as [->|Hne]; [|by apply Hothers].
      simpl in Hgs, Hgs'. rewrite Hgs in Hgs'. injection Hgs' as <-.
      destruct (Hok _ _ Hgs) as (? & H2 & H3). split_and!; try done.
      intros h Ht. rewrite (H3 Hover) in Ht. done.
    + destruct (Hok _ _ Hgs) as (H1 & H2 & H3).
      match type of H with
      | (_ /\ _ = ?s1) \/ _ => assert (timersOk s1) as Hok1
      end.
      { intros k gs'. simpl. destruct (decide (to_room t = k)) as [<-|Hne].
        - rewrite lookup_insert_eq. intros [= <-]. by split_and!.
        - rewrite lookup_insert_ne by done. by apply Hothers. }
      destruct H as [[_ ->]|(d & Hd & ->)]; [done|].
      apply startTurnTimer_timersOk; [done| |].
      * intros h t' Hh. simpl in Hh. apply lookup_delete_Some in Hh as [_ Hh]. eauto.
      * intros gs'. simpl. rewrite lookup_insert_eq. intros [= <-]. done.
Qed.

Lemma reachable_timersOk s : reachable s -> timersOk s.
Proof.
  induction 1 as [|s a s' out Hs IH H].
  - intros k gs Hl. simpl in Hl. by rewrite lookup_empty in Hl.
  - eapply handle_timersOk; eauto using reachable_handles.
Qed.

(** ** Invariants of the states the server reaches *)

(** X9.  In every state the server reaches, a room is stored under its own
    code, a game state exists only for a stored room, and a room whose
    [gameSelected] names a game has a game state of that game type. *)
Theorem game_states_belong_to_rooms s :
  reachable s ->
  (forall roomCode room, mget (rooms s) roomCode = Some room -> code room = roomCode) /\
  (forall roomCode gs,
     gameStates s !! roomCode = Some gs -> exists room, mget (rooms s) roomCode = Some room) /\
  (forall roomCode room g,
     mget (rooms s) roomCode = Some room -> gameSelected room = Some g ->
     exists gs, gameStates s !! roomCode = Some gs /\ gameType gs = g).
Proof.
  intros Hs. destruct (reachable_registryOk s Hs) as (Hcode & Hroom & Hsel).
  split_and!; [done| |done].
  intros roomCode gs Hgs. by destruct (Hroom _ _ Hgs) as [room ?]; exists room.
Qed.

Lemma game_states_belong_to_rooms_witness :
  exists room gs,
    mget (rooms gomokuServer) "AB12CD" = Some room /\
    code room = "AB12CD" /\
    gameSelected room = Some "gomoku" /\
    gameStates gomokuServer !! "AB12CD" = Some gs /\
    gameType gs = "gomoku".
Proof.
  destruct (game_states_belong_to_rooms gomokuServer gomokuServer_reachable)
    as (Hcode & Hroom & Hsel).
  destruct (Hroom "AB12CD" (stateOf gomokuServer)) as [room Hr]; [vm_compute; reflexivity|].
  assert (gameSelected room = Some "gomoku") as Hg.
  { vm_compute in Hr. by injection Hr as <-. }
  destruct (Hsel _ _ _ Hr Hg) as (gs & Hgs & Hty).
  exists room, gs.
  split; [exact Hr|]. split; [apply (Hcode _ _ Hr)|]. split; [exact Hg|].
  split; [exact Hgs | exact Hty].
Defined.

(** X10.  In every state the server reaches, a game has one or two players
    and the player whose turn it is is one of them. *)
Theorem current_player_is_a_player s roomCode gs :
  reachable s ->
  gameStates s !! roomCode = Some gs ->
  players gs <> [] /\ (length (players gs) <= 2)%nat /\
  currentPlayer gs ∈ p_id <$> players gs.
Proof.
  intros Hs Hgs. by destruct (reachable_playersOk s Hs _ _ Hgs) as (? & ? & ? & _).
Qed.

Lemma current_player_is_a_player_witness :
  players (stateOf gomokuServer) = [alice; bob] /\
  currentPlayer (stateOf gomokuServer) ∈ p_id <$> players (stateOf gomokuServer).
Proof.
  split; [vm_compute; reflexivity|].
  apply (current_player_is_a_player gomokuServer "AB12CD").
  - apply gomokuServer_reachable.
  - vm_compute. reflexivity.
Defined.

(** X11.  In every state the server reaches, along runs whose moves name
    the game of their room: the board of a game state is the one of its game
    type; the timeout a game state records in [timer] is pending, calls
    [skipTurn] for that very room and was started with the per-move duration
    of the game; a finished game and a connect4 game record no timeout. *)
Theorem recorded_timer_is_pending s roomCode gs :
  reachable s ->
  gameStates s !! roomCode = Some gs ->
  boardKind (board gs) = gameKind (gameType gs) /\
  (forall h, timer gs = Some h ->
     exists t, timeouts s !! h = Some t /\ to_room t = roomCode /\
               turnDuration (gameType gs) = Some (to_duration t)) /\
  (gameOver gs = true -> timer gs = None) /\
  (gameKind (gameType gs) = Some connect4 -> timer gs = None).
Proof.
  intros Hs Hgs. destruct (reachable_timersOk s Hs _ _ Hgs) as (H1 & H2 & H3).
  split_and!; try done.
  intros Hc. destruct (timer gs) as [h|] eqn:Ht; [|done].
  destruct (H2 _ eq_refl) as (t & _ & _ & Hd). unfold turnDuration in Hd.
  by rewrite Hc in Hd.
Qed.

Lemma recorded_timer_is_pending_witness :
  timer (stateOf gomokuServer) = Some 3%nat /\
  exists t, timeouts gomokuServer !! 3%nat = Some t /\ to_room t = "AB12CD" /\
            turnDuration "gomoku" = Some (to_duration t).
Proof.
  split; [vm_compute; reflexivity|].
  destruct (recorded_timer_is_pending gomokuServer "AB12CD" (stateOf gomokuServer))
    as (_ & Hpending & _).
  - apply gomokuServer_reachable.
  - vm_compute. reflexivity.
  - apply (Hpending 3%nat). vm_compute. reflexivity.
Defined.

(** X12.  A turn timer that expires in a running game with a single player
    makes [skipTurn] read [players[1 - currentIndex].id] of [undefined]: the
    callback throws, whoever [currentPlayer] is. *)
Theorem expiry_with_one_player_throws s h t gs p :
  timeouts s !! h = Some t ->
  gameStates s !! to_room t = Some gs ->
  gameOver gs = false ->
  players gs = [p] ->
  expire s h = Uncaught.
Proof.
  intros Hh Hgs Hover Hps. unfold expire, skipTurn. rewrite Hh. simpl.
  rewrite Hgs, Hover.
  assert (otherPlayer (players gs) (currentPlayer gs) = None) as ->; [|done].
  rewrite Hps. unfold otherPlayer, findIndex. simpl.
  by destruct (String.eqb (p_id p) (currentPlayer gs)).
Qed.

Lemma expiry_with_one_player_throws_witness :
  reachable soloLudo /\ expire soloLudo 1%nat = Uncaught.
Proof.
  split; [apply soloLudo_reachable|].
  eapply (expiry_with_one_player_throws soloLudo 1%nat).
  - vm_compute. reflexivity.
  - vm_compute. reflexivity.
  - reflexivity.
  - vm_compute. reflexivity.
Defined.

(** * Further properties of the games *)

(** ** Runs of equal symbols: connect4 and gomoku *)

Lemma run_spec g nrows ncols symbol row col dr dc : forall fuel i n,
  run g nrows ncols symbol row col dr dc i fuel = Some n ->
  0 <= n <= Z.of_nat fuel /\
  (forall j, 0 <= j < n -> holdsAt g nrows ncols symbol row col dr dc (i + j)) /\
  (n < Z.of_nat fuel -> ~ holdsAt g nrows ncols symbol row col dr dc (i + n)).
Proof.
  induction fuel as [|fuel IH]; intros i n; simpl.
  - intros [= <-]. split; [lia|]. split; intros; lia.
  - destruct ((0 <=? row + dr * i) && (row + dr * i <? nrows) &&
              (0 <=? col + dc * i) && (col + dc * i <? ncols)) eqn:Hin.
    + destruct (at2 g (row + dr * i) (col + dc * i)) as [c| |] eqn:Hat; [| |done].
      * destruct (cellIs c symbol) eqn:Hc.
        -- destruct (run g nrows ncols symbol row col dr dc (i + 1) fuel) as [n'|] eqn:Hrun;
             [|done].
           simpl. intros [= <-]. destruct (IH _ _ Hrun) as (Hn & Hall & Hmax).
           split; [lia|]. split.
           ++ intros j Hj. destruct (decide (j = 0)) as [->|Hj0].
              ** rewrite Z.add_0_r. unfold holdsAt. split_and!; try lia. eauto.
              ** replace (i + j) with (i + 1 + (j - 1)) by lia. apply Hall. lia.
           ++ intros Hlt. replace (i + Z.succ n') with (i + 1 + n') by lia.
              apply Hmax. lia.
        -- intros [= <-]. split; [lia|]. split; [intros; lia|].
           intros _ (_ & _ & v & Hv & Hcv). rewrite Z.add_0_r in Hv. congruence.
      * intros [= <-]. split; [lia|]. split; [intros; lia|].
        intros _ (_ & _ & v & Hv & Hcv). rewrite Z.add_0_r in Hv. congruence.
    + intros [= <-]. split; [lia|]. split; [intros; lia|].
      intros _ (Hr & Hc & _). rewrite Z.add_0_r in Hr, Hc.
      apply andb_false_iff in Hin as [Hin|Hin]; [|lia].
      apply andb_false_iff in Hin as [Hin|Hin]; [|lia].
      apply andb_false_iff in Hin as [Hin|Hin]; lia.
Qed.

Lemma holdsAt_opp g nrows ncols symbol row col dr dc m :
  holdsAt g nrows ncols symbol row col (- dr) (- dc) m <->
  holdsAt g nrows ncols symbol row col dr dc (- m).
Proof.
  unfold holdsAt. by rewrite !Z.mul_opp_comm.
Qed.

(** One direction of the outer loop: the two runs reach [need] exactly when
    [need] cells in a row pass through [(row, col)] in that direction. *)
Lemma two_runs_spec g nrows ncols (need : nat) symbol row col dr dc fwd bwd :
  (0 < need)%nat ->
  run g nrows ncols symbol row col dr dc 1 (need - 1) = Some fwd ->
  run g nrows ncols symbol row col (- dr) (- dc) 1 (need - 1) = Some bwd ->
  (Z.of_nat need <=? 1 + fwd + bwd) = true <->
  exists k, 0 <= k < Z.of_nat need /\
            inLine g nrows ncols symbol row col dr dc (- k) (Z.of_nat need - 1 - k).
Proof.
  intros Hneed Hf Hb.
  apply run_spec in Hf as (Hfn & Hfall & Hfmax).
  apply run_spec in Hb as (Hbn & Hball & Hbmax).
  rewrite Z.leb_le. split.
  - intros Hle. exists bwd. split; [lia|]. intros m Hm Hm0.
    destruct (Z.lt_total m 0) as [Hneg|[?|Hpos]]; [|lia|].
    + replace m with (- (1 + (- m - 1))) by lia. apply holdsAt_opp, Hball. lia.
    + replace m with (1 + (m - 1)) by lia. apply Hfall. lia.
  - intros (k & Hk & Hline).
    assert (Z.of_nat need - 1 - k <= fwd) as Hfwd.
    { destruct (Z.le_gt_cases (Z.of_nat need - 1 - k) fwd) as [?|Hlt]; [done|].
      exfalso. apply Hfmax; [lia|]. apply Hline; lia. }
    assert (k <= bwd) as Hbwd.
    { destruct (Z.le_gt_cases k bwd) as [?|Hlt]; [done|].
      exfalso. apply Hbmax; [lia|]. apply holdsAt_opp, Hline; lia. }
    lia.
Qed.

Lemma checkWinner_spec g nrows ncols (need : nat) row col symbol dirs : forall b,
  (0 < need)%nat ->
  checkWinner g nrows ncols need row col symbol dirs = Some b ->
  b = true <-> inARow g nrows ncols (Z.of_nat need) symbol row col dirs.
Proof.
  induction dirs as [|[dr dc] dirs IH]; intros b Hneed; simpl.
  - intros [= <-]. split; [done|]. intros (dr & dc & k & Hin & _). by apply elem_of_nil in Hin.
  - destruct (run g nrows ncols symbol row col dr dc 1 (need - 1)) as [fwd|] eqn:Hf; [|done].
    destruct (run g nrows ncols symbol row col (- dr) (- dc) 1 (need - 1)) as [bwd|] eqn:Hb;
      [|done].
    pose proof (two_runs_spec _ _ _ _ _ _ _ _ _ _ _ Hneed Hf Hb) as Hspec.
    destruct (Z.of_nat need <=? 1 + fwd + bwd) eqn:Hle.
    + intros [= <-]. split; [|done]. intros _.
      destruct Hspec as [Hspec _]. destruct (Hspec eq_refl) as (k & Hk & Hline).
      exists dr, dc, k. split; [apply list_elem_of_here|done].
    + intros H. rewrite (IH _ Hneed H). split.
      * intros (dr' & dc' & k & Hin & Hk). exists dr', dc', k.
        split; [by apply list_elem_of_further|done].
      * intros (dr' & dc' & k & Hin & Hk & Hline).
        apply elem_of_cons in Hin as [[= -> ->]|Hin].
        -- destruct Hspec as [_ Hspec].
           by specialize (Hspec (ex_intro _ k (conj Hk Hline))).
        -- exists dr', dc', k. done.
Qed.

(** X13.  [checkConnect4Winner], when it returns, answers [true] exactly
    when four cells in a row, along a row, a column or a diagonal, pass
    through the cell just played and the three others are on the 6 x 7 board
    and hold the player's symbol. *)
Theorem connect4_win_is_four_in_a_row g row col symbol b :
  checkConnect4Winner g row col symbol = Some b ->
  b = true <-> inARow g 6 7 4 symbol row col directions.
Proof.
  intros H. apply (checkWinner_spec g 6 7 4 row col symbol directions b); [lia|done].
Qed.

Lemma connect4_win_is_four_in_a_row_witness :
  exists g,
    board (stateOf connect4Won) = Connect4Board g /\
    checkConnect4Winner g 2 0 "R" = Some true /\
    inARow g 6 7 4 "R" 2 0 directions.
Proof.
  eexists. split; [vm_compute; reflexivity|]. split; [vm_compute; reflexivity|].
  eapply connect4_win_is_four_in_a_row; [|reflexivity]. vm_compute. reflexivity.
Defined.

(** X14.  [checkGomokuWinner], when it returns, answers [true] exactly when
    five cells in a row pass through the cell just played and the four
    others are on the 15 x 15 board and hold the player's symbol. *)
Theorem gomoku_win_is_five_in_a_row g row col symbol b :
  checkGomokuWinner g row col symbol = Some b ->
  b = true <-> inARow g 15 15 5 symbol row col directions.
Proof.
  intros H. apply (checkWinner_spec g 15 15 5 row col symbol directions b); [lia|done].
Qed.

Lemma gomoku_win_is_five_in_a_row_witness :
  exists g,
    board (stateOf gomokuServer) = GomokuBoard g /\
    checkGomokuWinner g 0 1 "●" = Some false /\
    ~ inARow g 15 15 5 "●" 0 1 directions.
Proof.
  eexists. split; [vm_compute; reflexivity|]. split; [vm_compute; reflexivity|].
  intros Hrow.
  eapply (gomoku_win_is_five_in_a_row _ 0 1 "●" false) in Hrow; [discriminate Hrow|].
  vm_compute. reflexivity.
Defined.

(** ** connect4: where a disc lands *)

Lemma lowestEmptyRow_spec g col row :
  lowestEmptyRow g col [5; 4; 3; 2; 1; 0] = Some row -> row <> -1 ->
  0 <= row <= 5 /\
  at2 g row col = Value None /\
  (forall r', row < r' <= 5 -> at2 g r' col <> Value None).
Proof.
  simpl. intros H Hrow.
  repeat match type of H with
         | match ?x with _ => _ end = _ => destruct x as [[?|]| |] eqn:?
         end;
    try discriminate H; injection H as <-; try done;
    (split; [lia|]; split; [done|]);
    intros r' Hr';
    assert (r' = 5 \/ r' = 4 \/ r' = 3 \/ r' = 2 \/ r' = 1) as Hcases by lia;
    repeat (destruct Hcases as [->|Hcases]); try lia; subst; congruence.
Qed.

(** X15.  An accepted connect4 move puts the mover's disc in the lowest
    empty cell of the chosen column: the cell was empty, no cell below it in
    that column is, and the board changes in that cell only.  The move is
    reported as a win exactly when four of the mover's discs then stand in a
    row through that cell; otherwise nothing is reported. *)
Theorem connect4_disc_falls gs g move playerId r cl :
  board gs = Connect4Board g ->
  processConnect4Move gs move playerId = (Returned r, cl) ->
  valid r = true ->
  let col := mv_column move in
  let symbol := if findIndex (players gs) playerId =? 0 then "R" else "Y" in
  exists row,
    0 <= row <= 5 /\
    at2 g row col = Value None /\
    (forall r', row < r' <= 5 -> at2 g r' col <> Value None) /\
    board (res_gameState r) = Connect4Board (put2 g row col (Some symbol)) /\
    (extra r = [x_winner (Some playerId)] \/ extra r = []) /\
    (extra r = [x_winner (Some playerId)] <->
     inARow (put2 g row col (Some symbol)) 6 7 4 symbol row col directions).
Proof.
  intros Hboard H Hv col symbol. unfold processConnect4Move in H.
  rewrite Hboard in H. fold col symbol in H.
  destruct (negb _); [by injection H as <- _|].
  destruct (lowestEmptyRow g col [5; 4; 3; 2; 1; 0]) as [row|] eqn:Hrow; [|done].
  destruct (row =? -1) eqn:Hfull; [by injection H as <- _|].
  apply Z.eqb_neq in Hfull.
  destruct (lowestEmptyRow_spec _ _ _ Hrow Hfull) as (Hrange & Hempty & Hbelow).
  exists row. split; [done|]. split; [done|]. split; [done|].
  destruct (checkConnect4Winner _ row col symbol) as [won|] eqn:Hwon; [|done].
  assert (won = true <->
          inARow (put2 g row col (Some symbol)) 6 7 4 symbol row col directions) as Hspec
    by (apply (checkWinner_spec _ 6 7 4 row col symbol directions won); [lia|done]).
  destruct won.
  - injection H as <- _. simpl. split; [done|]. split; [by left|].
    split; [intros _; by apply Hspec|done].
  - unfold switchTurns in H. destruct (otherPlayer _ _); [|done].
    injection H as <- _. simpl. split; [done|]. split; [by right|].
    split; [done|]. intros Hrow'. by apply Hspec in Hrow'.
Qed.

Lemma connect4_disc_falls_witness :
  exists r,
    processConnect4Move (stateOf (lobbyWith "connect4" [])) (dropIn 3) "s-alice"
    = (Returned r, []) /\
    exists row,
      0 <= row <= 5 /\
      board (res_gameState r)
      = Connect4Board (put2 (replicate 6 (replicate 7 None)) row 3 (Some "R")) /\
      extra r = [].
Proof.
  eexists. split; [vm_compute; reflexivity|].
  edestruct (connect4_disc_falls (stateOf (lobbyWith "connect4" []))
               (replicate 6 (replicate 7 None)) (dropIn 3) "s-alice")
    as (row & Hrange & _ & _ & Hboard & _ & _).
  - vm_compute. reflexivity.
  - vm_compute. reflexivity.
  - reflexivity.
  - exists row. split; [exact Hrange|]. split; [exact Hboard|reflexivity].
Defined.

(** ** gomoku: the line that is reported *)

Lemma run_bounds g nrows ncols symbol row col dr dc i fuel n :
  run g nrows ncols symbol row col dr dc i fuel = Some n -> 0 <= n <= Z.of_nat fuel.
Proof. intros H. by apply run_spec in H as (? & _). Qed.

(** The cells collected by [findWinningLine] in one direction, when they are
    five or more: the first five start [bwd] steps before the cell played. *)
Lemma winning_cells row col dr dc fwd bwd :
  0 <= fwd <= 4 -> 0 <= bwd <= 4 -> 5 <= 1 + fwd + bwd ->
  take 5 (((fun i => (row - dr * i, col - dc * i)) <$> reverse (seqZ 1 bwd)) ++
          (row, col) :: ((fun i => (row + dr * i, col + dc * i)) <$> seqZ 1 fwd))
  = (fun m => (row + dr * m, col + dc * m)) <$> seqZ (- bwd) 5.
Proof.
  intros Hf Hb Hsum.
  assert (fwd = 0 \/ fwd = 1 \/ fwd = 2 \/ fwd = 3 \/ fwd = 4) as Hfs by lia.
  assert (bwd = 0 \/ bwd = 1 \/ bwd = 2 \/ bwd = 3 \/ bwd = 4) as Hbs by lia.
  destruct Hfs as [->|[->|[->|[->| ->]]]], Hbs as [->|[->|[->|[->| ->]]]];
    try lia;
    repeat match goal with
           | |- context [seqZ ?a ?b] =>
               let l := eval vm_compute in (seqZ a b) in change (seqZ a b) with l
           end;
    simpl; repeat f_equal; lia.
Qed.

Lemma findWinningLine_spec g row col symbol dirs : forall line,
  checkWinner g 15 15 5 row col symbol dirs = Some true ->
  findWinningLine g row col symbol dirs = Some line ->
  exists dr dc k,
    (dr, dc) ∈ dirs /\ 0 <= k <= 4 /\
    line = (fun m => (row + dr * m, col + dc * m)) <$> seqZ (- k) 5 /\
    inLine g 15 15 symbol row col dr dc (- k) (4 - k).
Proof.
  induction dirs as [|[dr dc] dirs IH]; intros line;
    cbn [checkWinner findWinningLine]; [by intros [=]|].
  change (5 - 1)%nat with 4%nat.
  destruct (run g 15 15 symbol row col dr dc 1 4) as [fwd|] eqn:Hf; [|done].
  destruct (run g 15 15 symbol row col (- dr) (- dc) 1 4) as [bwd|] eqn:Hb; [|done].
  pose proof (run_bounds _ _ _ _ _ _ _ _ _ _ _ Hf) as Hfn.
  pose proof (run_bounds _ _ _ _ _ _ _ _ _ _ _ Hb) as Hbn.
  rewrite length_app, length_cons, !length_fmap, length_reverse, !length_seqZ.
  replace (Z.of_nat (Z.to_nat bwd + S (Z.to_nat fwd))) with (1 + fwd + bwd) by lia.
  change (Z.of_nat 5) with 5.
  destruct (5 <=? 1 + fwd + bwd) eqn:Hle.
  - intros _ [= <-]. apply Z.leb_le in Hle.
    exists dr, dc, bwd. split; [apply list_elem_of_here|]. split; [lia|].
    split; [apply winning_cells; lia|].
    assert ((Z.of_nat 5 <=? 1 + fwd + bwd) = true) as Hle' by (apply Z.leb_le; lia).
    apply (two_runs_spec g 15 15 5 symbol row col dr dc fwd bwd) in Hle'; [|lia|done|done].
    apply run_spec in Hf as (_ & Hfall & _). apply run_spec in Hb as (_ & Hball & _).
    intros m Hm Hm0. destruct (Z.lt_total m 0) as [Hneg|[?|Hpos]]; [|lia|].
    + replace m with (- (1 + (- m - 1))) by lia. apply holdsAt_opp, Hball. lia.
    + replace m with (1 + (m - 1)) by lia. apply Hfall. lia.
  - intros Hwin Hline. destruct (IH _ Hwin Hline) as (dr' & dc' & k & Hin & Hrest).
    exists dr', dc', k. split; [by apply list_elem_of_further|done].
Qed.

(** X16.  When [processGomokuMove] reports a [winningLine], the stone was
    placed on an empty cell, the game is over with the mover as winner, and
    the line is five cells in a row along one of the four directions that
    contain the cell just played, each of the other four on the board and
    holding the mover's symbol. *)
Theorem gomoku_reports_five_in_a_row gs g move playerId r cl line :
  board gs = GomokuBoard g ->
  processGomokuMove gs move playerId = (Returned r, cl) ->
  In (x_winningLine line) (extra r) ->
  let row := mv_index move / 15 in
  let col := Z.rem (mv_index move) 15 in
  let symbol := if findIndex (players gs) playerId =? 0 then "●" else "○" in
  let g' := put2 g row col (Some symbol) in
  at2 g row col = Value None /\
  board (res_gameState r) = GomokuBoard g' /\
  gameOver (res_gameState r) = true /\ winner (res_gameState r) = Some playerId /\
  exists dr dc k,
    (dr, dc) ∈ directions /\ 0 <= k <= 4 /\
    line = (fun m => (row + dr * m, col + dc * m)) <$> seqZ (- k) 5 /\
    inLine g' 15 15 symbol row col dr dc (- k) (4 - k).
Proof.
  intros Hboard H Hline row col symbol g'. unfold processGomokuMove in H.
  rewrite Hboard, clearExistingTimer_recorded in H. cbv beta iota zeta in H.
  fold row col in H. cbn [players set_timer] in H. fold symbol in H. fold g' in H.
  destruct (negb _ || _); [injection H as <- _; by destruct Hline|].
  destruct (at2 g row col) as [[v|]| |] eqn:Hcell;
    try (injection H as <- _; by destruct Hline); [|done].
  destruct (checkGomokuWinner g' row col symbol) as [[]|] eqn:Hwin; [| |done].
  - destruct (findWinningLine g' row col symbol directions) as [line'|] eqn:Hfind; [|done].
    injection H as <- _. simpl in *.
    destruct Hline as [[=]|[[= ->]|[]]].
    split; [done|]. split; [done|]. split; [done|]. split; [done|].
    by apply findWinningLine_spec.
  - destruct (forallb _ g').
    + injection H as <- _. simpl in Hline. by destruct Hline as [[=]|[]].
    + unfold switchTurns in H. destruct (otherPlayer _ _); [|done].
      injection H as <- _. by destruct Hline.
Qed.

Lemma gomoku_reports_five_in_a_row_witness :
  exists r,
    processGomokuMove gomokuFour (cellIndex 4) "s-alice" = (Returned r, []) /\
    extra r = [x_winner (Some "s-alice");
               x_winningLine [(0, 0); (0, 1); (0, 2); (0, 3); (0, 4)]] /\
    winner (res_gameState r) = Some "s-alice".
Proof.
  eexists. split; [vm_compute; reflexivity|]. split; [reflexivity|].
  edestruct (gomoku_reports_five_in_a_row gomokuFour fourStones (cellIndex 4) "s-alice")
    with (line := [(0, 0); (0, 1); (0, 2); (0, 3); (0, 4)])
    as (_ & _ & _ & Hw & _).
  - reflexivity.
  - vm_compute. reflexivity.
  - right. left. reflexivity.
  - exact Hw.
Defined.

(** ** Arrays *)

Lemma at_put_ne {A} (l : list A) i j v : i <> j -> at_ (put l i v) j = at_ l j.
Proof.
  unfold at_, put. intros Hne.
  destruct (0 <=? j) eqn:Hj; [|done]. destruct (0 <=? i) eqn:Hi; [|done].
  apply list_lookup_insert_ne. lia.
Qed.

Lemma at_put_same {A} (l : list A) i v :
  at_ (put l i v) i = match at_ l i with Some _ => Some v | None => None end.
Proof.
  destruct (at_ l i) as [x|] eqn:E; [by eapply at_put_eq|].
  unfold at_, put in *. destruct (0 <=? i); [|done].
  apply lookup_ge_None. rewrite length_insert. by apply lookup_ge_None.
Qed.

Lemma at2_put2_eq {A} (g : list (list A)) r c v x :
  at2 g r c = Value x -> at2 (put2 g r c v) r c = Value v.
Proof.
  unfold at2, put2. destruct (at_ g r) as [line|] eqn:Hr; [|done].
  destruct (at_ line c) as [y|] eqn:Hc; [|done]. intros _.
  by rewrite (at_put_eq _ _ _ _ Hr), (at_put_eq _ _ _ _ Hc).
Qed.

Lemma at2_put2_ne {A} (g : list (list A)) r c v r' c' :
  (r, c) <> (r', c') -> at2 (put2 g r c v) r' c' = at2 g r' c'.
Proof.
  unfold at2, put2. intros Hne. destruct (at_ g r) as [line|] eqn:Hr; [|done].
  destruct (decide (r = r')) as [<-|Hrow].
  - rewrite (at_put_eq _ _ _ _ Hr), Hr. rewrite at_put_ne; [done|congruence].
  - by rewrite at_put_ne.
Qed.

(** ** dotsandboxes *)

Lemma checkCompletedBoxes_spec b sym coords : forall bx bx' done,
  NoDup coords ->
  checkCompletedBoxes b sym bx coords = (bx', Some done) ->
  forall r c,
    ((r, c) ∈ done <->
     (r, c) ∈ coords /\ at2 bx r c = Value None /\
     edge (horizontalLines b) r c = Some true /\
     edge (horizontalLines b) (r + 1) c = Some true /\
     edge (verticalLines b) r c = Some true /\
     edge (verticalLines b) r (c + 1) = Some true) /\
    at2 bx' r c = if decide ((r, c) ∈ done) then Value (Some sym) else at2 bx r c.
Proof.
  induction coords as [|[row col] rest IH]; intros bx bx' done Hnd; simpl.
  - intros [= <- <-] r c. split; [|done]. split; [by intros ?%elem_of_nil|].
    by intros [?%elem_of_nil _].
  - apply NoDup_cons in Hnd as [Hfresh Hnd].
    assert (forall bx0 done0,
              checkCompletedBoxes b sym bx0 rest = (bx', Some done0) ->
              ((row, col) ∉ done0) /\ at2 bx' row col = at2 bx0 row col) as Hskip.
    { intros bx0 done0 H0. destruct (IH _ _ _ Hnd H0 row col) as [Hin Hat].
      assert ((row, col) ∉ done0) as Hout by (intros ?; apply Hfresh; by apply Hin).
      split; [done|]. by rewrite decide_False in Hat. }
    assert (forall done0,
              checkCompletedBoxes b sym bx rest = (bx', Some done0) ->
              done = done0 ->
              ~ (at2 bx row col = Value None /\
                 edge (horizontalLines b) row col = Some true /\
                 edge (horizontalLines b) (row + 1) col = Some true /\
                 edge (verticalLines b) row col = Some true /\
                 edge (verticalLines b) row (col + 1) = Some true) ->
              forall r c,
                ((r, c) ∈ done <->
                 (r, c) ∈ (row, col) :: rest /\ at2 bx r c = Value None /\
                 edge (horizontalLines b) r c = Some true /\
                 edge (horizontalLines b) (r + 1) c = Some true /\
                 edge (verticalLines b) r c = Some true /\
                 edge (verticalLines b) r (c + 1) = Some true) /\
                at2 bx' r c
                = if decide ((r, c) ∈ done) then Value (Some sym) else at2 bx r c) as Hpass.
    { intros done0 H0 -> Hnot r c. destruct (IH _ _ _ Hnd H0 r c) as [Hin Hat].
      split; [|done]. rewrite Hin, elem_of_cons. split; [tauto|].
      intros ([[= -> ->]|?] & ?); [tauto|done]. }
    destruct (at2 bx row col) as [[v|]| |] eqn:Hcell; [| | |done].
    + intros H. eapply Hpass; [done|done|]. by intros [[=] _].
    + destruct (edge (horizontalLines b) row col) as [topLine|] eqn:Htop; [|done].
      destruct (edge (horizontalLines b) (row + 1) col) as [bottomLine|] eqn:Hbottom; [|done].
      destruct (edge (verticalLines b) row col) as [leftLine|] eqn:Hleft; [|done].
      destruct (edge (verticalLines b) row (col + 1)) as [rightLine|] eqn:Hright; [|done].
      destruct (topLine && bottomLine && leftLine && rightLine) eqn:Hall.
      * destruct (checkCompletedBoxes b sym (put2 bx row col (Some sym)) rest)
          as [bx1 [done1|]] eqn:Hrest; [|done].
        simpl. intros [= <- <-] r c.
        destruct (Hskip _ _ Hrest) as [Hout Hat0].
        destruct (IH _ _ _ Hnd Hrest r c) as [Hin Hat].
        apply andb_true_iff in Hall as [Hall ->].
        apply andb_true_iff in Hall as [Hall ->].
        apply andb_true_iff in Hall as [-> ->].
        destruct (decide ((r, c) = (row, col))) as [[= -> ->]|Hne].
        -- split.
           ++ split; [intros _; split; [apply list_elem_of_here|done]|].
              intros _. apply list_elem_of_here.
           ++ rewrite decide_True by apply list_elem_of_here.
              rewrite Hat0. by eapply at2_put2_eq.
        -- rewrite at2_put2_ne in Hin, Hat by congruence. split.
           ++ rewrite !elem_of_cons, Hin. split; [intros [?|?]; [done|tauto]|].
              intros ([?|?] & ?); [done|]. right. tauto.
           ++ rewrite Hat. destruct (decide ((r, c) ∈ done1)) as [Hd|Hd].
              ** by rewrite decide_True by (by apply list_elem_of_further).
              ** rewrite decide_False; [done|]. intros [?|?]%elem_of_cons; done.
      * intros H. eapply Hpass; [done|done|].
        intros (_ & [= ->] & [= ->] & [= ->] & [= ->]). done.
    + intros H. eapply Hpass; [done|done|]. by intros [[=] _].
Qed.

Lemma boxCoords_spec r c : (r, c) ∈ boxCoords <-> 0 <= r < 3 /\ 0 <= c < 3.
Proof.
  unfold boxCoords. rewrite !elem_of_cons, elem_of_nil. split.
  - intros H. repeat destruct H as [H|H]; try done; injection H as -> ->; lia.
  - intros [Hr Hc].
    assert (r = 0 \/ r = 1 \/ r = 2) as [->|[->| ->]] by lia;
      assert (c = 0 \/ c = 1 \/ c = 2) as [->|[->| ->]] by lia; tauto.
Qed.

(** X17.  [checkCompletedBoxes], when it returns, reports exactly the boxes
    of the 3 x 3 grid that were unclaimed and have their four sides drawn; it
    claims those for the player's symbol and leaves every other box as it
    was. *)
Theorem completed_boxes_are_the_closed_ones b sym bx bx' done r c :
  checkCompletedBoxes b sym bx boxCoords = (bx', Some done) ->
  ((r, c) ∈ done <->
   (0 <= r < 3 /\ 0 <= c < 3) /\ at2 bx r c = Value None /\
   edge (horizontalLines b) r c = Some true /\
   edge (horizontalLines b) (r + 1) c = Some true /\
   edge (verticalLines b) r c = Some true /\
   edge (verticalLines b) r (c + 1) = Some true) /\
  at2 bx' r c = if decide ((r, c) ∈ done) then Value (Some sym) else at2 bx r c.
Proof.
  intros H. rewrite <- boxCoords_spec.
  apply (checkCompletedBoxes_spec b sym boxCoords bx bx' done); [|done].
  apply (bool_decide_unpack _). vm_compute. reflexivity.
Qed.

Lemma completed_boxes_are_the_closed_ones_witness :
  exists bx',
    checkCompletedBoxes closedBox "P1" (boxes closedBox) boxCoords = (bx', Some [(0, 0)]) /\
    at2 bx' 0 0 = Value (Some "P1") /\ at2 bx' 0 1 = Value None.
Proof.
  eexists. split; [vm_compute; reflexivity|].
  split.
  - edestruct (completed_boxes_are_the_closed_ones closedBox "P1" (boxes closedBox))
      with (done := [(0, 0)]) (r := 0) (c := 0) as [_ Hat]; [vm_compute; reflexivity|].
    rewrite Hat. reflexivity.
  - reflexivity.
Defined.

(** X18.  An accepted dots-and-boxes move credits the mover with the boxes it
    completes, one point each, and counts them in [completedBoxes]; the other
    player's score is untouched.  The mover keeps the turn exactly when a box
    was completed, otherwise the turn passes; and the game is over exactly
    when the completed boxes reach [totalBoxes]. *)
Theorem dots_move_scores gs b move playerId r cl :
  board gs = DotsAndBoxesBoard b ->
  processDotsAndBoxesMove gs move playerId = (Returned r, cl) ->
  valid r = true ->
  exists b' done,
    board (res_gameState r) = DotsAndBoxesBoard b' /\
    In (x_completedBoxes done) (extra r) /\
    let n := Z.of_nat (length done) in
    completedBoxes b' = completedBoxes b + n /\
    totalBoxes b' = totalBoxes b /\
    (if findIndex (players gs) playerId =? 0
     then score1 b' = score1 b + n /\ score2 b' = score2 b
     else score1 b' = score1 b /\ score2 b' = score2 b + n) /\
    (n = 0 -> otherPlayer (players gs) playerId = Some (currentPlayer (res_gameState r))) /\
    (0 < n -> currentPlayer (res_gameState r) = currentPlayer gs) /\
    (gameOver (res_gameState r) = true <-> totalBoxes b <= completedBoxes b + n).
Proof.
  intros Hboard H Hv. unfold processDotsAndBoxesMove in H.
  rewrite Hboard, clearExistingTimer_recorded in H. cbv beta iota zeta in H.
  destruct (negb _ || gameOver gs) eqn:Hguard; [by injection H as <- _|].
  apply orb_false_elim in Hguard as [_ Hover].
  match type of H with
  | match ?placed with _ => _ end = _ => destruct placed as [b1|] eqn:Hplaced
  end; [|by injection H as <- _].
  assert (score1 b1 = score1 b /\ score2 b1 = score2 b /\
          completedBoxes b1 = completedBoxes b /\ totalBoxes b1 = totalBoxes b)
    as (Hs1 & Hs2 & Hcb & Htb).
  { repeat case_match; simplify_eq; done. }
  clear Hplaced. cbn [players set_firstMoveMade set_board set_timer] in H.
  destruct (checkCompletedBoxes b1 _ (boxes b1) boxCoords) as [bx [completed|]] eqn:Hdone; [|done].
  assert (forall gs0 b0,
            gameOver gs0 = false ->
            finishDots gs0 b0 completed = Returned r ->
            board (res_gameState r) = board gs0 /\
            currentPlayer (res_gameState r) = currentPlayer gs0 /\
            In (x_completedBoxes completed) (extra r) /\
            (gameOver (res_gameState r) = true <-> totalBoxes b0 <= completedBoxes b0))
    as Hfinish.
  { intros gs0 b0 Hover0. unfold finishDots.
    destruct (totalBoxes b0 <=? completedBoxes b0) eqn:Hle.
    - apply Z.leb_le in Hle. intros Hr.
      repeat case_match; simplify_eq; simpl; (split_and!; [done|done|by left|done]).
    - apply Z.leb_gt in Hle. intros [= <-]. simpl.
      split_and!; [done|done|by left|]. rewrite Hover0. split; [done|lia]. }
  destruct (0 <? Z.of_nat (length completed)) eqn:Hn.
  - apply Z.ltb_lt in Hn. injection H as H _.
    apply Hfinish in H as (Hb & Hcur & Hex & Hend); [|done].
    simpl in Hb, Hcur, Hend. rewrite Hcb, Htb in Hend.
    eexists _, completed. split; [exact Hb|]. split; [done|]. simpl.
    rewrite Hcb, Htb, Hs1, Hs2. split_and!; try done; try lia.
    destruct (findIndex (players gs) playerId =? 0); done.
  - apply Z.ltb_ge in Hn.
    destruct (otherPlayer (players gs) playerId) as [o|] eqn:Ho; [|done].
    injection H as H _. apply Hfinish in H as (Hb & Hcur & Hex & Hend); [|done].
    simpl in Hb, Hcur, Hend. rewrite Hcb, Htb in Hend.
    eexists _, completed. split; [exact Hb|]. split; [done|]. simpl.
    rewrite Hcb, Htb, Hs1, Hs2.
    replace (Z.of_nat (length completed)) with 0 by lia. rewrite !Z.add_0_r.
    split_and!; try done; try lia.
    + destruct (findIndex (players gs) playerId =? 0); done.
    + intros _. by rewrite Hcur.
Qed.

Lemma dots_move_scores_witness :
  exists r,
    processDotsAndBoxesMove threeSides (drawLine "vertical" 0 1) "s-alice" = (Returned r, []) /\
    currentPlayer (res_gameState r) = "s-alice" /\
    exists b' completed,
      board (res_gameState r) = DotsAndBoxesBoard b' /\
      In (x_completedBoxes completed) (extra r) /\
      completedBoxes b' = 0 + Z.of_nat (length completed).
Proof.
  eexists. split; [vm_compute; reflexivity|]. split; [reflexivity|].
  edestruct (dots_move_scores threeSides) with (move := drawLine "vertical" 0 1)
    (playerId := "s-alice") as (b' & completed & Hb & Hex & Hc & _).
  - reflexivity.
  - vm_compute. reflexivity.
  - reflexivity.
  - exists b', completed. split; [exact Hb|]. split; [exact Hex|exact Hc].
Defined.

(** ** memorymatch *)

Lemma put_insert {A} (l : list A) i v x :
  at_ l i = Some x -> put l i v = <[Z.to_nat i := v]> l /\ l !! Z.to_nat i = Some x.
Proof.
  unfold at_, put. by destruct (0 <=? i).
Qed.

Lemma fmap_put_same {A B} (f : A -> B) (l : list A) i v x :
  at_ l i = Some x -> f v = f x -> f <$> put l i v = f <$> l.
Proof.
  intros Hat Hf. destruct (put_insert l i v x Hat) as [-> Hl].
  rewrite list_fmap_insert, Hf. apply list_insert_id. by rewrite list_lookup_fmap, Hl.
Qed.

(** X19.  memorymatch never turns a mismatch back.  A second flip that
    differs in value from the pending card is accepted with [noMatch] and
    leaves both indices in [flippedCards].  From then on, with two or more
    indices pending, whatever the handler returns, [flippedCards] still holds
    two or more, no card becomes matched, no score changes, nothing is
    reported and the game does not end: no pair is ever scored again. *)
Theorem memorymatch_mismatch_is_never_cleared :
  (forall gs b move playerId first firstCard card,
     board gs = MemoryMatchBoard b ->
     flippedCards b = [first] ->
     at_ (cards b) first = Some firstCard ->
     at_ (cards b) (mv_cardIndex move) = Some card ->
     flipped card = false -> matched card = false ->
     value firstCard <> value card ->
     currentPlayer gs = playerId -> gameOver gs = false ->
     exists r cl b',
       processMemoryMatchMove gs move playerId = (Returned r, cl) /\
       valid r = true /\ extra r = [x_noMatch] /\
       board (res_gameState r) = MemoryMatchBoard b' /\
       flippedCards b' = [first; mv_cardIndex move]) /\
  (forall gs b move playerId r cl,
     board gs = MemoryMatchBoard b ->
     (2 <= length (flippedCards b))%nat ->
     processMemoryMatchMove gs move playerId = (Returned r, cl) ->
     exists b',
       board (res_gameState r) = MemoryMatchBoard b' /\
       (2 <= length (flippedCards b'))%nat /\
       mm_scores b' = mm_scores b /\
       matched <$> cards b' = matched <$> cards b /\
       gameOver (res_gameState r) = gameOver gs /\
       extra r = []).
Proof.
  split.
  - intros gs b move playerId first firstCard card Hboard Hpending Hfirst Hcard Hfl Hm Hne
      Hcur Hover.
    unfold processMemoryMatchMove.
    rewrite (current_guard _ _ Hcur), Hover, Hboard, clearExistingTimer_recorded. simpl.
    rewrite Hcard, Hfl, Hm, Hpending. simpl.
    assert (first <> mv_cardIndex move) as Hidx by (intros ->; congruence).
    rewrite at_put_ne, Hfirst by done. rewrite (at_put_eq _ _ _ _ Hcard). simpl.
    apply Z.eqb_neq in Hne. rewrite Hne. eauto 10.
  - intros gs b move playerId r cl Hboard Hpending H.
    unfold processMemoryMatchMove in H.
    rewrite Hboard, clearExistingTimer_recorded in H. cbv beta iota zeta in H.
    destruct (negb _ || gameOver gs); [injection H as <- _; by exists b|].
    destruct (at_ (cards b) (mv_cardIndex move)) as [card|] eqn:Hcard;
      [|injection H as <- _; by exists b].
    destruct (flipped card || matched card); [injection H as <- _; by exists b|].
    destruct (flippedCards b) as [|i [|j rest]] eqn:Hfl; simpl in Hpending; try lia.
    simpl in H. destruct rest; injection H as <- _; simpl;
      (eexists; split; [done|]; split_and!; simpl; try done; try lia;
       by apply (fmap_put_same matched _ _ _ card)).
Qed.

Lemma memorymatch_mismatch_is_never_cleared_witness :
  exists b,
    board flippedTwo = MemoryMatchBoard b /\ flippedCards b = [0; 1] /\
    exists r b',
      processMemoryMatchMove flippedTwo (flipCard 2) "s-alice" = (Returned r, []) /\
      board (res_gameState r) = MemoryMatchBoard b' /\
      (2 <= length (flippedCards b'))%nat /\ extra r = [].
Proof.
  destruct memorymatch_mismatch_is_never_cleared as [_ Hstuck].
  eexists. split; [vm_compute; reflexivity|]. split; [reflexivity|].
  eexists.
  edestruct (Hstuck flippedTwo) with (move := flipCard 2) (playerId := "s-alice")
    as (b' & Hb & Hlen & _ & _ & _ & Hex).
  - vm_compute. reflexivity.
  - vm_compute. lia.
  - vm_compute. reflexivity.
  - exists b'. split; [reflexivity|]. split; [exact Hb|]. split; [exact Hlen|exact Hex].
Defined.

(** ** The deck of memorymatch *)

Lemma shuffle_Permutation fuel : forall deck i rnd, shuffle deck i rnd fuel ≡ₚ deck.
Proof.
  induction fuel as [|fuel IH]; intros deck i rnd; simpl; [done|].
  destruct (at_ deck i) as [ci|] eqn:Hi; [|done].
  destruct (at_ deck (hd 0 rnd mod (i + 1))) as [cj|] eqn:Hj; [|done].
  rewrite IH.
  destruct (put_insert deck i cj ci Hi) as [-> Hli].
  assert (at_ (<[Z.to_nat i := cj]> deck) (hd 0 rnd mod (i + 1)) <> None) as Hj'.
  { unfold at_ in *. destruct (0 <=? hd 0 rnd mod (i + 1)); [|done].
    apply lookup_lt_Some in Hj. intros Hnone. apply lookup_ge_None in Hnone.
    rewrite length_insert in Hnone. lia. }
  destruct (at_ (<[Z.to_nat i := cj]> deck) (hd 0 rnd mod (i + 1))) as [x|] eqn:Hx; [|done].
  destruct (put_insert _ _ ci x Hx) as [-> _].
  destruct (put_insert deck _ ci cj Hj) as [_ Hlj].
  by apply Permutation_insert_swap.
Qed.

(** X20.  Whatever [Math.random] draws, the shuffle only permutes the deck:
    the sixteen cards [initializeMemoryMatch] deals are the values 1 to 8,
    each twice, all face down and unmatched, and no card is pending. *)
Theorem memorymatch_deck_is_eight_pairs rnd :
  value <$> cards (initializeMemoryMatch rnd)
  ≡ₚ [1; 1; 2; 2; 3; 3; 4; 4; 5; 5; 6; 6; 7; 7; 8; 8] /\
  Forall (fun c => flipped c = false /\ matched c = false) (cards (initializeMemoryMatch rnd)) /\
  flippedCards (initializeMemoryMatch rnd) = [].
Proof.
  unfold initializeMemoryMatch. cbn [cards flippedCards]. split; [|split; [|done]].
  - match goal with
    | |- value <$> (?mk <$> ?l) ≡ₚ _ =>
        assert (forall vs : list Z, value <$> (mk <$> vs) = vs) as ->
          by (induction vs as [|v vs IH]; [done|]; rewrite !fmap_cons, IH; done)
    end.
    rewrite shuffle_Permutation. by vm_compute.
  - apply Forall_fmap, Forall_forall. by intros.
Qed.

(** ** minesweeper: the mines that are laid *)

Lemma count_put {A} (P : A -> bool) (l : list A) i x y :
  at_ l i = Some x ->
  (length (List.filter P (put l i y)) + (if P x then 1 else 0)
   = length (List.filter P l) + (if P y then 1 else 0))%nat.
Proof.
  intros Hat. destruct (put_insert l i y x Hat) as [-> Hl].
  rewrite insert_take_drop by (by eapply lookup_lt_Some).
  rewrite <- (take_drop_middle l _ x Hl) at 3.
  rewrite !List.filter_app, !length_app. simpl.
  destruct (P x), (P y); simpl; lia.
Qed.

Lemma mineCount_put2 (g : list (list Mine)) r c m m' :
  at2 g r c = Value m ->
  (mineCount (put2 g r c m') + (if isMine m then 1 else 0)
   = mineCount g + (if isMine m' then 1 else 0))%nat.
Proof.
  unfold at2, put2, mineCount. destruct (at_ g r) as [line|] eqn:Hr; [|done].
  destruct (at_ line c) as [x|] eqn:Hc; [|done]. intros [= ->].
  pose proof (count_put isMine line c m m' Hc) as Hline.
  destruct (put_insert g r (put line c m') line Hr) as [-> Hl].
  rewrite insert_take_drop by (by eapply lookup_lt_Some).
  rewrite <- (take_drop_middle g _ line Hl) at 3.
  rewrite !concat_app, !concat_cons, !List.filter_app, !length_app. lia.
Qed.

Lemma length_put {A} (l : list A) i v : length (put l i v) = length l.
Proof. unfold put. destruct (0 <=? i); [apply length_insert|done]. Qed.

Lemma shape_put2 {A} (g : list (list A)) r c v : length <$> put2 g r c v = length <$> g.
Proof.
  unfold put2. destruct (at_ g r) as [line|] eqn:Hr; [|done].
  apply (fmap_put_same length _ _ _ line Hr), length_put.
Qed.

Lemma Forall_put {A} (P : A -> Prop) (l : list A) i v : Forall P l -> P v -> Forall P (put l i v).
Proof. unfold put. destruct (0 <=? i); [apply Forall_insert|done]. Qed.

Lemma Forall_put2 {A} (P : A -> Prop) (g : list (list A)) r c v :
  Forall (Forall P) g -> P v -> Forall (Forall P) (put2 g r c v).
Proof.
  intros Hg Hv. unfold put2. destruct (at_ g r) as [line|] eqn:Hr; [|done].
  apply Forall_put; [done|]. apply Forall_put; [|done].
  rewrite Forall_forall in Hg. apply Hg. by eapply at_elem.
Qed.

(** The loop lays exactly [left] further mines, on cells that had none, and
    touches nothing else. *)
Lemma placeMines_spec n : forall rnd left g g',
  (length rnd <= n)%nat ->
  placeMines g left rnd = Some g' ->
  mineCount g' = (mineCount g + left)%nat /\
  length <$> g' = length <$> g /\
  (Forall (Forall (fun m => isRevealed m = false /\ neighborCount m = 0)) g ->
   Forall (Forall (fun m => isRevealed m = false /\ neighborCount m = 0)) g').
Proof.
  assert (forall g g' : list (list Mine), Some g = Some g' ->
            mineCount g' = (mineCount g + 0)%nat /\
            length <$> g' = length <$> g /\
            (Forall (Forall (fun m => isRevealed m = false /\ neighborCount m = 0)) g ->
             Forall (Forall (fun m => isRevealed m = false /\ neighborCount m = 0)) g'))
    as Hnone by (intros g g' [= <-]; split; [lia|done]).
  induction n as [|n IH]; intros rnd left g g' Hlen.
  - destruct rnd; [|simpl in Hlen; lia]. destruct left; simpl; [apply Hnone|done].
  - destruct rnd as [|r [|c rnd']]; (destruct left as [|left']; simpl; [apply Hnone|]);
      try done.
    simpl in Hlen.
    destruct (at2 g (r mod 8) (c mod 8)) as [m| |] eqn:Hcell; try done.
    destruct (isMine m) eqn:Hmine.
    + intros H. apply (IH rnd' (S left') g g'); [lia|done].
    + intros H. apply IH in H as (Hcount & Hshape & Hfresh); [|lia].
      pose proof (mineCount_put2 g (r mod 8) (c mod 8) m
                    {| isMine := true; isRevealed := isRevealed m;
                       neighborCount := neighborCount m; revealedBy := revealedBy m |}
                    Hcell) as Hput.
      rewrite Hmine in Hput. simpl in Hput.
      rewrite shape_put2 in Hshape. split; [lia|]. split; [done|].
      intros Hg. apply Hfresh, Forall_put2; [done|]. simpl.
      rewrite Forall_forall in Hg.
      unfold at2 in Hcell. destruct (at_ g (r mod 8)) as [line|] eqn:Hr; [|done].
      destruct (at_ line (c mod 8)) as [x|] eqn:Hc; [|done]. injection Hcell as ->.
      apply at_elem in Hr, Hc. specialize (Hg _ Hr). rewrite Forall_forall in Hg. auto.
Qed.

(** X21.  Whatever [Math.random] draws, the minesweeper board that
    [initializeGameState] builds is 8 x 8, holds exactly ten mines, and has no
    cell revealed: the 54 safe cells the handler counts on are there. *)
Theorem minesweeper_starts_with_ten_mines room rnd gs :
  initializeGameState room "minesweeper" rnd = Initialized gs ->
  exists b,
    board gs = MinesweeperBoard b /\
    mineCount (ms_board b) = 10%nat /\
    length <$> ms_board b = replicate 8 8%nat /\
    Forall (Forall (fun m => isRevealed m = false /\ neighborCount m = 0)) (ms_board b).
Proof.
  unfold initializeGameState. destruct (at_ (room_players room) 0); [|done].
  change (gameKind "minesweeper") with (Some minesweeper). cbv beta iota zeta.
  destruct (placeMines _ 10 rnd) as [g|] eqn:Hplace; [|done].
  intros [= <-]. eexists. split; [done|]. simpl.
  apply (placeMines_spec (length rnd)) in Hplace as (Hcount & Hshape & Hfresh); [|done].
  split; [exact Hcount|]. split; [exact Hshape|].
  apply Hfresh. by vm_compute; repeat constructor.
Qed.

Lemma minesweeper_starts_with_ten_mines_witness :
  exists b,
    board (initialState "minesweeper" mineDraws) = MinesweeperBoard b /\
    mineCount (ms_board b) = 10%nat.
Proof.
  edestruct (minesweeper_starts_with_ten_mines lobby mineDraws
               (initialState "minesweeper" mineDraws)) as (b & Hb & Hcount & _).
  - vm_compute. reflexivity.
  - exists b. split; [exact Hb|exact Hcount].
Defined.

(** ** battleship: the fleet that is accepted *)

(** X22.  [validateShipPlacement] accepts a fleet exactly when its ships
    have, in some order, 5, 4, 3, 3 and 2 positions.  It looks at nothing
    else: not where the positions lie, not whether a ship is straight, not
    whether ships overlap. *)
Theorem fleet_is_valid_by_sizes_alone ss :
  validateShipPlacement ss = true <->
  (fun s => Z.of_nat (length (positions s))) <$> ss ≡ₚ [5; 4; 3; 3; 2].
Proof.
  unfold validateShipPlacement.
  set (sizes := (fun s => Z.of_nat (length (positions s))) <$> ss).
  destruct (negb (length ss =? 5)%nat) eqn:Hlen.
  - split; [done|]. intros Hperm. apply Permutation_length in Hperm.
    unfold sizes in Hperm. rewrite length_fmap in Hperm. simpl in Hperm.
    apply negb_true_iff, Nat.eqb_neq in Hlen. done.
  - rewrite bool_decide_eq_true. split.
    + intros <-. symmetry. apply merge_sort_Permutation.
    + intros Hperm.
      assert (AntiSymm eq Z.ge) as Hanti by (intros x y; lia).
      assert (Transitive Z.ge) as Htrans by (intros x y z; lia).
      assert (Total Z.ge) as Htotal by (intros x y; lia).
      apply (StronglySorted_unique Z.ge).
      * by apply StronglySorted_merge_sort.
      * repeat (apply SSorted_cons; [|repeat constructor; lia]). apply SSorted_nil.
      * by rewrite merge_sort_Permutation.
Qed.

(** ** minichess *)

Lemma pathLoop_spec g toRow toCol stepRow stepCol n : forall currentRow currentCol b,
  (stepRow, stepCol) <> (0, 0) ->
  currentRow + stepRow * Z.of_nat n = toRow ->
  currentCol + stepCol * Z.of_nat n = toCol ->
  pathLoop g toRow toCol stepRow stepCol currentRow currentCol n = Some b ->
  b = true <->
  forall m, 0 <= m < Z.of_nat n ->
    at2 g (currentRow + stepRow * m) (currentCol + stepCol * m) = Value None.
Proof.
  induction n as [|n IH]; intros currentRow currentCol b Hstep Hr Hc.
  - simpl. assert (currentRow = toRow) as -> by lia. assert (currentCol = toCol) as -> by lia.
    rewrite !Z.eqb_refl. simpl. intros [= <-]. split; [intros _ m ?; lia|done].
  - simpl.
    destruct ((currentRow =? toRow) && (currentCol =? toCol)) eqn:Hat.
    { apply andb_true_iff in Hat as [Hat1 Hat2].
      apply Z.eqb_eq in Hat1, Hat2. exfalso. apply Hstep.
      assert (stepRow = 0) as -> by nia. assert (stepCol = 0) as -> by nia. done. }
    destruct (at2 g currentRow currentCol) as [[v|]| |] eqn:Hcell; [| | |done].
    + intros [= <-]. split; [done|]. intros Hall.
      specialize (Hall 0 ltac:(lia)). rewrite !Z.mul_0_r, !Z.add_0_r in Hall. congruence.
    + intros H.
      assert (currentRow + stepRow + stepRow * Z.of_nat n = toRow) as Hr' by lia.
      assert (currentCol + stepCol + stepCol * Z.of_nat n = toCol) as Hc' by lia.
      rewrite (IH _ _ _ Hstep Hr' Hc' H). split.
      * intros Hall m Hm. destruct (decide (m = 0)) as [->|Hm0].
        -- by rewrite !Z.mul_0_r, !Z.add_0_r.
        -- specialize (Hall (m - 1) ltac:(lia)).
           by replace (currentRow + stepRow + stepRow * (m - 1))
                with (currentRow + stepRow * m) in Hall by lia;
              replace (currentCol + stepCol + stepCol * (m - 1))
                with (currentCol + stepCol * m) in Hall by lia.
      * intros Hall m Hm. specialize (Hall (m + 1) ltac:(lia)).
        by replace (currentRow + stepRow * (m + 1))
             with (currentRow + stepRow + stepRow * m) in Hall by lia;
           replace (currentCol + stepCol * (m + 1))
             with (currentCol + stepCol + stepCol * m) in Hall by lia.
    + intros [= <-]. split; [done|]. intros Hall.
      specialize (Hall 0 ltac:(lia)). rewrite !Z.mul_0_r, !Z.add_0_r in Hall. congruence.
Qed.

(** X23.  For a move along a rank or a file, [isPathClear], when it returns,
    answers [true] exactly when every square strictly between the two squares
    is empty; the squares at the two ends are not looked at. *)
Theorem rook_path_is_clear g fromRow fromCol toRow toCol b :
  fromRow = toRow \/ fromCol = toCol ->
  (fromRow, fromCol) <> (toRow, toCol) ->
  isPathClear g fromRow fromCol toRow toCol = Some b ->
  b = true <->
  forall m, 0 < m < Z.abs (toRow - fromRow) + Z.abs (toCol - fromCol) ->
    at2 g (fromRow + Z.sgn (toRow - fromRow) * m) (fromCol + Z.sgn (toCol - fromCol) * m)
    = Value None.
Proof.
  intros Hline Hmove H.
  set (d := Z.abs (toRow - fromRow) + Z.abs (toCol - fromCol)).
  set (sr := Z.sgn (toRow - fromRow)). set (sc := Z.sgn (toCol - fromCol)).
  assert (0 < d) as Hd.
  { unfold d. destruct (decide (fromRow = toRow)), (decide (fromCol = toCol)); subst;
      try lia. congruence. }
  assert ((sr, sc) <> (0, 0)) as Hstep.
  { unfold sr, sc. intros [= Hsr Hsc]. apply Z.sgn_null_iff in Hsr, Hsc. lia. }
  assert (fromRow + sr + sr * Z.of_nat (Z.to_nat (d - 1)) = toRow /\
          fromCol + sc + sc * Z.of_nat (Z.to_nat (d - 1)) = toCol) as [Hr Hc].
  { clear Hstep H. unfold d, sr, sc in *.
    destruct (Z.sgn_spec (toRow - fromRow)) as [[? ->]|[[? ->]|[? ->]]],
             (Z.sgn_spec (toCol - fromCol)) as [[? ->]|[[? ->]|[? ->]]]; split; lia. }
  unfold isPathClear in H. fold d sr sc in H.
  replace (Z.to_nat d) with (Z.to_nat (d - 1) + 1)%nat in H by lia.
  rewrite (pathLoop_enough _ _ _ _ _ _ _ _ 1 Hr Hc) in H.
  rewrite (pathLoop_spec _ _ _ _ _ _ _ _ _ Hstep Hr Hc H). split.
  - intros Hall m Hm. specialize (Hall (m - 1) ltac:(lia)).
    by replace (fromRow + sr + sr * (m - 1)) with (fromRow + sr * m) in Hall by lia;
       replace (fromCol + sc + sc * (m - 1)) with (fromCol + sc * m) in Hall by lia.
  - intros Hall m Hm. specialize (Hall (m + 1) ltac:(lia)).
    by replace (fromRow + sr * (m + 1)) with (fromRow + sr + sr * m) in Hall by lia;
       replace (fromCol + sc * (m + 1)) with (fromCol + sc + sc * m) in Hall by lia.
Qed.

Lemma rook_path_is_clear_witness :
  isPathClear initializeMiniChess 4 0 1 0 = Some false /\
  ~ (forall m, 0 < m < 3 -> at2 initializeMiniChess (4 + -1 * m) (0 + 0 * m) = Value None).
Proof.
  split; [vm_compute; reflexivity|].
  intros Hall.
  apply (rook_path_is_clear initializeMiniChess 4 0 1 0 false) in Hall; try done.
  - by right.
Defined.

(** The squares the double loop of [getValidMoves] visits. *)
Lemma squares_spec r c :
  (r, c) ∈ (toRow ← seqZ 0 5; toCol ← seqZ 0 5; [(toRow, toCol)]) <->
  0 <= r < 5 /\ 0 <= c < 5.
Proof.
  rewrite list_elem_of_bind. split.
  - intros (toRow & Hin & Hrow). apply elem_of_seqZ in Hrow.
    apply list_elem_of_bind in Hin as (toCol & Hin & Hcol). apply elem_of_seqZ in Hcol.
    apply list_elem_of_singleton in Hin. injection Hin as -> ->. lia.
  - intros [Hr Hc]. exists r. split; [|apply elem_of_seqZ; lia].
    apply list_elem_of_bind. exists c. split; [apply list_elem_of_singleton; done|].
    apply elem_of_seqZ. lia.
Qed.

Lemma collect_spec g row col squares : forall l,
  foldr (fun '(toRow, toCol) (acc : option (list (Z * Z))) =>
           if (toRow =? row) && (toCol =? col) then acc
           else
             match isValidChessMove g row col toRow toCol, acc with
             | Some true, Some l => Some ((toRow, toCol) :: l)
             | Some false, Some l => Some l
             | _, _ => None
             end)
        (Some []) squares = Some l ->
  forall r c,
    (r, c) ∈ l <->
    (r, c) ∈ squares /\ (r, c) <> (row, col) /\ isValidChessMove g row col r c = Some true.
Proof.
  induction squares as [|[toRow toCol] squares IH]; intros l; simpl.
  - intros [= <-] r c. split; [by intros ?%elem_of_nil|by intros [?%elem_of_nil _]].
  - destruct ((toRow =? row) && (toCol =? col)) eqn:Hsame.
    + apply andb_true_iff in Hsame as [Hr Hc]. apply Z.eqb_eq in Hr, Hc. subst.
      intros H r c. rewrite (IH _ H), elem_of_cons. split; [tauto|].
      intros ([?|?] & ? & ?); [done|tauto].
    + assert ((toRow, toCol) <> (row, col)) as Hne.
      { intros [= -> ->]. by rewrite !Z.eqb_refl in Hsame. }
      destruct (isValidChessMove g row col toRow toCol) as [[]|] eqn:Hvalid; [| |done].
      * destruct (foldr _ _ squares) as [l'|] eqn:Hrest; [|done].
        intros [= <-] r c. rewrite !elem_of_cons, (IH _ eq_refl). split.
        -- intros [[= -> ->]|?]; [auto|tauto].
        -- intros ([?|?] & ? & ?); [by left|right; tauto].
      * destruct (foldr _ _ squares) as [l'|] eqn:Hrest; [|done].
        intros [= <-] r c. rewrite elem_of_cons, (IH _ eq_refl). split; [tauto|].
        intros ([[= -> ->]|?] & ? & ?); [congruence|tauto].
Qed.

Lemma getValidMoves_elem g row col l r c :
  getValidMoves g row col = Some l ->
  (r, c) ∈ l <->
  truthy (cellOf (at2 g row col)) = true /\
  (0 <= r < 5 /\ 0 <= c < 5) /\ (r, c) <> (row, col) /\
  isValidChessMove g row col r c = Some true.
Proof.
  unfold getValidMoves.
  destruct (at2 g row col) as [a| |] eqn:Hat; cbn [cellOf]; [| |done].
  - destruct (truthy a) eqn:Hpiece; cbn [negb].
    + intros H. rewrite (collect_spec _ _ _ _ _ H), squares_spec. tauto.
    + intros [= <-]. split; [by intros ?%elem_of_nil|by intros [? _]].
  - cbn [truthy negb]. intros [= <-]. split; [by intros ?%elem_of_nil|by intros [? _]].
Qed.

(** X24.  [getValidMoves], the function behind [POST /api/valid-moves],
    when it returns, lists exactly the squares of the 5 x 5 board, other than
    the piece's own, to which [isValidChessMove] allows the piece on
    [(row, col)] to move; for an empty square it lists nothing. *)
Theorem valid_moves_are_the_allowed_squares g row col l :
  getValidMoves g row col = Some l ->
  (truthy (cellOf (at2 g row col)) = false -> l = []) /\
  forall r c,
    (r, c) ∈ l <->
    truthy (cellOf (at2 g row col)) = true /\
    (0 <= r < 5 /\ 0 <= c < 5) /\ (r, c) <> (row, col) /\
    isValidChessMove g row col r c = Some true.
Proof.
  intros H. split; [|intros r c; by apply getValidMoves_elem].
  intros Hempty. destruct l as [|[r c] l]; [done|].
  assert ((r, c) ∈ (r, c) :: l) as Hin by apply list_elem_of_here.
  apply (getValidMoves_elem _ _ _ _ _ _ H) in Hin as [Hpiece _]. congruence.
Qed.

Lemma valid_moves_are_the_allowed_squares_witness :
  exists l,
    getValidMoves initializeMiniChess 4 1 = Some l /\
    ((2, 0) ∈ l <->
     truthy (cellOf (at2 initializeMiniChess 4 1)) = true /\
     (0 <= 2 < 5 /\ 0 <= 0 < 5) /\ (2, 0) <> (4, 1) /\
     isValidChessMove initializeMiniChess 4 1 2 0 = Some true).
Proof.
  eexists. split; [vm_compute; reflexivity|].
  edestruct (valid_moves_are_the_allowed_squares initializeMiniChess 4 1) as [_ Hall].
  - vm_compute. reflexivity.
  - apply Hall.
Defined.



(** ** ludo *)

(** X26.  [movePiece] does not ask [canPlayerMove]: a piece on the track
    whose move reaches or passes 57 is always moved, to 57, and counted in
    [home], although [canPlayerMove] refuses a move past 57.  This includes a
    piece that already stands on 57: it is counted again, and with one piece
    home before, the mover wins by moving that same piece. *)
Theorem ludo_piece_home_counts_again gs b move playerId rolled p o :
  board gs = LudoBoardOf b ->
  currentPlayer gs = playerId -> gameOver gs = false ->
  mv_action move = "movePiece" -> diceRolled b = true ->
  let playerKey := playerKeyOf (findIndex (players gs) playerId) in
  at_ (pieces (ludoPlayer b playerKey)) (mv_pieceIndex move) = Some p ->
  0 < p -> 57 <= p + diceValue b ->
  otherPlayer (players gs) playerId = Some o ->
  exists r cl b',
    processLudoMove gs move playerId rolled = (Returned r, cl) /\
    valid r = true /\
    board (res_gameState r) = LudoBoardOf b' /\
    at_ (pieces (ludoPlayer b' playerKey)) (mv_pieceIndex move) = Some 57 /\
    home (ludoPlayer b' playerKey) = home (ludoPlayer b playerKey) + 1 /\
    (1 <= home (ludoPlayer b playerKey) ->
     gameOver (res_gameState r) = true /\ winner (res_gameState r) = Some playerId) /\
    (57 < p + diceValue b ->
     (0 <? p) && (p + diceValue b <=? 57) = false).
Proof.
  intros Hboard Hcur Hover Haction Hrolled playerKey Hp Hpos Hhome Ho.
  unfold processLudoMove.
  rewrite (current_guard _ _ Hcur), Hover, Hboard, clearExistingTimer_recorded. simpl.
  rewrite Haction, Hrolled. simpl. fold playerKey. rewrite Hp.
  assert ((p =? 0) = false) as -> by lia. simpl.
  assert ((57 <=? p + diceValue b) = true) as -> by lia.
  assert (forall b0 : LudoPlayer,
            home (ludoPlayer (set_dice (set_ludoPlayer b playerKey b0) (diceValue b) false)
                             playerKey) = home b0 /\
            pieces (ludoPlayer (set_dice (set_ludoPlayer b playerKey b0) (diceValue b) false)
                               playerKey) = pieces b0) as Hset
    by (intros b0; by destruct playerKey).
  destruct (2 <=? home (ludoPlayer b playerKey) + 1) eqn:Hwin.
  - eexists _, _, _. split; [done|]. simpl. split; [done|]. split; [done|].
    destruct (Hset {| pieces := put (pieces (ludoPlayer b playerKey)) (mv_pieceIndex move) 57;
                      home := home (ludoPlayer b playerKey) + 1 |}) as [-> ->]. simpl.
    split; [by eapply at_put_eq|]. split; [done|]. split; [done|]. intros. lia.
  - destruct (negb (diceValue b =? 6)).
    + unfold switchTurns. simpl. rewrite Ho.
      eexists _, _, _. split; [done|]. simpl. split; [done|]. split; [done|].
      destruct (Hset {| pieces := put (pieces (ludoPlayer b playerKey)) (mv_pieceIndex move) 57;
                        home := home (ludoPlayer b playerKey) + 1 |}) as [-> ->]. simpl.
      split; [by eapply at_put_eq|]. split; [done|]. split; intros; lia.
    + eexists _, _, _. split; [done|]. simpl. split; [done|]. split; [done|].
      destruct (Hset {| pieces := put (pieces (ludoPlayer b playerKey)) (mv_pieceIndex move) 57;
                        home := home (ludoPlayer b playerKey) + 1 |}) as [-> ->]. simpl.
      split; [by eapply at_put_eq|]. split; [done|]. split; intros; lia.
Qed.

Lemma ludo_piece_home_counts_again_witness :
  exists r,
    processLudoMove ludoOneHome (ludoMove "movePiece" 0) "s-alice" 0 = (Returned r, []) /\
    valid r = true /\
    gameOver (res_gameState r) = true /\ winner (res_gameState r) = Some "s-alice".
Proof.
  edestruct (ludo_piece_home_counts_again ludoOneHome) with
    (move := ludoMove "movePiece" 0) (playerId := "s-alice") (rolled := 0) (p := 57)
    as (r & cl & b' & Hmove & Hv & _ & _ & _ & Hwin & _).
  - reflexivity.
  - reflexivity.
  - reflexivity.
  - reflexivity.
  - reflexivity.
  - reflexivity.
  - lia.
  - simpl. lia.
  - vm_compute. reflexivity.
  - exists r. split.
    + rewrite Hmove. f_equal. vm_compute in Hmove. by injection Hmove as _ <-.
    + split; [exact Hv|]. apply Hwin. simpl. lia.
Defined.

(** X27.  The ludo board stays on the track: if every piece stands between
    0 and 57 and the dice shows at most 6, then after any call of the handler
    that returns, with a throw between 1 and 6, every piece still stands
    between 0 and 57 and the dice still shows at most 6; and no player's
    [home] count ever decreases. *)
Theorem ludo_stays_on_track gs b move playerId rolled r cl :
  board gs = LudoBoardOf b ->
  onTrack b -> 1 <= rolled <= 6 ->
  processLudoMove gs move playerId rolled = (Returned r, cl) ->
  exists b',
    board (res_gameState r) = LudoBoardOf b' /\ onTrack b' /\
    home (ludo1 b) <= home (ludo1 b') /\ home (ludo2 b) <= home (ludo2 b').
Proof.
  intros Hboard (H1 & H2 & Hdice) Hrolled H.
  assert (forall k, Forall (fun p => 0 <= p <= 57) (pieces (ludoPlayer b k))) as Hk
    by (by intros []).
  unfold processLudoMove in H.
  rewrite Hboard, clearExistingTimer_recorded in H. cbv beta iota zeta in H.
  set (playerKey := playerKeyOf (findIndex (players (set_timer gs None)) playerId)) in H.
  assert (forall p idx (hm : Z),
            0 <= p <= 57 -> home (ludoPlayer b playerKey) <= hm ->
            let b' := set_dice (set_ludoPlayer b playerKey
                                  {| pieces := put (pieces (ludoPlayer b playerKey)) idx p;
                                     home := hm |}) (diceValue b) false in
            onTrack b' /\ home (ludo1 b) <= home (ludo1 b') /\
            home (ludo2 b) <= home (ludo2 b')) as Hmoved.
  { intros p idx hm Hp Hhm. unfold onTrack.
    clear H. destruct playerKey; simpl in *; (split_and!; try done; try lia);
      (apply Forall_put; [first [exact H1 | exact H2] | lia]). }
  assert (exists b', board gs = LudoBoardOf b' /\ onTrack b' /\
                     home (ludo1 b) <= home (ludo1 b') /\ home (ludo2 b) <= home (ludo2 b'))
    as Hsame by (exists b; unfold onTrack; split_and!; try done; lia).
  destruct (negb _ || gameOver gs); [by injection H as <- _|].
  destruct (String.eqb (mv_action move) "rollDice").
  - destruct (canPlayerMove _ _ _).
    + injection H as <- _. simpl. eexists. split; [done|].
      unfold onTrack. simpl. split_and!; try done; lia.
    + unfold switchTurns in H. destruct (otherPlayer _ _); [|done].
      injection H as <- _. simpl. eexists. split; [done|].
      unfold onTrack. simpl. split_and!; try done; lia.
  - destruct (String.eqb (mv_action move) "movePiece" && diceRolled b);
      [|by injection H as <- _].
    destruct (at_ (pieces (ludoPlayer b playerKey)) (mv_pieceIndex move)) as [p|] eqn:Hp;
      [|by injection H as <- _].
    assert (0 <= p <= 57) as Hrange.
    { specialize (Hk playerKey). rewrite Forall_forall in Hk. apply Hk. by eapply at_elem. }
    destruct ((p =? 0) && negb (diceValue b =? 6)); [by injection H as <- _|].
    match type of H with
    | context [put _ _ ?np] =>
        assert (0 <= np <= 57) as Hnp by (repeat case_match; lia)
    end.
    match type of H with
    | context [{| pieces := _; home := ?hm |}] =>
        assert (home (ludoPlayer b playerKey) <= hm) as Hhm by (repeat case_match; lia)
    end.
    pose proof (Hmoved _ (mv_pieceIndex move) _ Hnp Hhm) as Hb'.
    repeat case_match; try discriminate H;
      unfold switchTurns in H; repeat case_match; try discriminate H;
      injection H as <- _; simpl; eexists; (split; [done|]); exact Hb'.
Qed.

Lemma ludo_stays_on_track_witness :
  exists r b',
    processLudoMove (initialState "ludo" []) (ludoMove "rollDice" 0) "s-alice" 6
    = (Returned r, []) /\
    board (res_gameState r) = LudoBoardOf b' /\ onTrack b'.
Proof.
  edestruct (ludo_stays_on_track (initialState "ludo" []) initializeLudo
               (ludoMove "rollDice" 0) "s-alice" 6) as (b' & Hb & Htrack & _).
  - reflexivity.
  - unfold onTrack. simpl. split_and!; try lia; repeat constructor; lia.
  - lia.
  - vm_compute. reflexivity.
  - eexists _, b'. split; [reflexivity|]. split; [exact Hb|exact Htrack].
Defined.

(** ** checkers *)

Lemma count_put2 {A} (P : A -> bool) (g : list (list A)) r c x y :
  at2 g r c = Value x ->
  (length (List.filter P (concat (put2 g r c y))) + (if P x then 1 else 0)
   = length (List.filter P (concat g)) + (if P y then 1 else 0))%nat.
Proof.
  unfold at2, put2. destruct (at_ g r) as [line|] eqn:Hr; [|done].
  destruct (at_ line c) as [z|] eqn:Hc; [|done]. intros [= ->].
  pose proof (count_put P line c x y Hc) as Hline.
  destruct (put_insert g r (put line c y) line Hr) as [-> Hl].
  rewrite insert_take_drop by (by eapply lookup_lt_Some).
  rewrite <- (take_drop_middle g _ line Hl) at 3.
  rewrite !concat_app, !concat_cons, !List.filter_app, !length_app. lia.
Qed.

Lemma pieceCount_put2 colour g r c x y :
  at2 g r c = Value x ->
  (pieceCount colour (put2 g r c y) +
   (if truthy x && includes (default "" x) colour then 1 else 0)
   = pieceCount colour g +
     (if truthy y && includes (default "" y) colour then 1 else 0))%nat.
Proof.
  apply (count_put2 (fun c => truthy c && includes (default "" c) colour)).
Qed.

(** What [isValidCheckersMove] has checked when it answers [true]. *)
Lemma isValidCheckersMove_true g fromRow fromCol toRow toCol playerColor :
  isValidCheckersMove g fromRow fromCol toRow toCol playerColor = Some true ->
  at2 g toRow toCol = Value None /\
  Z.abs (toRow - fromRow) = Z.abs (toCol - fromCol) /\
  (Z.abs (toRow - fromRow) = 1 \/
   Z.abs (toRow - fromRow) = 2 /\
   exists jumped,
     at2 g (fromRow + (toRow - fromRow) / 2) (fromCol + (toCol - fromCol) / 2)
     = Value (Some jumped) /\
     truthy (Some jumped) && includes jumped (opponentOf playerColor) = true).
Proof.
  unfold isValidCheckersMove. intros H.
  repeat case_match; simplify_eq; try done;
    match goal with
    | Hd : negb (_ =? _) = false |- _ => apply negb_false_iff, Z.eqb_eq in Hd
    end.
  - split; [done|]. split; [done|]. left. lia.
  - split; [done|]. split; [done|]. right. split; [lia|].
    match goal with
    | Ht : negb (truthy (cellOf (Value ?a))) = false |- _ =>
        destruct a as [jumped|]; [|done]; apply negb_false_iff in Ht; simpl in Ht
    end.
    exists jumped. split; [done|]. simpl in *.
    apply andb_true_iff. split; [|done].
    by match goal with Ht : negb _ = true |- _ => rewrite Ht end.
Qed.

(** X28.  An accepted checkers move goes one or two steps along a diagonal
    to an empty square.  A step leaves the number of the opponent's pieces as
    it was; a jump goes over a piece of the opponent and removes exactly that
    one.  The game ends exactly when the opponent has no piece left.  (The
    piece moved is assumed not to carry the opponent's colour in its name.) *)
Theorem checkers_jump_removes_one gs g move playerId r cl :
  board gs = CheckersBoard g ->
  processCheckersMove gs move playerId = (Returned r, cl) ->
  valid r = true ->
  let playerColor := if findIndex (players gs) playerId =? 0 then "red" else "black" in
  let opponent := opponentOf playerColor in
  includes (default "" (cellOf (at2 g (mv_fromRow move) (mv_fromCol move)))) opponent = false ->
  exists g',
    board (res_gameState r) = CheckersBoard g' /\
    at2 g (mv_toRow move) (mv_toCol move) = Value None /\
    Z.abs (mv_toRow move - mv_fromRow move) = Z.abs (mv_toCol move - mv_fromCol move) /\
    (Z.abs (mv_toRow move - mv_fromRow move) = 1 /\
     pieceCount opponent g' = pieceCount opponent g \/
     Z.abs (mv_toRow move - mv_fromRow move) = 2 /\
     (pieceCount opponent g' + 1)%nat = pieceCount opponent g) /\
    (gameOver (res_gameState r) = true <-> pieceCount opponent g' = 0%nat).
Proof.
  intros Hboard H Hv playerColor opponent Hown.
  unfold processCheckersMove in H.
  rewrite Hboard, clearExistingTimer_recorded in H. cbv beta iota zeta in H.
  cbn [players set_timer] in H. fold playerColor in H.
  set (fromRow := mv_fromRow move) in *. set (fromCol := mv_fromCol move) in *.
  set (toRow := mv_toRow move) in *. set (toCol := mv_toCol move) in *.
  destruct (negb _ || gameOver gs) eqn:Hguard; [by injection H as <- _|].
  apply orb_false_elim in Hguard as [_ Hover].
  assert (includes (playerColor +:+ "-king") opponent = false) as Hking.
  { unfold opponent, playerColor. by destruct (findIndex (players gs) playerId =? 0). }
  destruct (at2 g fromRow fromCol) as [origin| |] eqn:Horigin; [| |done].
  2: { simpl in H. by injection H as <- _. }
  simpl in H, Hown. destruct (truthy origin) eqn:Htruthy; simpl in H;
    [|by injection H as <- _].
  destruct origin as [piece|]; [|done]. simpl in H, Hown.
  destruct (negb (includes piece playerColor)); [by injection H as <- _|].
  destruct (isValidCheckersMove g fromRow fromCol toRow toCol playerColor) as [[]|] eqn:Hvalid;
    [| by injection H as <- _ | done].
  apply isValidCheckersMove_true in Hvalid as (Hto & Hdiag & Hstep).
  assert ((toRow, toCol) <> (fromRow, fromCol)) as Hmoved by (intros [= ? ?]; lia).
  set (g0 := put2 g toRow toCol (Some piece)) in *.
  set (g1 := put2 g0 fromRow fromCol None) in *.
  assert (pieceCount opponent g1 = pieceCount opponent g /\
          at2 g1 toRow toCol = Value (Some piece) /\
          forall r' c', (r', c') <> (toRow, toCol) -> (r', c') <> (fromRow, fromCol) ->
                        at2 g1 r' c' = at2 g r' c') as (Hcount1 & Hat1 & Hrest1).
  { pose proof (pieceCount_put2 opponent g toRow toCol None (Some piece) Hto) as Hc0.
    assert (at2 g0 fromRow fromCol = Value (Some piece)) as Hfrom0
      by (unfold g0; by rewrite at2_put2_ne).
    pose proof (pieceCount_put2 opponent g0 fromRow fromCol (Some piece) None Hfrom0) as Hc1.
    fold g0 in Hc0. fold g1 in Hc1. simpl in Hc0, Hc1. rewrite Hown in Hc0, Hc1.
    rewrite andb_false_r in Hc0, Hc1. split; [lia|]. split.
    - unfold g1. rewrite at2_put2_ne by congruence. unfold g0. by eapply at2_put2_eq.
    - intros r' c' Hn1 Hn2. unfold g1, g0. by rewrite !at2_put2_ne by congruence. }
  assert (forall g2 : list (list Cell),
            at2 g2 toRow toCol = Value (Some piece) ->
            pieceCount opponent
              (if (String.eqb playerColor "red" && (toRow =? 0)) ||
                  (String.eqb playerColor "black" && (toRow =? 7))
               then put2 g2 toRow toCol (Some (playerColor +:+ "-king"))
               else g2)
            = pieceCount opponent g2) as Hcrown.
  { intros g2 Hat2. destruct (_ || _); [|done].
    pose proof (pieceCount_put2 opponent g2 toRow toCol (Some piece)
                  (Some (playerColor +:+ "-king")) Hat2) as Hc.
    simpl in Hc. rewrite Hown, Hking, !andb_false_r, !Nat.add_0_r in Hc. exact Hc. }
  unfold checkForCapture in H. fold fromRow fromCol toRow toCol in H.
  destruct (Z.abs (toRow - fromRow) =? 2) eqn:Hjump.
  - apply Z.eqb_eq in Hjump. destruct Hstep as [?|(_ & jumped & Hmid & Hopp)]; [lia|].
    set (midRow := fromRow + (toRow - fromRow) / 2) in *.
    set (midCol := fromCol + (toCol - fromCol) / 2) in *.
    assert ((midRow, midCol) <> (toRow, toCol) /\ (midRow, midCol) <> (fromRow, fromCol))
      as [Hm1 Hm2].
    { unfold midRow, midCol.
      assert (toRow - fromRow = 2 \/ toRow - fromRow = -2) as Hd by lia.
      assert ((toRow - fromRow) / 2 = 1 /\ toRow - fromRow = 2 \/
              (toRow - fromRow) / 2 = -1 /\ toRow - fromRow = -2) as Hhalf
        by (destruct Hd as [Hd|Hd]; rewrite Hd; [left|right]; by split).
      split; intros [= ? ?]; lia. }
    assert (at2 g1 midRow midCol = Value (Some jumped)) as Hmid1
      by (by rewrite Hrest1).
    rewrite Hmid1 in H.
    pose proof (pieceCount_put2 opponent g1 midRow midCol (Some jumped) None Hmid1) as Hc2.
    change (default "" (Some jumped)) with jumped in Hc2.
    change (opponentOf playerColor) with opponent in Hopp.
    rewrite Hopp in Hc2. cbn [truthy andb] in Hc2. rewrite ?Nat.add_0_r in Hc2.
    set (g2 := put2 g1 midRow midCol None) in *.
    assert (at2 g2 toRow toCol = Value (Some piece)) as Hat2
      by (unfold g2; by rewrite at2_put2_ne by congruence).
    specialize (Hcrown g2 Hat2).
    match type of H with
    | context [concat ?g3] =>
        set (g' := g3) in *
    end.
    match type of H with
    | context [(?n =? 0)%nat] => change n with (pieceCount opponent g') in H
    end.
    destruct (pieceCount opponent g' =? 0)%nat eqn:Hnone.
    + injection H as <- _. simpl. exists g'. split; [done|]. split; [done|]. split; [done|].
      split; [right; split; [done|lia]|]. apply Nat.eqb_eq in Hnone. done.
    + unfold switchTurns in H. destruct (otherPlayer _ _); [|done].
      injection H as <- _. simpl. exists g'. split; [done|]. split; [done|]. split; [done|].
      split; [right; split; [done|lia]|]. apply Nat.eqb_neq in Hnone.
      rewrite Hover. split; [done|]. intros. done.
  - apply Z.eqb_neq in Hjump. destruct Hstep as [Hone|[? _]]; [|lia].
    specialize (Hcrown g1 Hat1).
    match type of H with
    | context [concat ?g3] =>
        set (g' := g3) in *
    end.
    match type of H with
    | context [(?n =? 0)%nat] => change n with (pieceCount opponent g') in H
    end.
    destruct (pieceCount opponent g' =? 0)%nat eqn:Hnone.
    + injection H as <- _. simpl. exists g'. split; [done|]. split; [done|]. split; [done|].
      split; [left; split; [done|lia]|]. apply Nat.eqb_eq in Hnone. done.
    + unfold switchTurns in H. destruct (otherPlayer _ _); [|done].
      injection H as <- _. simpl. exists g'. split; [done|]. split; [done|]. split; [done|].
      split; [left; split; [done|lia]|]. apply Nat.eqb_neq in Hnone.
      rewrite Hover. split; [done|]. intros. done.
Qed.

Lemma checkers_jump_removes_one_witness :
  exists r g',
    processCheckersMove checkersJump (fromTo 5 0 3 2) "s-alice" = (Returned r, []) /\
    board (res_gameState r) = CheckersBoard g' /\
    (pieceCount "black" g' + 1)%nat
    = pieceCount "black" (put2 (put2 initializeCheckersBoard 2 3 None) 4 1 (Some "black")).
Proof.
  edestruct (checkers_jump_removes_one checkersJump
               (put2 (put2 initializeCheckersBoard 2 3 None) 4 1 (Some "black")))
    with (move := fromTo 5 0 3 2) (playerId := "s-alice")
    as (g' & Hb & _ & _ & [[Hone _]|[_ Hcount]] & _).
  - reflexivity.
  - vm_compute. reflexivity.
  - reflexivity.
  - vm_compute. reflexivity.
  - simpl in Hone. lia.
  - eexists _, g'. split; [reflexivity|]. split; [exact Hb|exact Hcount].
Defined.

(** ** minesweeper: a reveal *)

Lemma count_split (l : list Mine) :
  length l
  = (length (List.filter isMine l)
     + length (List.filter (fun c => isRevealed c && negb (isMine c)) l)
     + length (List.filter (fun c => negb (isRevealed c) && negb (isMine c)) l))%nat.
Proof.
  induction l as [|m l IH]; [done|]. simpl.
  destruct (isMine m), (isRevealed m); simpl; lia.
Qed.

Lemma count_none {A} (P : A -> bool) (l : list A) :
  length (List.filter P l) = 0%nat <-> Forall (fun x => P x = false) l.
Proof.
  induction l as [|x l IH]; simpl; [by split; [constructor|]|].
  destruct (P x) eqn:Hx; simpl.
  - split; [done|]. intros H. apply Forall_cons in H as [H _]. congruence.
  - rewrite IH. split; [by constructor|]. intros H. by apply Forall_cons in H as [_ H].
Qed.

Lemma length_concat_shape {A} (g : list (list A)) :
  length (concat g) = sum_list (length <$> g).
Proof. induction g as [|l g IH]; simpl; [done|]. by rewrite length_app, IH. Qed.

(** On an 8 x 8 board with ten mines, the count the handler compares with
    54 reaches it exactly when every cell without a mine is revealed. *)
Lemma all_safe_revealed (g : list (list Mine)) :
  length <$> g = replicate 8 8%nat ->
  mineCount g = 10%nat ->
  Z.of_nat (length (List.filter (fun c => isRevealed c && negb (isMine c)) (concat g)))
  = 64 - 10
  <-> Forall (Forall (fun m => isMine m = false -> isRevealed m = true)) g.
Proof.
  intros Hshape Hmines. unfold mineCount in Hmines.
  pose proof (count_split (concat g)) as Hsplit.
  rewrite length_concat_shape, Hshape, Hmines in Hsplit.
  change (sum_list (replicate 8 8%nat)) with 64%nat in Hsplit.
  assert (Forall (Forall (fun m => isMine m = false -> isRevealed m = true)) g <->
          Forall (fun c => negb (isRevealed c) && negb (isMine c) = false) (concat g)) as ->.
  { rewrite Forall_concat. apply Forall_iff. intros line. apply Forall_iff. intros m.
    cbv beta. destruct (isMine m), (isRevealed m); simpl; intuition congruence. }
  rewrite <- count_none. lia.
Qed.

(** X29.  On the 8 x 8 board with ten mines, an accepted minesweeper move
    reveals one cell that was not revealed and changes no other cell; the
    board keeps its shape and its ten mines.  When the cell holds a mine the
    game is over and the other player is the winner.  When it holds none, the
    game is over exactly when every cell without a mine is revealed. *)
Theorem minesweeper_reveals_one_cell gs b move playerId r cl :
  board gs = MinesweeperBoard b ->
  length <$> ms_board b = replicate 8 8%nat ->
  mineCount (ms_board b) = 10%nat ->
  processMinesweeperMove gs move playerId = (Returned r, cl) ->
  valid r = true ->
  exists b' cell cell',
    board (res_gameState r) = MinesweeperBoard b' /\
    at2 (ms_board b) (mv_row move) (mv_col move) = Value cell /\
    isRevealed cell = false /\
    at2 (ms_board b') (mv_row move) (mv_col move) = Value cell' /\
    isRevealed cell' = true /\ isMine cell' = isMine cell /\
    revealedBy cell' = Some playerId /\
    (forall r' c', (r', c') <> (mv_row move, mv_col move) ->
                   at2 (ms_board b') r' c' = at2 (ms_board b) r' c') /\
    length <$> ms_board b' = replicate 8 8%nat /\
    mineCount (ms_board b') = 10%nat /\
    (if isMine cell
     then gameOver (res_gameState r) = true /\
          winner (res_gameState r) = otherPlayer (players gs) playerId /\
          winner (res_gameState r) <> None
     else gameOver (res_gameState r) = true <->
          Forall (Forall (fun m => isMine m = false -> isRevealed m = true)) (ms_board b')).
Proof.
  intros Hboard Hshape Hmines H Hv. unfold processMinesweeperMove in H.
  rewrite Hboard, clearExistingTimer_recorded in H. cbv beta iota zeta in H.
  set (row := mv_row move) in *. set (col := mv_col move) in *.
  destruct (negb _ || gameOver gs) eqn:Hguard; [by injection H as <- _|].
  apply orb_false_elim in Hguard as [_ Hover].
  destruct (at2 (ms_board b) row col) as [cell| |] eqn:Hcell; [|done|done].
  destruct (isRevealed cell) eqn:Hrev; [by injection H as <- _|].
  set (cell1 := reveal cell playerId) in *.
  set (g1 := put2 (ms_board b) row col cell1) in *.
  assert (at2 g1 row col = Value cell1) as Hat1 by (by eapply at2_put2_eq).
  assert (forall r' c', (r', c') <> (row, col) -> at2 g1 r' c' = at2 (ms_board b) r' c')
    as Hrest1 by (intros r' c' Hne; unfold g1; by rewrite at2_put2_ne).
  assert (length <$> g1 = replicate 8 8%nat) as Hshape1
    by (unfold g1; by rewrite shape_put2).
  assert (mineCount g1 = 10%nat) as Hmines1.
  { pose proof (mineCount_put2 (ms_board b) row col cell cell1 Hcell) as Hc.
    fold g1 in Hc. change (isMine cell1) with (isMine cell) in Hc.
    destruct (isMine cell); lia. }
  destruct (isMine cell) eqn:Hmine.
  - cbn [players set_gameOver set_board set_firstMoveMade set_timer] in H.
    destruct (otherPlayer (players gs) playerId) as [o|] eqn:Ho; [|done].
    injection H as <- _. eexists _, cell, cell1. cbn.
    split; [reflexivity|]. split; [done|]. split; [done|]. split; [exact Hat1|].
    split; [done|]. split; [done|]. split; [done|]. split; [exact Hrest1|].
    split; [exact Hshape1|]. split; [exact Hmines1|]. rewrite Hmine. done.
  - destruct (calculateNeighborMines g1 row col neighbours) as [n|]; [|done].
    set (cell2 := set_neighborCount cell1 n) in *.
    set (g2 := put2 g1 row col cell2) in *.
    assert (at2 g2 row col = Value cell2) as Hat2 by (by eapply at2_put2_eq).
    assert (forall r' c', (r', c') <> (row, col) -> at2 g2 r' c' = at2 (ms_board b) r' c')
      as Hrest2 by (intros r' c' Hne; unfold g2; rewrite at2_put2_ne by done; by apply Hrest1).
    assert (length <$> g2 = replicate 8 8%nat) as Hshape2
      by (unfold g2; by rewrite shape_put2).
    assert (mineCount g2 = 10%nat) as Hmines2.
    { pose proof (mineCount_put2 g1 row col cell1 cell2 Hat1) as Hc.
      fold g2 in Hc. change (isMine cell2) with (isMine cell1) in Hc.
      destruct (isMine cell1); lia. }
    pose proof (all_safe_revealed g2 Hshape2 Hmines2) as Hall.
    destruct (_ =? _) eqn:Hdone in H.
    + apply Z.eqb_eq in Hdone. apply Hall in Hdone.
      destruct (decideByScore _ _) as [gs4|] eqn:Hscore; [|done].
      injection H as <- _.
      apply decideByScore_fields in Hscore.
      destruct Hscore as (_ & _ & _ & _ & Hgo & _ & _ & _ & Hb4 & _).
      eexists {| ms_board := g2; ms_scores := _ |}, cell, cell2.
      change (res_gameState (accept gs4 [])) with gs4. rewrite Hb4, Hgo.
      split; [reflexivity|].
      split; [done|]. split; [done|]. split; [exact Hat2|].
      split; [done|]. split; [done|]. split; [done|]. split; [exact Hrest2|].
      split; [exact Hshape2|]. split; [exact Hmines2|]. rewrite Hmine.
      split; [done|]. intros _. reflexivity.
    + apply Z.eqb_neq in Hdone.
      unfold switchTurns in H. destruct (otherPlayer _ _); [|done].
      injection H as <- _.
      eexists {| ms_board := g2; ms_scores := _ |}, cell, cell2. cbn.
      split; [reflexivity|].
      split; [done|]. split; [done|]. split; [exact Hat2|].
      split; [done|]. split; [done|]. split; [done|]. split; [exact Hrest2|].
      split; [exact Hshape2|]. split; [exact Hmines2|]. rewrite Hmine, Hover.
      split; [done|]. intros Hf. by apply Hall in Hf.
Qed.

Lemma minesweeper_reveals_one_cell_witness :
  exists r b' cell',
    processMinesweeperMove (initialState "minesweeper" mineDraws) (cellAt 5 5) "s-alice"
    = (Returned r, []) /\
    board (res_gameState r) = MinesweeperBoard b' /\
    at2 (ms_board b') 5 5 = Value cell' /\ isRevealed cell' = true /\
    mineCount (ms_board b') = 10%nat.
Proof.
  edestruct (minesweeper_reveals_one_cell (initialState "minesweeper" mineDraws))
    with (move := cellAt 5 5) (playerId := "s-alice")
    as (b' & cell & cell' & Hb & _ & _ & Hat & Hrev & _ & _ & _ & _ & Hmines & _).
  - vm_compute. reflexivity.
  - vm_compute. reflexivity.
  - vm_compute. reflexivity.
  - vm_compute. reflexivity.
  - reflexivity.
  - eexists _, b', cell'. split; [reflexivity|].
    split; [exact Hb|]. split; [exact Hat|]. split; [exact Hrev|exact Hmines].
Defined.

(** ** battleship: the ship reported as sunk *)

Lemma wasHit_put (shots' : list Cell) i pos :
  at_ shots' i = Some None ->
  wasHit shots' pos = true -> wasHit (put shots' i (Some "hit")) pos = true.
Proof.
  unfold wasHit. intros Hfree Hpos.
  destruct (decide (i = fst pos * 10 + snd pos)) as [->|Hne].
  - by rewrite Hfree in Hpos.
  - by rewrite at_put_ne.
Qed.

Lemma wasHit_new (shots' : list Cell) i v ps :
  forallb (wasHit (put shots' i v)) ps = true ->
  forallb (wasHit shots') ps = false ->
  existsb (fun pos => fst pos * 10 + snd pos =? i) ps = true.
Proof.
  induction ps as [|pos ps IH]; simpl; [done|].
  intros [Hpos Hps]%andb_true_iff Hold.
  destruct (decide (i = fst pos * 10 + snd pos)) as [->|Hne].
  - by rewrite Z.eqb_refl.
  - unfold wasHit in Hpos, Hold at 1. rewrite at_put_ne in Hpos by done.
    rewrite Hpos in Hold. simpl in Hold. rewrite IH by done. apply orb_true_r.
Qed.

(** A ship that [checkForSunkShip] finds is found again after a further hit,
    unless the hit completes a ship listed before it. *)
Lemma checkForSunkShip_again ss (shots' : list Cell) i s0 :
  at_ shots' i = Some None ->
  checkForSunkShip ss shots' = Some s0 ->
  exists s,
    checkForSunkShip ss (put shots' i (Some "hit")) = Some s /\
    (s = s0 \/ existsb (fun pos => fst pos * 10 + snd pos =? i) (positions s) = true).
Proof.
  intros Hfree. unfold checkForSunkShip.
  induction ss as [|x ss IH]; simpl; [done|].
  destruct (forallb (wasHit shots') (positions x)) eqn:Hold; simpl.
  - assert (forallb (wasHit (put shots' i (Some "hit"))) (positions x) = true) as ->.
    { apply forallb_forall. intros pos Hin. apply wasHit_put; [done|].
      by eapply forallb_forall in Hold. }
    simpl. destruct (negb (sunk x)); [intros [= <-]; eauto|apply IH].
  - destruct (forallb (wasHit (put shots' i (Some "hit"))) (positions x)) eqn:Hnew; simpl;
      [|apply IH].
    destruct (negb (sunk x)); [|apply IH].
    intros _. exists x. split; [done|]. right. by eapply wasHit_new.
Qed.

(** X30.  A shot leaves the ships of both players as they were: no ship is
    ever marked as sunk.  So once every position of one of the opponent's
    ships has been hit, each later hit reports a sunk ship again: the same
    ship, unless the shot has just completed another one. *)
Theorem battleship_sunk_report_repeats gs b move playerId r cl opponentId pb ob s0 :
  board gs = BattleshipBoard b ->
  processBattleshipShot gs move playerId = (Returned r, cl) ->
  valid r = true ->
  otherPlayer (players gs) playerId = Some opponentId ->
  b !! playerId = Some pb ->
  b !! opponentId = Some ob ->
  checkForSunkShip (ships ob) (shots pb) = Some s0 ->
  x_hit true ∈ extra r ->
  exists b' s,
    board (res_gameState r) = BattleshipBoard b' /\
    (forall k, ships <$> b' !! k = ships <$> b !! k) /\
    x_sunk (Some s) ∈ extra r /\
    (s = s0 \/
     existsb (fun pos => fst pos * 10 + snd pos =? mv_row move * 10 + mv_col move)
             (positions s) = true).
Proof.
  intros Hboard H Hv Hother Hpb Hob Hsunk Hhit.
  unfold processBattleshipShot in H.
  destruct (negb _ || gameOver gs); [by injection H as <- _|].
  rewrite Hboard, clearExistingTimer_recorded in H. cbv beta iota zeta in H.
  cbn [players set_timer] in H. rewrite Hother, Hpb in H.
  set (shotIndex := mv_row move * 10 + mv_col move) in *.
  destruct (slotNotNull (at_ (shots pb) shotIndex)) eqn:Hslot; [by injection H as <- _|].
  assert (at_ (shots pb) shotIndex = Some None) as Hfree
    by (by destruct (at_ (shots pb) shotIndex) as [[]|]).
  rewrite Hob in H.
  assert (forall (shots' : list Cell) k,
            ships <$> <[playerId := {| ships := ships pb; shots := shots' |}]> b !! k
            = ships <$> b !! k) as Hships.
  { intros shots' k. destruct (decide (playerId = k)) as [<-|Hne].
    - by rewrite lookup_insert_eq, Hpb.
    - by rewrite lookup_insert_ne. }
  destruct (existsb _ (ships ob)) eqn:Hit.
  - destruct (checkForSunkShip_again _ _ _ _ Hfree Hsunk) as (s & Hs & Hwhich).
    rewrite Hs in H.
    destruct (true && _); injection H as <- _; eexists _, s; cbn;
      (split; [reflexivity|]); (split; [apply Hships|]); (split; [|exact Hwhich]);
      repeat constructor.
  - rewrite andb_false_l in H. injection H as <- _. cbn in Hhit.
    by inversion Hhit as [|? ? ? Hsunk']; inversion Hsunk' as [|? ? ? Hnil]; inversion Hnil.
Qed.

Lemma battleship_sunk_report_repeats_witness :
  exists r,
    processBattleshipShot oneShipDown (cellAt 0 0) "s-alice" = (Returned r, []) /\
    x_hit true ∈ extra r /\
    x_sunk (Some (shipAt 4 2)) ∈ extra r.
Proof.
  edestruct (battleship_sunk_report_repeats oneShipDown)
    with (move := cellAt 0 0) (playerId := "s-alice") (opponentId := "s-bob")
         (s0 := shipAt 4 2)
    as (b' & s & _ & _ & Hs & [->|Hnew]).
  - vm_compute. reflexivity.
  - vm_compute. reflexivity.
  - reflexivity.
  - vm_compute. reflexivity.
  - vm_compute. reflexivity.
  - vm_compute. reflexivity.
  - vm_compute. reflexivity.
  - vm_compute. repeat constructor.
  - eexists. split; [vm_compute; reflexivity|]. split; [|exact Hs].
    vm_compute. repeat constructor.
  - eexists. split; [vm_compute; reflexivity|].
    split; vm_compute; repeat constructor.
Defined.
